(** * IVoiceCue: key lighting synchronised with mixer parameters

    A shallow embedding of [IVoiceCue.py]: the colour mapper
    ([clamp], [color_for_gain]), the lighting controller
    ([KeyLightingController.set_color]) and the parameter observer
    ([ParameterObserver.__init__], [initialize_leds], [toggle_strip],
    [check_updates]).

    Numbers.  Gains are Python floats in the source.  The colour mapper
    is embedded twice.  [Binary64.color_for_gain] is the code on Python
    numbers as CPython computes them: ints are unbounded, floats are
    binary64 with their rounding, overflow, infinities and NaN,
    [float()] of a large int raises [OverflowError], a zero divisor
    raises [ZeroDivisionError], [int()] raises on NaN and on an
    infinity.  What the specification states about the arithmetic of
    the mapper is settled there.  [color_for_gain] is the same code over
    exact rationals [Q]: it is the mapper the engine carries around,
    where only the identity of the colour matters, and the one on which
    the statements that rest on comparisons alone are proved. *)

From Stdlib Require Import ZArith QArith Qminmax Qround Lqa Lia List String
  Bool Floats.
Import ListNotations.

Set Implicit Arguments.

(** ** Python primitives *)

Module Py.

Inductive exn :=
| ZeroDivisionError
| KeyError (key : Z)
| ExternalError (msg : string).

(** A call either raises ([inl]) or returns ([inr]). *)
Definition result (A : Type) : Type := (exn + A)%type.

(** The values the mixer hands out: [bool] for mutes and sends,
    [float] for gains. *)
Inductive value :=
| VBool (b : bool)
| VFloat (q : Q).

(** Arithmetic and comparisons see [True]/[False] as 1/0. *)
Definition to_num (v : value) : Q :=
  match v with
  | VBool true => 1
  | VBool false => 0
  | VFloat q => q
  end.

(** [bool(v)] *)
Definition truthy (v : value) : bool :=
  match v with
  | VBool b => b
  | VFloat q => negb (Qeq_bool q 0)
  end.

(** [v == w] *)
Definition eq (v w : value) : bool := Qeq_bool (to_num v) (to_num w).

(** [x < y] and [x > y] on numbers *)
Definition lt (x y : Q) : bool := (Qnum x * QDen y <? Qnum y * QDen x)%Z.
Definition gt (x y : Q) : bool := lt y x.

(** [min(a, b)]: the first argument unless the second is smaller.
    [max(a, b)]: the first argument unless the second is larger. *)
Definition min (a b : Q) : Q := if lt b a then b else a.
Definition max (a b : Q) : Q := if gt b a then b else a.

(** [a / b] *)
Definition truediv (a b : Q) : result Q :=
  if Qeq_bool b 0 then inl ZeroDivisionError else inr (a / b).

(** [float(x)] on a number *)
Definition float (x : Q) : Q := x.

(** [int(x)]: truncation towards zero *)
Definition int (x : Q) : Z := Z.quot (Qnum x) (QDen x).

End Py.

(** ** Colours *)

Definition color : Type := (Z * Z * Z)%type.

Definition LED_ON_COLOR : color := (0, 255, 0)%Z.
Definition LED_OFF_COLOR : color := (255, 0, 0)%Z.

Definition BLUE : color := (0, 0, 255)%Z.
Definition GREEN : color := (0, 255, 0)%Z.
Definition RED : color := (255, 0, 0)%Z.

Definition channel_ok (c : Z) : Prop := (0 <= c <= 255)%Z.

Definition color_ok (c : color) : Prop :=
  let '(r, g, b) := c in channel_ok r /\ channel_ok g /\ channel_ok b.

(** ** The colour mapper *)

Definition clamp (value min_val max_val : Q) : Q :=
  Py.max min_val (Py.min value max_val).

Definition color_for_gain (value origin end_ : Q) : Py.result color :=
  if Qeq_bool origin end_ then inr RED
  else if Py.lt origin end_ then
    if Py.lt value origin then inr BLUE
    else if Py.gt value end_ then inr RED
    else
      match Py.truediv (value - origin) (Py.float (end_ - origin)) with
      | inl e => inl e
      | inr ratio =>
          let ratio := clamp ratio 0 1 in
          let r := Py.int (255 * ratio) in
          let g := Py.int (255 * (1 - ratio)) in
          let b := 0%Z in
          inr (r, g, b)
      end
  else
    if Py.lt value end_ then inr RED
    else if Py.gt value origin then inr BLUE
    else
      match Py.truediv (value - origin) (Py.float (end_ - origin)) with
      | inl e => inl e
      | inr ratio =>
          let ratio := clamp ratio 0 1 in
          let r := Py.int (255 * ratio) in
          let g := Py.int (255 * (1 - ratio)) in
          let b := 0%Z in
          inr (r, g, b)
      end.

(** The ratio of the specification, [(value - origin) / (end - origin)]. *)
Definition gain_ratio (value origin end_ : Q) : Q :=
  (value - origin) / (end_ - origin).

(** ** The colour mapper on Python numbers

    The same two functions once more, on the numbers CPython computes
    with.  An [int] is an unbounded integer ([True] and [False] are the
    ints 1 and 0).  A [float] is an IEEE 754 binary64 value: Rocq's
    primitive [float], whose operations round to nearest, ties to even,
    and are specified bit for bit by [SpecFloat].  Operators on an int
    and a float convert the int, except comparisons, which are exact. *)

Module PyNum.

Inductive exn :=
| ZeroDivisionError
| OverflowError
| ValueError.

(** A call either raises ([inl]) or returns ([inr]). *)
Definition result (A : Type) : Type := (exn + A)%type.

Definition bind {A B : Type} (x : result A) (f : A -> result B) : result B :=
  match x with
  | inl e => inl e
  | inr a => f a
  end.

Inductive num :=
| Int (z : Z)
| Float (f : float).

(** The conversion of an int to a float: the nearest binary64 value, ties
    to even; [OverflowError] ("int too large to convert to float") when
    that is beyond the largest finite float. *)
Definition float_of_int (z : Z) : result float :=
  match binary_normalize prec emax z 0 false with
  | S754_infinity _ => inl OverflowError
  | x => inr (SF2Prim x)
  end.

(** [float(n)]; also what an arithmetic operator does to each operand
    when one of the two is a float. *)
Definition float_ (n : num) : result float :=
  match n with
  | Int z => float_of_int z
  | Float f => inr f
  end.

(** An int against a float: the int is not converted, the two are
    compared as the numbers they are; nothing compares with NaN. *)
Definition compare_int_float (z : Z) (f : float) : option comparison :=
  match Prim2SF f with
  | S754_nan => None
  | S754_infinity s => Some (if s then Gt else Lt)
  | S754_zero _ => Some (z ?= 0)%Z
  | S754_finite s m e =>
      let v := cond_Zopp s (Zpos m) in
      Some (if (0 <=? e)%Z then (z ?= v * 2 ^ e)%Z
            else (z * 2 ^ (- e) ?= v)%Z)
  end.

(** [a == b] *)
Definition eq (a b : num) : bool :=
  match a, b with
  | Int x, Int y => (x =? y)%Z
  | Float x, Float y => (x =? y)%float
  | Int x, Float y =>
      match compare_int_float x y with Some Eq => true | _ => false end
  | Float x, Int y =>
      match compare_int_float y x with Some Eq => true | _ => false end
  end.

(** [a < b] and [a > b] *)
Definition lt (a b : num) : bool :=
  match a, b with
  | Int x, Int y => (x <? y)%Z
  | Float x, Float y => (x <? y)%float
  | Int x, Float y =>
      match compare_int_float x y with Some Lt => true | _ => false end
  | Float x, Int y =>
      match compare_int_float y x with Some Gt => true | _ => false end
  end.

Definition gt (a b : num) : bool := lt b a.

(** [a - b] and [a * b]: on two ints the exact result; otherwise both
    operands become floats, the left one first, and the float operation
    is applied. *)
Definition sub (a b : num) : result num :=
  match a, b with
  | Int x, Int y => inr (Int (x - y))
  | _, _ =>
      bind (float_ a) (fun x =>
      bind (float_ b) (fun y => inr (Float (x - y)%float)))
  end.

Definition mul (a b : num) : result num :=
  match a, b with
  | Int x, Int y => inr (Int (x * y))
  | _, _ =>
      bind (float_ a) (fun x =>
      bind (float_ b) (fun y => inr (Float (x * y)%float)))
  end.

(** [a / b] where [b] is a float: [a] becomes a float, then
    [ZeroDivisionError] if [b == 0.0], else the float quotient. *)
Definition truediv (a : num) (b : float) : result float :=
  bind (float_ a) (fun x =>
  if (b =? 0)%float then inl ZeroDivisionError else inr (x / b)%float).

(** [min(a, b)]: the first argument unless the second is smaller.
    [max(a, b)]: the first argument unless the second is larger.
    With a NaN among the two, the first argument. *)
Definition min (a b : num) : num := if lt b a then b else a.
Definition max (a b : num) : num := if gt b a then b else a.

(** [int(x)]: truncation towards zero; [ValueError] on NaN,
    [OverflowError] on an infinity. *)
Definition int (n : num) : result Z :=
  match n with
  | Int z => inr z
  | Float f =>
      match Prim2SF f with
      | S754_nan => inl ValueError
      | S754_infinity _ => inl OverflowError
      | S754_zero _ => inr 0%Z
      | S754_finite s m e => inr (cond_Zopp s (Z.shiftl (Zpos m) e))
      end
  end.

End PyNum.

Module Binary64.

Import PyNum.

Definition clamp (value min_val max_val : num) : num :=
  PyNum.max min_val (PyNum.min value max_val).

Definition color_for_gain (value origin end_ : num) : result color :=
  if PyNum.eq origin end_ then inr RED
  else if PyNum.lt origin end_ then
    if PyNum.lt value origin then inr BLUE
    else if PyNum.gt value end_ then inr RED
    else
      bind (PyNum.sub value origin) (fun n =>
      bind (PyNum.sub end_ origin) (fun d =>
      bind (PyNum.float_ d) (fun fd =>
      bind (PyNum.truediv n fd) (fun ratio =>
      let ratio := clamp (Float ratio) (Float 0) (Float 1) in
      bind (PyNum.mul (Int 255) ratio) (fun pr =>
      bind (PyNum.int pr) (fun r =>
      bind (PyNum.sub (Float 1) ratio) (fun c =>
      bind (PyNum.mul (Int 255) c) (fun pg =>
      bind (PyNum.int pg) (fun g =>
      let b := 0%Z in
      inr (r, g, b))))))))))
  else
    if PyNum.lt value end_ then inr RED
    else if PyNum.gt value origin then inr BLUE
    else
      bind (PyNum.sub value origin) (fun n =>
      bind (PyNum.sub end_ origin) (fun d =>
      bind (PyNum.float_ d) (fun fd =>
      bind (PyNum.truediv n fd) (fun ratio =>
      let ratio := clamp (Float ratio) (Float 0) (Float 1) in
      bind (PyNum.mul (Int 255) ratio) (fun pr =>
      bind (PyNum.int pr) (fun r =>
      bind (PyNum.sub (Float 1) ratio) (fun c =>
      bind (PyNum.mul (Int 255) c) (fun pg =>
      bind (PyNum.int pg) (fun g =>
      let b := 0%Z in
      inr (r, g, b)))))))))).

End Binary64.

(** *** What the statements about floats are written with *)

(** [(value - origin) / (end - origin)] as the code computes it on three
    floats: both differences and the quotient are rounded. *)
Definition float_ratio (value origin end_ : float) : float :=
  ((value - origin) / (end_ - origin))%float.

(** [int(255 * x)] on a float [x] *)
Definition float_channel (x : float) : PyNum.result Z :=
  PyNum.bind (PyNum.mul (PyNum.Int 255) (PyNum.Float x)) PyNum.int.

(** [value] lies strictly between [origin] and [end], in either order. *)
Definition strictly_between (value origin end_ : float) : bool :=
  ((origin <? value) && (value <? end_)
   || (end_ <? value) && (value <? origin))%float.

(** The tests that lead [color_for_gain] to [BLUE]. *)
Definition beyond_origin64 (value origin end_ : float) : bool :=
  if (origin <? end_)%float then (value <? origin)%float
  else (negb (value <? end_) && (origin <? value))%float.

(** The largest finite float, and the float just below it. *)
Definition fmax : float := 0x1.fffffffffffffp+1023%float.
Definition fmax_pred : float := 0x1.ffffffffffffep+1023%float.

(** *** Binary64 rounding in integers

    What the proofs about [SpecFloat] are written with.  A finite float
    [m * 2^e] has [e >= -1074], so it is an integer number of units of
    [2^-1074]: its place on that grid is [m * 2^(e + 1074)]. *)

Module B64.

(** Whether a bit is lost when [m] is shifted right by [n]. *)
Definition sticky (m n : Z) : bool := negb (m mod 2 ^ n =? 0)%Z.

(** [M / 2^k] rounded to the nearest integer, ties to even. *)
Definition rne (M k : Z) : Z :=
  if (k <=? 0)%Z then M
  else
    let q := (M / 2 ^ k)%Z in
    let rem := (M mod 2 ^ k)%Z in
    if ((2 ^ k <? 2 * rem) || ((2 * rem =? 2 ^ k) && Z.odd q))%Z
    then (q + 1)%Z else q.

(** The last step of [binary_round_aux]: one more shift if the rounding
    carried into a new digit, then zero, a finite float or an infinity. *)
Definition finish (s : bool) (q e : Z) : spec_float :=
  let K2 := Z.max 0 (fexp prec emax (Zdigits2 q + e)%Z - e)%Z in
  match (q / 2 ^ K2)%Z with
  | Z0 => S754_zero s
  | Zpos m =>
      if (e + K2 <=? 971)%Z then S754_finite s m (e + K2)
      else S754_infinity s
  | Zneg _ => S754_nan
  end.

Definition grid (m : positive) (e : Z) : Z := (Z.pos m * 2 ^ (e + 1074))%Z.

(** The value of a finite float in units of [2^-1074]. *)
Definition gval (x : spec_float) : Z :=
  match x with
  | S754_finite s m e => cond_Zopp s (grid m e)
  | _ => 0%Z
  end.

Definition is_fin (x : spec_float) : bool :=
  match x with
  | S754_finite _ _ _ | S754_zero _ => true
  | _ => false
  end.

Definition nan_free (x : spec_float) : bool :=
  match x with
  | S754_nan => false
  | _ => true
  end.

Definition is_zero_sf (x : spec_float) : bool :=
  match x with
  | S754_zero _ => true
  | _ => false
  end.

(** Rounding a positive grid value to 53 significant bits. *)
Definition rnd_shift (N : Z) : Z := Z.max 0 (Zdigits2 N - 53)%Z.

Definition rnd (N : Z) : Z := (rne N (rnd_shift N) * 2 ^ rnd_shift N)%Z.

(** [r] is the float of sign [s] that the grid value [N] rounds to: an
    infinity from [2^2098 * 2^-1074 = 2^1024] on. *)
Definition rounded (s : bool) (N : Z) (r : spec_float) : Prop :=
  (r = S754_infinity s /\ (2 ^ 2098 <= rnd N)%Z) \/
  (exists m e, r = S754_finite s m e /\ grid m e = rnd N
               /\ (rnd N < 2 ^ 2098)%Z).

(** [r] is a zero or a finite float of sign [s] and magnitude at most [C]. *)
Definition at_most (s : bool) (C : Z) (r : spec_float) : Prop :=
  r = S754_zero s \/
  exists m e, r = S754_finite s m e /\ (e <= 0)%Z
              /\ (Z.pos m <= C * 2 ^ (- e))%Z.

(** 255.0 and 1.0 *)
Definition SF255 : spec_float := S754_finite false 8972014882652160 (-45)%Z.
Definition SF1 : spec_float := S754_finite false 4503599627370496 (-52)%Z.

(** The order of the floats that are not NaN, infinities included. *)
Definition top : Z := (2 ^ 2098)%Z.

Definition rank (x : spec_float) : Z :=
  match x with
  | S754_infinity false => top
  | S754_infinity true => (- top)%Z
  | _ => gval x
  end.

(** [clamp(r, 0.0, 1.0)] on a float, and the rest of the interpolation
    from the clamped ratio on. *)
Definition clampf (r : float) : float :=
  let m := if (1 <? r)%float then 1%float else r in
  if (0 <? m)%float then m else 0%float.

Definition channels (c : float) : PyNum.result color :=
  PyNum.bind (float_channel c) (fun r =>
  PyNum.bind (float_channel (1 - c)) (fun g => inr (r, g, 0%Z))).

Definition inside (value origin end_ : float) : PyNum.result color :=
  if (end_ - origin =? 0)%float then inl PyNum.ZeroDivisionError
  else channels (clampf (float_ratio value origin end_)).

End B64.

(** ** Dictionaries

    A Python [dict] with integer keys: an association list in insertion
    order in which no key occurs twice.  Assigning to a key that is
    present replaces its value in place; assigning to a new key appends. *)

Module Dict.

Definition t (V : Type) : Type := list (Z * V).

Definition empty {V : Type} : t V := [].

Fixpoint get {V : Type} (k : Z) (d : t V) : option V :=
  match d with
  | [] => None
  | (k', v) :: d' => if (k =? k')%Z then Some v else get k d'
  end.

(** [k in d] *)
Definition mem {V : Type} (k : Z) (d : t V) : bool :=
  match get k d with
  | Some _ => true
  | None => false
  end.

(** [d[k] = v] *)
Fixpoint set {V : Type} (k : Z) (v : V) (d : t V) : t V :=
  match d with
  | [] => [(k, v)]
  | (k', v') :: d' =>
      if (k =? k')%Z then (k, v) :: d' else (k', v') :: set k v d'
  end.

Definition keys {V : Type} (d : t V) : list Z := map fst d.
Definition values {V : Type} (d : t V) : list V := map snd d.
Definition items {V : Type} (d : t V) : list (Z * V) := d.

(** What every [dict] satisfies. *)
Definition wf {V : Type} (d : t V) : Prop := NoDup (keys d).

End Dict.

(** ** Configuration *)

(** A value of [STRIP_CONFIG]:
    [(strip_index, param_name, led_id, is_gain, (origin_val, end_val))].
    The last component is [None] or a tuple. *)
Record config_entry := ConfigEntry {
  cfg_s_idx : Z;
  cfg_p_name : string;
  cfg_led_id : Z;
  cfg_is_gain : bool;
  cfg_rng : option (list Q)
}.

Definition STRIP_CONFIG : Dict.t config_entry := [
  (97,  ConfigEntry 0 "B1" 116 false None);
  (98,  ConfigEntry 0 "B2" 117 false None);
  (99,  ConfigEntry 0 "B3" 118 false None);
  (100, ConfigEntry 5 "A1" 113 false None);
  (101, ConfigEntry 6 "A1" 114 false None);
  (102, ConfigEntry 7 "A1" 115 false None);
  (104, ConfigEntry 5 "gain" 110 true (Some [0; -30]%Q));
  (103, ConfigEntry 6 "gain" 109 true (Some [0; 0.40]%Q));
  (105, ConfigEntry 6 "A3" 111 false None)
]%Z.

(** A value of [monitored_params]:
    [(s_idx, p_name, current_val, led_id, is_gain, rng)]. *)
Record param := Param {
  s_idx : Z;
  p_name : string;
  cur_val : Py.value;
  led_id : Z;
  is_gain : bool;
  rng : option (list Q)
}.

(** ** What the program does to the outside *)

Record CorsairLedColor := LedColor {
  lc_id : Z;
  lc_r : Z;
  lc_g : Z;
  lc_b : Z;
  lc_a : Z
}.

(** The lines the program prints, by their tag. *)
Inductive message :=
| MsgLedError (led : Z) (e : Py.exn)
| MsgInit (vk : Z) (s : Z) (p : string) (v : Py.value)
| MsgToggleGain (vk : Z) (p : string) (v : Py.value)
| MsgToggleBool (vk : Z) (p : string) (v : Py.value)
| MsgExtGain (vk : Z) (p : string) (v : Py.value)
| MsgExtToggle (vk : Z) (p : string) (v : Py.value).

(** Every call that leaves the program is recorded when it is made,
    whether or not it then raises.  The most recent event comes first. *)
Inductive event :=
| EvSetattr (s : Z) (p : string) (v : Py.value)
| EvSetLedColors (device : string) (leds : list CorsairLedColor)
| EvPrint (m : message).

Definition color_of (lc : CorsairLedColor) : color :=
  (lc_r lc, lc_g lc, lc_b lc).

(** The colour of the latest request made for indicator [led]. *)
Fixpoint last_pushed (led : Z) (tr : list event) : option color :=
  match tr with
  | [] => None
  | EvSetLedColors _ leds :: tr' =>
      match find (fun lc => (lc_id lc =? led)%Z) leds with
      | Some lc => Some (color_of lc)
      | None => last_pushed led tr'
      end
  | _ :: tr' => last_pushed led tr'
  end.

Definition is_setattr (ev : event) : bool :=
  match ev with EvSetattr _ _ _ => true | _ => false end.

Definition is_set_led (ev : event) : bool :=
  match ev with EvSetLedColors _ _ => true | _ => false end.

(** ** The engine *)

Section Engine.

(** The mixer session and the lighting SDK are the program's two
    collaborators.  Reading a parameter returns its value or raises;
    writing one and setting LED colours return or raise, and leave the
    collaborator in a new state. *)
Variables Mixer Sdk : Type.
Variable vm_getattr : Mixer -> Z -> string -> Py.result Py.value.
Variable vm_setattr :
  Mixer -> Z -> string -> Py.value -> Py.result unit * Mixer.
Variable sdk_set_led_colors :
  Sdk -> string -> list CorsairLedColor -> Py.result unit * Sdk.

Record KeyLightingController := Lighting {
  sdk : Sdk;
  device_id : string;
  led_states : Dict.t bool
}.

(** A [ParameterObserver] with the trace of what it has done. *)
Record state := State {
  vm : Mixer;
  lighting_controller : KeyLightingController;
  monitored_params : Dict.t param;
  trace : list event
}.

Definition with_vm (m : Mixer) (st : state) : state :=
  State m (lighting_controller st) (monitored_params st) (trace st).

Definition with_sdk (k : Sdk) (st : state) : state :=
  let lc := lighting_controller st in
  State (vm st) (Lighting k (device_id lc) (led_states lc))
        (monitored_params st) (trace st).

Definition with_monitored_params (d : Dict.t param) (st : state) : state :=
  State (vm st) (lighting_controller st) d (trace st).

Definition record (ev : event) (st : state) : state :=
  State (vm st) (lighting_controller st) (monitored_params st)
        (ev :: trace st).

(** *** State and exceptions

    A computation returns or raises, and in both cases leaves a state:
    what was done before an exception stays done. *)
Definition M (A : Type) : Type := state -> Py.result A * state.

Definition ret {A : Type} (a : A) : M A := fun st => (inr a, st).

Definition raise {A : Type} (e : Py.exn) : M A := fun st => (inl e, st).

Definition bind {A B : Type} (m : M A) (k : A -> M B) : M B :=
  fun st =>
    match m st with
    | (inl e, st') => (inl e, st')
    | (inr a, st') => k a st'
    end.

Definition lift {A : Type} (r : Py.result A) : M A := fun st => (r, st).

(** [try: body / except Exception as e: handler e] *)
Definition try_except {A : Type} (body : M A) (handler : Py.exn -> M A)
  : M A :=
  fun st =>
    match body st with
    | (inl e, st') => handler e st'
    | (inr a, st') => (inr a, st')
    end.

Notation "x <- m ;; k" := (bind m (fun x => k))
  (at level 61, m at next level, right associativity).
Notation "m ;; k" := (bind m (fun _ => k))
  (at level 61, right associativity).

Definition getattr (s : Z) (p : string) : M Py.value :=
  fun st => (vm_getattr (vm st) s p, st).

Definition setattr (s : Z) (p : string) (v : Py.value) : M unit :=
  fun st =>
    let st := record (EvSetattr s p v) st in
    let '(r, m) := vm_setattr (vm st) s p v in
    (r, with_vm m st).

Definition set_led_colors (leds : list CorsairLedColor) : M unit :=
  fun st =>
    let lc := lighting_controller st in
    let st := record (EvSetLedColors (device_id lc) leds) st in
    let '(r, k) := sdk_set_led_colors (sdk lc) (device_id lc) leds in
    (r, with_sdk k st).

Definition print (m : message) : M unit :=
  fun st => (inr tt, record (EvPrint m) st).

(** [self.monitored_params[vk]] *)
Definition getitem (vk : Z) : M param :=
  fun st =>
    match Dict.get vk (monitored_params st) with
    | Some p => (inr p, st)
    | None => (inl (Py.KeyError vk), st)
    end.

(** [self.monitored_params[vk] = p] *)
Definition setitem (vk : Z) (p : param) : M unit :=
  fun st =>
    (inr tt, with_monitored_params (Dict.set vk p (monitored_params st)) st).

(** [for vk, p in self.monitored_params.items(): body].  The items are
    read from the dictionary as it is when each one is reached; the
    number of rounds is the size of the dictionary, which no body
    changes. *)
Fixpoint for_items_from (rounds i : nat) (body : Z -> param -> M unit)
  : M unit :=
  match rounds with
  | O => ret tt
  | S rounds' =>
      fun st =>
        match nth_error (Dict.items (monitored_params st)) i with
        | None => (inr tt, st)
        | Some (vk, p) =>
            (body vk p ;; for_items_from rounds' (S i) body) st
        end
  end.

Definition for_items (body : Z -> param -> M unit) : M unit :=
  fun st =>
    for_items_from (List.length (Dict.items (monitored_params st))) 0 body st.

(** [for x in xs: body] over a list nobody changes *)
Fixpoint for_each {A : Type} (xs : list A) (body : A -> M unit) : M unit :=
  match xs with
  | [] => ret tt
  | x :: xs' => body x ;; for_each xs' body
  end.

(** *** KeyLightingController *)

Definition KeyLightingController_init
    (k : Sdk) (dev : string) (led_ids : list Z) : KeyLightingController :=
  Lighting k dev
    (fold_left (fun d lid => Dict.set lid false d) led_ids Dict.empty).

(** The test [x is not None and r is not None and len(r) == 2] holds
    exactly when [x] is [Some _] and [r] is [Some [origin; end_]]. *)
Definition set_color
    (led : Z) (state gain : option Py.value) (gain_range : option (list Q))
  : M unit :=
  color <-
    match gain, gain_range with
    | Some g, Some [origin; end_] =>
        lift (color_for_gain (Py.to_num g) origin end_)
    | _, _ =>
        match state with
        | Some s =>
            ret (if Py.truthy s then LED_ON_COLOR else LED_OFF_COLOR)
        | None => ret LED_OFF_COLOR
        end
    end ;;
  let '(r, g, b) := color in
  try_except
    (set_led_colors [LedColor led r g b 255])
    (fun e => print (MsgLedError led e)).

(** *** ParameterObserver *)

(** The body of the loop of [__init__]. *)
Definition ParameterObserver_init_body (item : Z * config_entry) : M unit :=
  let '(vk, c) := item in
  current_val <- getattr (cfg_s_idx c) (cfg_p_name c) ;;
  setitem vk (Param (cfg_s_idx c) (cfg_p_name c) current_val
                    (cfg_led_id c) (cfg_is_gain c) (cfg_rng c)).

Definition ParameterObserver_init (config : Dict.t config_entry) : M unit :=
  (fun st => (inr tt, with_monitored_params Dict.empty st)) ;;
  for_each (Dict.items config) ParameterObserver_init_body.

(** The body of the loop of [initialize_leds]. *)
Definition initialize_leds_body (vk : Z) (p : param) : M unit :=
  match is_gain p, rng p with
  | true, Some [_; _] =>
      set_color (led_id p) None (Some (cur_val p)) (rng p)
  | _, _ =>
      set_color (led_id p) (Some (cur_val p)) None None
  end ;;
  print (MsgInit vk (s_idx p) (p_name p) (cur_val p)).

Definition initialize_leds : M unit := for_items initialize_leds_body.

Definition toggle_strip (vk : Z) : M unit :=
  fun st =>
    if negb (Dict.mem vk (monitored_params st)) then (inr tt, st)
    else
      (p <- getitem vk ;;
       new_val <-
         match is_gain p, rng p with
         | true, Some [origin; end_] =>
             let new_val :=
               if Py.eq (cur_val p) (Py.VFloat end_)
               then Py.VFloat origin else Py.VFloat end_ in
             setattr (s_idx p) (p_name p) new_val ;;
             set_color (led_id p) None (Some new_val) (rng p) ;;
             print (MsgToggleGain vk (p_name p) new_val) ;;
             ret new_val
         | _, _ =>
             let new_val := Py.VBool (negb (Py.truthy (cur_val p))) in
             setattr (s_idx p) (p_name p) new_val ;;
             set_color (led_id p) (Some new_val) None None ;;
             print (MsgToggleBool vk (p_name p) new_val) ;;
             ret new_val
         end ;;
       setitem vk (Param (s_idx p) (p_name p) new_val
                         (led_id p) (is_gain p) (rng p))) st.

(** The body of the loop of [check_updates]. *)
Definition check_updates_body (vk : Z) (p : param) : M unit :=
  cur <- getattr (s_idx p) (p_name p) ;;
  if negb (Py.eq cur (cur_val p)) then
    match is_gain p, rng p with
    | true, Some [_; _] =>
        set_color (led_id p) None (Some cur) (rng p) ;;
        print (MsgExtGain vk (p_name p) cur)
    | _, _ =>
        set_color (led_id p) (Some cur) None None ;;
        print (MsgExtToggle vk (p_name p) cur)
    end ;;
    setitem vk (Param (s_idx p) (p_name p) cur
                      (led_id p) (is_gain p) (rng p))
  else ret tt.

Definition check_updates : M unit := for_items check_updates_body.

(** *** The session, as [main] wires it *)

Definition fresh (m : Mixer) (k : Sdk) (dev : string)
    (config : Dict.t config_entry) : state :=
  State m
    (KeyLightingController_init k dev
       (map cfg_led_id (Dict.values config)))
    Dict.empty [].

(** [observer = ParameterObserver(vm, lighting)] and then
    [observer.initialize_leds()]. *)
Definition startup (config : Dict.t config_entry) : M unit :=
  ParameterObserver_init config ;; initialize_leds.

(** What happens between startup and shutdown: a key release that
    reaches [toggle_strip], a poll, and changes of the mixer and of the
    lighting device that come from outside. *)
Inductive op :=
| Toggle (vk : Z)
| Poll
| Outside (m : Mixer) (k : Sdk).

Definition step (o : op) (st : state) : state :=
  match o with
  | Toggle vk => snd (toggle_strip vk st)
  | Poll => snd (check_updates st)
  | Outside m k => with_vm m (with_sdk k st)
  end.

Definition run (ops : list op) (st : state) : state :=
  fold_left (fun s o => step o s) ops st.

End Engine.

(** ** A mixer and a keyboard to run the engine on

    The mixer holds one value per (strip, parameter) and answers while
    the session is logged in; the keyboard takes colours while it is
    plugged in.  Reading or writing a parameter the mixer does not have
    raises, as does any call after logout; setting a colour on an
    unplugged keyboard raises. *)

Module Bench.

Record mixer := Mixer {
  logged_in : bool;
  strips : list (Z * string * Py.value)
}.

Fixpoint lookup (l : list (Z * string * Py.value)) (s : Z) (p : string)
  : option Py.value :=
  match l with
  | [] => None
  | (s', p', v) :: l' =>
      if ((s =? s')%Z && String.eqb p p')%bool then Some v
      else lookup l' s p
  end.

Fixpoint store (l : list (Z * string * Py.value)) (s : Z) (p : string)
    (v : Py.value) : list (Z * string * Py.value) :=
  match l with
  | [] => []
  | (s', p', v') :: l' =>
      if ((s =? s')%Z && String.eqb p p')%bool then (s', p', v) :: l'
      else (s', p', v') :: store l' s p v
  end.

Definition getattr (m : mixer) (s : Z) (p : string)
  : Py.result Py.value :=
  if logged_in m then
    match lookup (strips m) s p with
    | Some v => inr v
    | None => inl (Py.ExternalError "no such parameter")
    end
  else inl (Py.ExternalError "not logged in").

Definition setattr (m : mixer) (s : Z) (p : string) (v : Py.value)
  : Py.result unit * mixer :=
  if logged_in m then
    match lookup (strips m) s p with
    | Some _ => (inr tt, Mixer true (store (strips m) s p v))
    | None => (inl (Py.ExternalError "no such parameter"), m)
    end
  else (inl (Py.ExternalError "not logged in"), m).

Record keyboard := Keyboard {
  plugged_in : bool;
  shown : list CorsairLedColor
}.

Definition set_led_colors (k : keyboard) (dev : string)
    (leds : list CorsairLedColor) : Py.result unit * keyboard :=
  if plugged_in k then (inr tt, Keyboard true (leds ++ shown k))
  else (inl (Py.ExternalError "device lost"), k).

(** A mixer that has every parameter of [STRIP_CONFIG]: sends and
    mutes off, gains at 0.0. *)
Definition mixer0 : mixer :=
  Mixer true
    (map (fun c : config_entry =>
            (cfg_s_idx c, cfg_p_name c,
             if cfg_is_gain c then Py.VFloat 0 else Py.VBool false))
         (Dict.values STRIP_CONFIG)).

Definition keyboard0 : keyboard := Keyboard true [].

End Bench.

(** ** The properties the specification speaks of *)

(** The colour the specification asks for. *)
Definition colorForBoolean (v : Py.value) : color :=
  if Py.truthy v then LED_ON_COLOR else LED_OFF_COLOR.

(** A binding is of the continuous-gain kind when it is flagged as a gain
    and carries a reference pair; any other binding is Boolean. *)
Definition ColorMapper (p : param) : Py.result color :=
  match is_gain p, rng p with
  | true, Some [origin; end_] =>
      color_for_gain (Py.to_num (cur_val p)) origin end_
  | _, _ => inr (colorForBoolean (cur_val p))
  end.

(** The colour [set_color] settles on. *)
Definition chosen_color (s g : option Py.value) (gr : option (list Q))
  : Py.result color :=
  match g, gr with
  | Some g, Some [origin; end_] =>
      color_for_gain (Py.to_num g) origin end_
  | _, _ =>
      inr match s with
          | Some s => if Py.truthy s then LED_ON_COLOR else LED_OFF_COLOR
          | None => LED_OFF_COLOR
          end
  end.

(** The value a toggle gives a binding. *)
Definition toggled (p : param) : Py.value :=
  match is_gain p, rng p with
  | true, Some [origin; end_] =>
      if Py.eq (cur_val p) (Py.VFloat end_)
      then Py.VFloat origin else Py.VFloat end_
  | _, _ => Py.VBool (negb (Py.truthy (cur_val p)))
  end.

Definition is_boolean_binding (p : param) : Prop :=
  match is_gain p, rng p with
  | true, Some [_; _] => False
  | _, _ => True
  end.

(** The side of the range a value falls off: beyond [origin] (away from
    [end_]) or beyond [end_] (away from [origin]). *)
Definition beyond_origin (value origin end_ : Q) : Prop :=
  (origin < end_ /\ value < origin) \/ (end_ < origin /\ origin < value).

Definition beyond_end (value origin end_ : Q) : Prop :=
  (origin < end_ /\ end_ < value) \/ (end_ < origin /\ value < end_).

(** The part of an entry that comes from the configuration, and the
    entry with another stored value. *)
Definition binding_of (p : param)
  : Z * string * Z * bool * option (list Q) :=
  (s_idx p, p_name p, led_id p, is_gain p, rng p).

Definition with_cur_val (v : Py.value) (p : param) : param :=
  Param (s_idx p) (p_name p) v (led_id p) (is_gain p) (rng p).

(** The keys, in order, each with the configured part of its entry. *)
Definition bindings (d : Dict.t param)
  : list (Z * (Z * string * Z * bool * option (list Q))) :=
  map (fun kp => (fst kp, binding_of (snd kp))) d.

Definition configured (config : Dict.t config_entry)
  : list (Z * (Z * string * Z * bool * option (list Q))) :=
  map (fun kc => (fst kc,
                  (cfg_s_idx (snd kc), cfg_p_name (snd kc),
                   cfg_led_id (snd kc), cfg_is_gain (snd kc),
                   cfg_rng (snd kc)))) config.

Definition leds_distinct (d : Dict.t param) : Prop :=
  NoDup (map led_id (Dict.values d)).

(** A configuration is a dictionary in which no two bindings share an
    indicator. *)
Definition config_wf (config : Dict.t config_entry) : Prop :=
  Dict.wf config /\ NoDup (map cfg_led_id (Dict.values config)).

Section Properties.

Context {Mixer Sdk : Type}.
Variable vm_getattr : Mixer -> Z -> string -> Py.result Py.value.
Variable sdk_set_led_colors :
  Sdk -> string -> list CorsairLedColor -> Py.result unit * Sdk.

(** The colour last requested for each tracked binding's indicator is
    the colour of its stored value. *)
Definition in_sync (st : state Mixer Sdk) : Prop :=
  forall vk p, In (vk, p) (monitored_params st) ->
    exists c, ColorMapper p = inr c
              /\ last_pushed (led_id p) (trace st) = Some c.

(** The stored value of a binding agrees with what the mixer reports. *)
Definition reconciled (m : Mixer) (p : param) : Prop :=
  exists v, vm_getattr m (s_idx p) (p_name p) = inr v
            /\ Py.eq v (cur_val p) = true.

Definition readable (m : Mixer) (p : param) : Prop :=
  exists v, vm_getattr m (s_idx p) (p_name p) = inr v.

(** The state once colour [c] has been requested for indicator [led]:
    the request is on the trace, and so is the warning if it raised. *)
Definition after_push (led : Z) (c : color) (st : state Mixer Sdk)
  : state Mixer Sdk :=
  let lc := lighting_controller st in
  let '(r, g, b) := c in
  let leds := [LedColor led r g b 255] in
  let st1 := record (EvSetLedColors (device_id lc) leds) st in
  match sdk_set_led_colors (sdk lc) (device_id lc) leds with
  | (inl e, k) => record (EvPrint (MsgLedError led e)) (with_sdk k st1)
  | (inr _, k) => with_sdk k st1
  end.

End Properties.

(** The events of [st'] that [st] did not have yet. *)
Definition since {Mixer Sdk : Type} (st st' : state Mixer Sdk)
  : list event :=
  firstn (List.length (trace st') - List.length (trace st)) (trace st').

(** ** More to say about the engine *)

(** The LED ids requested by a run of events, most recent first. *)
Definition pushed_leds (evs : list event) : list Z :=
  flat_map (fun ev => match ev with
                      | EvSetLedColors _ leds => map lc_id leds
                      | _ => []
                      end) evs.

Section Observations.

Context {Mixer Sdk : Type}.
Variable vm_getattr : Mixer -> Z -> string -> Py.result Py.value.

(** Whether the mixer reports a value that differs from the stored one. *)
Definition changed (m : Mixer) (p : param) : bool :=
  match vm_getattr m (s_idx p) (p_name p) with
  | inr cur => negb (Py.eq cur (cur_val p))
  | inl _ => false
  end.

(** The entry a poll leaves for a binding it could read. *)
Definition refreshed (m : Mixer) (p : param) : param :=
  match vm_getattr m (s_idx p) (p_name p) with
  | inr cur => if Py.eq cur (cur_val p) then p else with_cur_val cur p
  | inl _ => p
  end.

(** Every stored value is the value the mixer reports. *)
Definition as_read (m : Mixer) (d : Dict.t param) : Prop :=
  forall vk p, In (vk, p) d ->
    vm_getattr m (s_idx p) (p_name p) = inr (cur_val p).

(** What of the lighting controller no operation touches. *)
Definition same_lighting (st st' : state Mixer Sdk) : Prop :=
  device_id (lighting_controller st') = device_id (lighting_controller st)
  /\ led_states (lighting_controller st')
     = led_states (lighting_controller st).

End Observations.

(** ** Key releases *)

(** What the listener hands to [on_release]: a key with a code, whose
    virtual key number may be missing, or a special key. *)
Inductive key :=
| KeyCode (vk : option Z)
| Key (name : string).

Section Listener.

Context {Mixer Sdk : Type}.
Variable vm_setattr :
  Mixer -> Z -> string -> Py.value -> Py.result unit * Mixer.
Variable sdk_set_led_colors :
  Sdk -> string -> list CorsairLedColor -> Py.result unit * Sdk.

(** The callback [main] gives to the listener.  It returns [True]. *)
Definition on_release (config : Dict.t config_entry) (k : key)
  : M Mixer Sdk bool :=
  match k with
  | KeyCode (Some vk) =>
      if Dict.mem vk config then
        bind (toggle_strip vm_setattr sdk_set_led_colors vk)
             (fun _ => ret true)
      else ret true
  | KeyCode None => ret true
  | Key _ => ret true
  end.

End Listener.

(** ** The engine on the bench *)

Definition bench_fresh : state Bench.mixer Bench.keyboard :=
  fresh Bench.mixer0 Bench.keyboard0 "K70" STRIP_CONFIG.

(** The session once [main] has built the observer and lit the keys. *)
Definition bench_started : state Bench.mixer Bench.keyboard :=
  snd (startup Bench.getattr Bench.set_led_colors STRIP_CONFIG bench_fresh).

(** The gain of strip 5 toggled once: it is at its end value, -30.0. *)
Definition bench_at_end : state Bench.mixer Bench.keyboard :=
  snd (toggle_strip Bench.setattr Bench.set_led_colors 104 bench_started).

(** The mixer after a change made from outside: send B2 of strip 0 has
    been switched on, and its send B1 can no longer be read. *)
Definition mixer_without_B1 : Bench.mixer :=
  Bench.Mixer true
    ((0%Z, "B2"%string, Py.VBool true)
       :: skipn 2 (Bench.strips Bench.mixer0)).

Definition bench_without_B1 : state Bench.mixer Bench.keyboard :=
  with_vm mixer_without_B1 bench_started.

(** An afternoon at the keyboard. *)
Definition bench_ops : list (op Bench.mixer Bench.keyboard) :=
  [Toggle Bench.mixer Bench.keyboard 104;
   Outside mixer_without_B1 (Bench.Keyboard false []);
   Poll Bench.mixer Bench.keyboard;
   Toggle Bench.mixer Bench.keyboard 98;
   Toggle Bench.mixer Bench.keyboard 97].

(** ** The colour mapper on the examples of the specification *)

Example color_for_gain_mid :
  color_for_gain (-15) 0 (-30) = inr (127, 127, 0)%Z.
Proof. reflexivity. Qed.

Example color_for_gain_fifth :
  color_for_gain 0.2 0 0.4 = inr (127, 127, 0)%Z.
Proof. reflexivity. Qed.

(** ** Facts about the Python primitives *)

Section PyFacts.

Lemma lt_iff (x y : Q) : Py.lt x y = true <-> x < y.
Proof. unfold Py.lt, Qlt. apply Z.ltb_lt. Qed.

Lemma lt_false_iff (x y : Q) : Py.lt x y = false <-> y <= x.
Proof. unfold Py.lt, Qle. apply Z.ltb_ge. Qed.

Lemma gt_iff (x y : Q) : Py.gt x y = true <-> y < x.
Proof. apply lt_iff. Qed.

Lemma gt_false_iff (x y : Q) : Py.gt x y = false <-> x <= y.
Proof. apply lt_false_iff. Qed.

Lemma Qeq_bool_false_iff (x y : Q) : Qeq_bool x y = false <-> ~ x == y.
Proof.
  split.
  - intros H E. apply Qeq_bool_iff in E. congruence.
  - intros H. destruct (Qeq_bool x y) eqn:E; [|reflexivity].
    apply Qeq_bool_iff in E. contradiction.
Qed.

Lemma int_Qeq (x y : Q) : x == y -> Py.int x = Py.int y.
Proof.
  unfold Py.int, Qeq. destruct x as [a b], y as [c d]; simpl. intros H.
  rewrite <- (Z.quot_mul_cancel_r a (Zpos b) (Zpos d)) by lia.
  rewrite <- (Z.quot_mul_cancel_r c (Zpos d) (Zpos b)) by lia.
  rewrite H. f_equal. lia.
Qed.

Lemma int_bounds (x : Q) (n : Z) : 0 <= x -> x <= inject_Z n ->
  (0 <= Py.int x <= n)%Z.
Proof.
  unfold Py.int, Qle. destruct x as [a b]; simpl. intros H0 Hn.
  rewrite Z.mul_1_r in *.
  split.
  - apply Z.quot_pos; lia.
  - rewrite Z.quot_div_nonneg by lia.
    apply Z.div_le_upper_bound; lia.
Qed.

Lemma clamp_unit (r : Q) : 0 <= r -> r <= 1 -> clamp r 0 1 == r.
Proof.
  intros H0 H1. unfold clamp, Py.max, Py.min, Py.gt.
  destruct (Py.lt 1 r) eqn:E1.
  - apply lt_iff in E1. lra.
  - destruct (Py.lt 0 r) eqn:E0; [reflexivity|].
    apply lt_false_iff in E0. lra.
Qed.

Lemma clamp_unit_range (r : Q) : 0 <= clamp r 0 1 /\ clamp r 0 1 <= 1.
Proof.
  unfold clamp, Py.max, Py.min, Py.gt.
  destruct (Py.lt 1 r) eqn:E1; simpl.
  - change (Py.lt 0 1) with true. simpl. lra.
  - apply lt_false_iff in E1.
    destruct (Py.lt 0 r) eqn:E0.
    + apply lt_iff in E0. lra.
    + lra.
Qed.

End PyFacts.

(** ** Facts about the ratio *)

Lemma gain_ratio_origin (origin end_ : Q) :
  ~ origin == end_ -> gain_ratio origin origin end_ == 0.
Proof. intros H. unfold gain_ratio. field. lra. Qed.

Lemma gain_ratio_end (origin end_ : Q) :
  ~ origin == end_ -> gain_ratio end_ origin end_ == 1.
Proof. intros H. unfold gain_ratio. field. lra. Qed.

Lemma gain_ratio_ascending (value origin end_ : Q) :
  origin < end_ -> origin <= value -> value <= end_ ->
  0 <= gain_ratio value origin end_ /\ gain_ratio value origin end_ <= 1.
Proof.
  intros Hoe Hov Hve. unfold gain_ratio. split.
  - apply Qle_shift_div_l; lra.
  - apply Qle_shift_div_r; lra.
Qed.

Lemma gain_ratio_descending (value origin end_ : Q) :
  end_ < origin -> end_ <= value -> value <= origin ->
  0 <= gain_ratio value origin end_ /\ gain_ratio value origin end_ <= 1.
Proof.
  intros Heo Hev Hvo.
  assert (E : gain_ratio value origin end_ == (origin - value) / (origin - end_)).
  { unfold gain_ratio. field. lra. }
  rewrite E. split.
  - apply Qle_shift_div_l; lra.
  - apply Qle_shift_div_r; lra.
Qed.

(** Inside the closed range the clamp does nothing, whichever branch
    is taken, and the result is the interpolation on red and green. *)
Lemma color_for_gain_inside (value origin end_ : Q) :
  ~ origin == end_ ->
  Qmin origin end_ <= value -> value <= Qmax origin end_ ->
  color_for_gain value origin end_ =
    inr (Py.int (255 * gain_ratio value origin end_),
         Py.int (255 * (1 - gain_ratio value origin end_)),
         0%Z).
Proof.
  intros Hne Hlo Hhi. unfold color_for_gain.
  assert (Hd : Qeq_bool (Py.float (end_ - origin)) 0 = false).
  { apply Qeq_bool_false_iff. unfold Py.float. lra. }
  apply Qeq_bool_false_iff in Hne as ->.
  unfold Py.truediv. rewrite Hd.
  fold (gain_ratio value origin end_).
  destruct (Py.lt origin end_) eqn:Hoe.
  - apply lt_iff in Hoe.
    rewrite Q.min_l in Hlo by lra. rewrite Q.max_r in Hhi by lra.
    destruct (gain_ratio_ascending Hoe Hlo Hhi) as [R0 R1].
    apply lt_false_iff in Hlo as ->. apply gt_false_iff in Hhi as ->.
    pose proof (clamp_unit R0 R1) as C.
    cbv zeta. rewrite (int_Qeq (x := 255 * clamp _ 0 1) (y := 255 * gain_ratio value origin end_))
      by (rewrite C; reflexivity).
    rewrite (int_Qeq (x := 255 * (1 - clamp _ 0 1)) (y := 255 * (1 - gain_ratio value origin end_)))
      by (rewrite C; reflexivity).
    reflexivity.
  - apply lt_false_iff in Hoe.
    apply Qeq_bool_false_iff in Hd. unfold Py.float in Hd.
    assert (Heo : end_ < origin) by lra.
    rewrite Q.min_r in Hlo by lra. rewrite Q.max_l in Hhi by lra.
    destruct (gain_ratio_descending Heo Hlo Hhi) as [R0 R1].
    apply lt_false_iff in Hlo as ->. apply gt_false_iff in Hhi as ->.
    pose proof (clamp_unit R0 R1) as C.
    cbv zeta. rewrite (int_Qeq (x := 255 * clamp _ 0 1) (y := 255 * gain_ratio value origin end_))
      by (rewrite C; reflexivity).
    rewrite (int_Qeq (x := 255 * (1 - clamp _ 0 1)) (y := 255 * (1 - gain_ratio value origin end_)))
      by (rewrite C; reflexivity).
    reflexivity.
Qed.

Lemma color_for_gain_at_origin (origin end_ : Q) :
  ~ origin == end_ -> color_for_gain origin origin end_ = inr GREEN.
Proof.
  intros Hne.
  rewrite color_for_gain_inside;
    [| assumption | apply Q.le_min_l | apply Q.le_max_l].
  pose proof (gain_ratio_origin Hne) as R.
  rewrite (int_Qeq (x := 255 * _) (y := 0)) by (rewrite R; reflexivity).
  rewrite (int_Qeq (x := 255 * (1 - _)) (y := 255)) by (rewrite R; reflexivity).
  reflexivity.
Qed.

Lemma color_for_gain_at_end (origin end_ : Q) :
  ~ origin == end_ -> color_for_gain end_ origin end_ = inr RED.
Proof.
  intros Hne.
  rewrite color_for_gain_inside;
    [| assumption | apply Q.le_min_r | apply Q.le_max_r].
  pose proof (gain_ratio_end Hne) as R.
  rewrite (int_Qeq (x := 255 * _) (y := 255)) by (rewrite R; reflexivity).
  rewrite (int_Qeq (x := 255 * (1 - _)) (y := 0)) by (rewrite R; reflexivity).
  reflexivity.
Qed.

Lemma color_for_gain_degenerate (value origin end_ : Q) :
  origin == end_ -> color_for_gain value origin end_ = inr RED.
Proof.
  intros E. unfold color_for_gain.
  apply Qeq_bool_iff in E. rewrite E. reflexivity.
Qed.

Lemma fixed_colors_ok : color_ok RED /\ color_ok GREEN /\ color_ok BLUE.
Proof. unfold color_ok, channel_ok, RED, GREEN, BLUE. lia. Qed.

Lemma interpolated_ok (q : Q) :
  color_ok (Py.int (255 * clamp q 0 1), Py.int (255 * (1 - clamp q 0 1)), 0%Z).
Proof.
  destruct (clamp_unit_range q) as [H0 H1].
  unfold color_ok, channel_ok. repeat split; try lia.
  - apply (int_bounds (n := 255)); [lra | change (inject_Z 255) with 255; lra].
  - apply (int_bounds (n := 255)); [lra | change (inject_Z 255) with 255; lra].
  - apply (int_bounds (n := 255)); [lra | change (inject_Z 255) with 255; lra].
  - apply (int_bounds (n := 255)); [lra | change (inject_Z 255) with 255; lra].
Qed.

Lemma color_for_gain_returns (value origin end_ : Q) :
  exists c, color_for_gain value origin end_ = inr c /\ color_ok c.
Proof.
  destruct fixed_colors_ok as (HR & HG & HB).
  unfold color_for_gain.
  destruct (Qeq_bool origin end_) eqn:E; [eauto|].
  assert (Hd : Qeq_bool (Py.float (end_ - origin)) 0 = false).
  { apply Qeq_bool_false_iff in E. apply Qeq_bool_false_iff.
    unfold Py.float. lra. }
  unfold Py.truediv. rewrite Hd.
  destruct (Py.lt origin end_).
  - destruct (Py.lt value origin); [eauto|].
    destruct (Py.gt value end_); [eauto|].
    eexists; split; [reflexivity | apply interpolated_ok].
  - destruct (Py.lt value end_); [eauto|].
    destruct (Py.gt value origin); [eauto|].
    eexists; split; [reflexivity | apply interpolated_ok].
Qed.

(** ** The colour mapper: what the specification states *)

(** C6.  Off the range on the origin side the result is the below-range
    colour, blue; off the range on the end side it is the end colour,
    red.  With [origin = 0.0] and [end = -30.0]: -40.0 gives red, 5.0
    gives blue, and -15.0 gives [(r, g, 0)] with [r] and [g] each 127 or
    128. *)
Theorem color_for_gain_outside (value origin end_ : Q) :
  (beyond_origin value origin end_ ->
     color_for_gain value origin end_ = inr (0, 0, 255)%Z)
  /\ (beyond_end value origin end_ ->
     color_for_gain value origin end_ = inr (255, 0, 0)%Z)
  /\ color_for_gain (-40) 0 (-30) = inr (255, 0, 0)%Z
  /\ color_for_gain 5 0 (-30) = inr (0, 0, 255)%Z
  /\ (exists r g, color_for_gain (-15) 0 (-30) = inr (r, g, 0%Z)
        /\ (r = 127 \/ r = 128)%Z /\ (g = 127 \/ g = 128)%Z).
Proof.
  split; [|split; [|split; [|split]]].
  - intros [[Hoe Hv] | [Heo Hv]]; unfold color_for_gain.
    + assert (Hne : ~ origin == end_) by lra.
      apply Qeq_bool_false_iff in Hne as ->.
      apply lt_iff in Hoe as ->. apply lt_iff in Hv as ->. reflexivity.
    + assert (Hne : ~ origin == end_) by lra.
      apply Qeq_bool_false_iff in Hne as ->.
      assert (Hoe : end_ <= origin) by lra.
      apply lt_false_iff in Hoe as ->.
      assert (Hve : end_ <= value) by lra.
      apply lt_false_iff in Hve as ->.
      apply gt_iff in Hv as ->. reflexivity.
  - intros [[Hoe Hv] | [Heo Hv]]; unfold color_for_gain.
    + assert (Hne : ~ origin == end_) by lra.
      apply Qeq_bool_false_iff in Hne as ->.
      assert (Hov : origin <= value) by lra.
      apply lt_iff in Hoe as ->.
      apply lt_false_iff in Hov as ->.
      apply gt_iff in Hv as ->. reflexivity.
    + assert (Hne : ~ origin == end_) by lra.
      apply Qeq_bool_false_iff in Hne as ->.
      assert (Hoe : end_ <= origin) by lra.
      apply lt_false_iff in Hoe as ->.
      apply lt_iff in Hv as ->. reflexivity.
  - reflexivity.
  - reflexivity.
  - exists 127%Z, 127%Z. split; [reflexivity | lia].
Qed.

Lemma color_for_gain_outside_witness :
  color_for_gain (-1) 0 0.4 = inr (0, 0, 255)%Z
  /\ color_for_gain 1 0 0.4 = inr (255, 0, 0)%Z.
Proof.
  split.
  - apply (proj1 (color_for_gain_outside (-1) 0 0.4)).
    left. split; reflexivity.
  - apply (proj1 (proj2 (color_for_gain_outside 1 0 0.4))).
    left. split; reflexivity.
Defined.

Unset Implicit Arguments.

(** ** The colour mapper on binary64: facts

    [SpecFloat] gives the operations of binary64 as functions on
    mantissas and exponents.  The facts below read them as arithmetic
    on integers: a right shift is a division by a power of two, the
    rounding is to the nearest multiple with ties to even, it is
    monotone, and it never takes a quotient that is at most 1 above 1. *)

Section Binary64Facts.

Import B64.

Local Open Scope Z_scope.

Local Abbreviation valid := (SpecFloat.valid_binary prec emax).

(** *** Digits *)

Lemma fexp_eq (x : Z) : fexp prec emax x = Z.max (x - 53) (-1074).
Proof. unfold fexp, SpecFloat.emin, prec, emax. lia. Qed.

Lemma digits2_size (p : positive) : digits2_pos p = Pos.size p.
Proof. induction p; simpl; congruence. Qed.

Lemma Zdigits2_log2 (M : Z) : 0 < M -> Zdigits2 M = Z.log2 M + 1.
Proof.
  destruct M as [|p|p]; try lia. intros _. simpl Zdigits2.
  rewrite digits2_size. destruct p; simpl; lia.
Qed.

Lemma Zdigits2_bounds (M : Z) :
  0 < M -> 2 ^ (Zdigits2 M - 1) <= M < 2 ^ Zdigits2 M /\ 1 <= Zdigits2 M.
Proof.
  intros H. rewrite Zdigits2_log2 by exact H.
  pose proof (Z.log2_spec M H) as Hs. pose proof (Z.log2_nonneg M).
  replace (Z.log2 M + 1 - 1) with (Z.log2 M) by lia.
  replace (Z.log2 M + 1) with (Z.succ (Z.log2 M)) by lia. lia.
Qed.

Lemma Zdigits2_unique (M d : Z) :
  2 ^ (d - 1) <= M < 2 ^ d -> 1 <= d -> Zdigits2 M = d.
Proof.
  intros H Hd.
  assert (0 < M) by (pose proof (Z.pow_pos_nonneg 2 (d - 1)); lia).
  rewrite Zdigits2_log2 by assumption.
  rewrite (Z.log2_unique M (d - 1)); try lia.
  replace (Z.succ (d - 1)) with d by lia. exact H.
Qed.

Lemma Zdigits2_nonneg (M : Z) : 0 <= M -> 0 <= Zdigits2 M.
Proof. destruct M; simpl; lia. Qed.

Lemma Zdigits2_le (M j : Z) : 0 <= j -> 0 <= M < 2 ^ j -> Zdigits2 M <= j.
Proof.
  intros Hj H. destruct (Z.eq_dec M 0) as [->|Hn]; [simpl; lia|].
  destruct (Zdigits2_bounds M) as [Hb Hd]; [lia|].
  destruct (Z_lt_le_dec j (Zdigits2 M)) as [Hlt|]; [|lia].
  assert (2 ^ j <= 2 ^ (Zdigits2 M - 1)) by (apply Z.pow_le_mono_r; lia). lia.
Qed.

Lemma Zdigits2_ge (M j : Z) : 0 <= j -> 2 ^ j <= M -> j + 1 <= Zdigits2 M.
Proof.
  intros Hj H. assert (0 < M) by (pose proof (Z.pow_pos_nonneg 2 j); lia).
  destruct (Zdigits2_bounds M) as [Hb Hd]; [lia|].
  destruct (Z_lt_le_dec (Zdigits2 M) (j + 1)) as [Hlt|]; [|lia].
  assert (2 ^ Zdigits2 M <= 2 ^ j) by (apply Z.pow_le_mono_r; lia). lia.
Qed.

(** *** Iterated right shifts *)

Lemma iter_pos_nat {A : Type} (f : A -> A) (p : positive) (x : A) :
  iter_pos f p x = Nat.iter (Pos.to_nat p) f x.
Proof.
  revert x. induction p as [p IH|p IH|]; intros x; simpl iter_pos.
  - rewrite !IH, Pos2Nat.inj_xI, Nat.iter_succ_r.
    replace (2 * Pos.to_nat p)%nat with (Pos.to_nat p + Pos.to_nat p)%nat by lia.
    now rewrite Nat.iter_add.
  - rewrite !IH, Pos2Nat.inj_xO.
    replace (2 * Pos.to_nat p)%nat with (Pos.to_nat p + Pos.to_nat p)%nat by lia.
    now rewrite Nat.iter_add.
  - reflexivity.
Qed.

Lemma shr_1_nonneg (m : Z) (r s : bool) :
  0 <= m ->
  shr_1 (Build_shr_record m r s) = Build_shr_record (m / 2) (Z.odd m) (r || s).
Proof.
  intros H. rewrite <- Z.div2_div.
  destruct m as [|[p|p|]|p]; try lia; reflexivity.
Qed.

Lemma mod_pow2_succ (m n : Z) :
  0 <= n ->
  m mod 2 ^ (n + 1) = m mod 2 ^ n + 2 ^ n * (if Z.odd (m / 2 ^ n) then 1 else 0).
Proof.
  intros Hn. rewrite Z.pow_add_r by lia. change (2 ^ 1) with 2.
  rewrite Z.rem_mul_r by (try apply Z.pow_nonzero; lia).
  now rewrite Zmod_odd.
Qed.

Lemma shr_iter (n : nat) (m : Z) (r s : bool) :
  0 <= m ->
  Nat.iter (S n) shr_1 (Build_shr_record m r s) =
  Build_shr_record (m / 2 ^ Z.of_nat (S n)) (Z.odd (m / 2 ^ Z.of_nat n))
    (sticky m (Z.of_nat n) || (r || s)).
Proof.
  intros Hm. induction n as [|n IH].
  - change (Nat.iter 1 shr_1 ?x) with (shr_1 x). rewrite shr_1_nonneg by exact Hm.
    change (2 ^ Z.of_nat 1) with 2. change (2 ^ Z.of_nat 0) with 1.
    unfold sticky. change (2 ^ Z.of_nat 0) with 1.
    rewrite Z.div_1_r, Z.mod_1_r. reflexivity.
  - change (Nat.iter (S (S n)) shr_1 ?x) with (shr_1 (Nat.iter (S n) shr_1 x)).
    rewrite IH. rewrite shr_1_nonneg by (apply Z.div_pos; [lia|apply Z.pow_pos_nonneg; lia]).
    f_equal.
    + rewrite Z.div_div by (try apply Z.pow_pos_nonneg; try apply Z.pow_nonzero; lia).
      f_equal. rewrite (Nat2Z.inj_succ (S n)). rewrite Z.pow_succ_r by lia. lia.
    + unfold sticky. rewrite (Nat2Z.inj_succ n).
      replace (Z.succ (Z.of_nat n)) with (Z.of_nat n + 1) by lia.
      rewrite (mod_pow2_succ m (Z.of_nat n)) by lia.
      pose proof (Z.mod_pos_bound m (2 ^ Z.of_nat n) ltac:(apply Z.pow_pos_nonneg; lia)).
      pose proof (Z.pow_pos_nonneg 2 (Z.of_nat n) ltac:(lia) ltac:(lia)).
      destruct (Z.odd (m / 2 ^ Z.of_nat n)); simpl.
      * destruct (m mod 2 ^ Z.of_nat n + 2 ^ Z.of_nat n * 1 =? 0) eqn:E; [lia|].
        simpl. reflexivity.
      * rewrite Z.mul_0_r, Z.add_0_r. reflexivity.
Qed.

Lemma rne_bounds (M k : Z) :
  0 <= M -> M / 2 ^ Z.max 0 k <= rne M k <= M / 2 ^ Z.max 0 k + 1.
Proof.
  intros H. unfold rne. destruct (k <=? 0) eqn:E.
  - rewrite Z.max_l by lia. change (2 ^ 0) with 1. rewrite Z.div_1_r. lia.
  - rewrite Z.max_r by lia.
    destruct ((2 ^ k <? 2 * (M mod 2 ^ k)) || _); lia.
Qed.

Lemma rne_exact (M k : Z) :
  0 <= M -> M mod 2 ^ Z.max 0 k = 0 -> rne M k = M / 2 ^ Z.max 0 k.
Proof.
  intros H Hr. unfold rne. destruct (k <=? 0) eqn:E.
  - rewrite Z.max_l by lia. change (2 ^ 0) with 1. now rewrite Z.div_1_r.
  - rewrite Z.max_r in * by lia. rewrite Hr.
    pose proof (Z.pow_pos_nonneg 2 k ltac:(lia) ltac:(lia)).
    destruct (2 ^ k <? 2 * 0) eqn:E1; [lia|].
    destruct (2 * 0 =? 2 ^ k) eqn:E2; [lia|]. reflexivity.
Qed.

Lemma round_nearest_even_bounds (m : Z) (l : location) :
  m <= round_nearest_even m l <= m + 1.
Proof.
  destruct l as [|[ | | ]]; simpl; try lia. destruct (Z.even m); lia.
Qed.

Lemma shr_fexp_any (M E : Z) (l : location) :
  0 <= M ->
  exists mrs,
    shr_fexp prec emax M E l =
      (mrs, E + Z.max 0 (fexp prec emax (Zdigits2 M + E) - E)) /\
    shr_m mrs = M / 2 ^ Z.max 0 (fexp prec emax (Zdigits2 M + E) - E).
Proof.
  intros HM. unfold shr_fexp.
  set (k := fexp prec emax (Zdigits2 M + E) - E).
  destruct k as [|p|p] eqn:Ek.
  - change (Z.max 0 0) with 0. change (2 ^ 0) with 1. rewrite Z.div_1_r, Z.add_0_r.
    eexists; split; [reflexivity|]. destruct l as [|[ | | ]]; reflexivity.
  - unfold shr. rewrite iter_pos_nat.
    destruct (Pos2Nat.is_succ p) as [n Hn]. rewrite Hn.
    assert (Hp : Z.pos p = Z.of_nat (S n)) by lia.
    rewrite Z.max_r by lia.
    destruct l as [|[ | | ]]; simpl shr_record_of_loc; rewrite shr_iter by exact HM;
      (eexists; split; [reflexivity|]); simpl shr_m; now rewrite Hp.
  - rewrite Z.max_l by lia. change (2 ^ 0) with 1. rewrite Z.div_1_r, Z.add_0_r.
    eexists; split; [reflexivity|]. destruct l as [|[ | | ]]; reflexivity.
Qed.

Lemma shr_fexp_exact (M E : Z) :
  0 <= M ->
  exists mrs,
    shr_fexp prec emax M E loc_Exact =
      (mrs, E + Z.max 0 (fexp prec emax (Zdigits2 M + E) - E)) /\
    round_nearest_even (shr_m mrs) (loc_of_shr_record mrs) =
      rne M (fexp prec emax (Zdigits2 M + E) - E).
Proof.
  intros HM. unfold shr_fexp.
  set (k := fexp prec emax (Zdigits2 M + E) - E).
  unfold rne. destruct k as [|p|p] eqn:Ek.
  - change (Z.max 0 0) with 0. rewrite Z.add_0_r.
    eexists; split; [reflexivity|]. reflexivity.
  - unfold shr. rewrite iter_pos_nat.
    destruct (Pos2Nat.is_succ p) as [n Hn]. rewrite Hn.
    assert (Hp : Z.pos p = Z.of_nat n + 1) by lia.
    rewrite Z.max_r by lia.
    simpl shr_record_of_loc. rewrite shr_iter by exact HM.
    eexists; split; [reflexivity|].
    replace (Z.of_nat (S n)) with (Z.pos p) by lia.
    destruct (Z.pos p <=? 0) eqn:E0; [lia|].
    rewrite Hp. rewrite (mod_pow2_succ M (Z.of_nat n)) by lia.
    set (N := Z.of_nat n). assert (0 <= N) by (unfold N; lia).
    pose proof (Z.mod_pos_bound M (2 ^ N) ltac:(apply Z.pow_pos_nonneg; lia)) as Hb.
    pose proof (Z.pow_pos_nonneg 2 N ltac:(lia) ltac:(lia)) as Hpos.
    rewrite (Z.pow_add_r 2 N 1) by lia. change (2 ^ 1) with 2.
    unfold sticky. fold N. rewrite !orb_false_r.
    simpl shr_m.
    destruct (Z.odd (M / 2 ^ N)) eqn:Ho.
    + destruct (M mod 2 ^ N =? 0) eqn:Ez; simpl negb; simpl loc_of_shr_record;
        simpl round_nearest_even.
      * destruct (2 ^ N * 2 <? 2 * (M mod 2 ^ N + 2 ^ N * 1)) eqn:E1; [lia|].
        destruct (2 * (M mod 2 ^ N + 2 ^ N * 1) =? 2 ^ N * 2) eqn:E2; [|lia].
        simpl. rewrite <- Z.negb_odd. destruct (Z.odd (M / (2 ^ N * 2))); reflexivity.
      * destruct (2 ^ N * 2 <? 2 * (M mod 2 ^ N + 2 ^ N * 1)) eqn:E1; [|lia].
        reflexivity.
    + destruct (2 ^ N * 2 <? 2 * (M mod 2 ^ N + 2 ^ N * 0)) eqn:E1; [lia|].
      destruct (2 * (M mod 2 ^ N + 2 ^ N * 0) =? 2 ^ N * 2) eqn:E2; [lia|].
      simpl. destruct (negb (M mod 2 ^ N =? 0)); reflexivity.
  - rewrite Z.max_l by lia. rewrite Z.add_0_r.
    eexists; split; [reflexivity|]. reflexivity.
Qed.

Lemma finish_spec (s : bool) (q e : Z) (l : location) :
  0 <= q ->
  (let '(mrs, e') := shr_fexp prec emax q e l in
   match shr_m mrs with
   | Z0 => S754_zero s
   | Zpos m => if e' <=? emax - prec then S754_finite s m e' else S754_infinity s
   | Zneg _ => S754_nan
   end) = finish s q e.
Proof.
  intros Hq. destruct (shr_fexp_any q e l Hq) as (mrs & -> & Hm).
  rewrite Hm. reflexivity.
Qed.

Lemma binary_round_aux_any (s : bool) (M E : Z) (l : location) :
  0 <= M ->
  let K := Z.max 0 (fexp prec emax (Zdigits2 M + E) - E) in
  exists q, M / 2 ^ K <= q <= M / 2 ^ K + 1 /\
    binary_round_aux prec emax s M E l = finish s q (E + K).
Proof.
  intros HM K. unfold binary_round_aux.
  destruct (shr_fexp_any M E l HM) as (mrs & -> & Hm). fold K in Hm |- *.
  exists (round_nearest_even (shr_m mrs) (loc_of_shr_record mrs)).
  pose proof (round_nearest_even_bounds (shr_m mrs) (loc_of_shr_record mrs)) as Hb.
  split; [rewrite <- Hm; exact Hb|].
  apply (finish_spec s _ _ loc_Exact).
  assert (0 <= M / 2 ^ K) by (apply Z.div_pos; [lia|apply Z.pow_pos_nonneg; lia]).
  lia.
Qed.

Lemma binary_round_aux_exact (s : bool) (M E : Z) :
  0 <= M ->
  let k := fexp prec emax (Zdigits2 M + E) - E in
  binary_round_aux prec emax s M E loc_Exact = finish s (rne M k) (E + Z.max 0 k).
Proof.
  intros HM k. unfold binary_round_aux.
  destruct (shr_fexp_exact M E HM) as (mrs & -> & Hm). fold k in Hm |- *.
  rewrite Hm. apply (finish_spec s _ _ loc_Exact).
  pose proof (rne_bounds M k HM).
  assert (0 <= M / 2 ^ Z.max 0 k) by (apply Z.div_pos; [lia|apply Z.pow_pos_nonneg; lia]).
  lia.
Qed.

Lemma pow2_pos (n : Z) : 0 <= n -> 0 < 2 ^ n.
Proof. intros. apply Z.pow_pos_nonneg; lia. Qed.

Lemma pow2_le (a b : Z) : 0 <= a <= b -> 2 ^ a <= 2 ^ b.
Proof. intros. apply Z.pow_le_mono_r; lia. Qed.

Lemma pow2_lt (a b : Z) : 0 <= a < b -> 2 ^ a < 2 ^ b.
Proof. intros. apply Z.pow_lt_mono_r; lia. Qed.

Lemma pow2_split (a b : Z) : 0 <= a <= b -> 2 ^ b = 2 ^ a * 2 ^ (b - a).
Proof. intros. rewrite <- Z.pow_add_r by lia. f_equal. lia. Qed.

Lemma valid_finite (s : bool) (m : positive) (e : Z) :
  valid (S754_finite s m e) = true ->
  -1074 <= e <= 971 /\ Z.pos m < 2 ^ 53 /\ (e = -1074 \/ 2 ^ 52 <= Z.pos m) /\
  fexp prec emax (Zdigits2 (Z.pos m) + e) = e.
Proof.
  unfold valid_binary, bounded, canonical_mantissa. intros H.
  apply andb_true_iff in H. destruct H as [Hc He].
  apply Z.eqb_eq in Hc. apply Z.leb_le in He.
  change (Z.pos (digits2_pos m)) with (Zdigits2 (Z.pos m)) in Hc.
  pose proof Hc as Hc'. rewrite fexp_eq in Hc.
  destruct (Zdigits2_bounds (Z.pos m) ltac:(lia)) as [Hb Hd].
  unfold emax, prec in He.
  assert (Hd53 : Zdigits2 (Z.pos m) <= 53) by lia.
  split; [lia|]. split; [|split; [|exact Hc']].
  - assert (2 ^ Zdigits2 (Z.pos m) <= 2 ^ 53) by (apply pow2_le; lia). lia.
  - destruct (Z.eq_dec e (-1074)) as [|Hne]; [now left|right].
    assert (Zdigits2 (Z.pos m) = 53) by lia.
    replace 52 with (Zdigits2 (Z.pos m) - 1) by lia. lia.
Qed.

Lemma grid_pos (m : positive) (e : Z) : -1074 <= e -> 0 < grid m e.
Proof. intros. unfold grid. pose proof (pow2_pos (e + 1074)). nia. Qed.

Lemma grid_lt_exp (m1 m2 : positive) (e1 e2 : Z) :
  valid (S754_finite false m1 e1) = true ->
  valid (S754_finite false m2 e2) = true ->
  e1 < e2 -> grid m1 e1 < grid m2 e2.
Proof.
  intros H1 H2 Hlt.
  apply valid_finite in H1, H2.
  destruct H1 as (He1 & Hm1 & _), H2 as (He2 & _ & [?|Hm2] & _); [exfalso; lia|].
  unfold grid. rewrite (pow2_split (e1 + 1074) (e2 + 1074)) by lia.
  pose proof (pow2_pos (e1 + 1074) ltac:(lia)).
  assert (2 ^ 1 <= 2 ^ (e2 + 1074 - (e1 + 1074))) by (apply pow2_le; lia).
  change (2 ^ 1) with 2 in *. change (2 ^ 53) with (2 ^ 52 * 2) in Hm1.
  set (A := 2 ^ (e1 + 1074)) in *. set (P := 2 ^ (e2 + 1074 - (e1 + 1074))) in *.
  set (T := 2 ^ 52) in *.
  assert (Z.pos m1 * A < T * 2 * A) by (apply Z.mul_lt_mono_pos_r; lia).
  assert (T * 2 * A <= Z.pos m2 * 2 * A) by (apply Z.mul_le_mono_nonneg_r; lia).
  assert (Z.pos m2 * A * 2 <= Z.pos m2 * A * P) by (apply Z.mul_le_mono_nonneg_l; lia).
  lia.
Qed.

Lemma grid_compare (m1 m2 : positive) (e1 e2 : Z) :
  valid (S754_finite false m1 e1) = true ->
  valid (S754_finite false m2 e2) = true ->
  match e1 ?= e2 with
  | Lt => Lt
  | Gt => Gt
  | Eq => Pos.compare_cont Eq m1 m2
  end = (grid m1 e1 ?= grid m2 e2).
Proof.
  intros H1 H2. destruct (Z.compare_spec e1 e2) as [->|Hlt|Hgt].
  - change (Pos.compare_cont Eq m1 m2) with (Z.pos m1 ?= Z.pos m2).
    unfold grid. apply valid_finite in H2.
    pose proof (pow2_pos (e2 + 1074) ltac:(lia)).
    destruct (Z.compare_spec (Z.pos m1) (Z.pos m2)) as [E|E|E]; symmetry.
    + apply Z.compare_eq_iff. now rewrite E.
    + apply Z.compare_lt_iff. nia.
    + apply Z.compare_gt_iff. nia.
  - symmetry. apply Z.compare_lt_iff. now apply grid_lt_exp.
  - symmetry. apply Z.compare_gt_iff. now apply grid_lt_exp.
Qed.

Lemma valid_sign (s s' : bool) (m : positive) (e : Z) :
  valid (S754_finite s m e) = valid (S754_finite s' m e).
Proof. reflexivity. Qed.

Lemma SFcompare_gval (x y : spec_float) :
  valid x = true -> valid y = true -> is_fin x = true -> is_fin y = true ->
  SFcompare x y = Some (gval x ?= gval y).
Proof.
  intros Hx Hy Fx Fy.
  destruct x as [sx|sx| |sx mx ex], y as [sy|sy| |sy my ey]; try discriminate.
  - reflexivity.
  - pose proof (grid_pos my ey ltac:(apply valid_finite in Hy; lia)).
    cbn [SFcompare gval]. destruct sy; cbn [cond_Zopp]; f_equal; symmetry.
    + apply Z.compare_gt_iff. lia.
    + apply Z.compare_lt_iff. lia.
  - pose proof (grid_pos mx ex ltac:(apply valid_finite in Hx; lia)).
    cbn [SFcompare gval]. destruct sx; cbn [cond_Zopp]; f_equal; symmetry.
    + apply Z.compare_lt_iff. lia.
    + apply Z.compare_gt_iff. lia.
  - pose proof (grid_pos mx ex ltac:(apply valid_finite in Hx; lia)).
    pose proof (grid_pos my ey ltac:(apply valid_finite in Hy; lia)).
    cbn [SFcompare gval]. destruct sx, sy; cbn [cond_Zopp]; f_equal.
    + rewrite Z.compare_opp, (Z.compare_antisym (grid mx ex) (grid my ey)).
      rewrite <- (grid_compare mx my ex ey Hx Hy).
      destruct (ex ?= ey); reflexivity.
    + symmetry. apply Z.compare_lt_iff. lia.
    + symmetry. apply Z.compare_gt_iff. lia.
    + apply (grid_compare mx my ex ey Hx Hy).
Qed.

Lemma gval_inj (x y : spec_float) :
  valid x = true -> valid y = true ->
  match x, y with
  | S754_finite sx mx ex, S754_finite sy my ey =>
      gval x = gval y -> x = y
  | _, _ => True
  end.
Proof.
  intros Hx Hy. destruct x as [sx|sx| |sx mx ex], y as [sy|sy| |sy my ey]; try exact I.
  intros E.
  pose proof (grid_pos mx ex ltac:(apply valid_finite in Hx; lia)).
  pose proof (grid_pos my ey ltac:(apply valid_finite in Hy; lia)).
  assert (sx = sy) as <- by (destruct sx, sy; simpl in E; try reflexivity; lia).
  assert (E' : grid mx ex = grid my ey) by (destruct sx; simpl in E; lia).
  rewrite (valid_sign sx false) in Hx. rewrite (valid_sign sx false) in Hy.
  pose proof (grid_compare mx my ex ey Hx Hy) as Hc.
  rewrite E', Z.compare_refl in Hc.
  destruct (Z.compare_spec ex ey) as [->|?|?]; try discriminate.
  apply Pcompare_Eq_eq in Hc. now subst.
Qed.

(** *** Rounding on the grid of multiples of [2^-1074] *)

Lemma rne_nonneg (M k : Z) : 0 <= M -> 0 <= rne M k.
Proof.
  intros H. pose proof (rne_bounds M k H).
  assert (0 <= M / 2 ^ Z.max 0 k) by (apply Z.div_pos; [lia|apply pow2_pos; lia]).
  lia.
Qed.

Lemma div_pow2_bounds (N d k : Z) :
  0 <= k < d -> 2 ^ (d - 1) <= N < 2 ^ d ->
  2 ^ (d - 1 - k) <= N / 2 ^ k < 2 ^ (d - k).
Proof.
  intros Hk HN. pose proof (pow2_pos k ltac:(lia)).
  split.
  - apply Z.div_le_lower_bound; [lia|].
    rewrite <- Z.pow_add_r by lia. replace (k + (d - 1 - k)) with (d - 1) by lia. lia.
  - apply Z.div_lt_upper_bound; [lia|].
    rewrite <- Z.pow_add_r by lia. replace (k + (d - k)) with d by lia. lia.
Qed.

Lemma rnd_small (N : Z) : 0 < N -> Zdigits2 N <= 53 -> rnd N = N.
Proof.
  intros HN Hd. unfold rnd, rnd_shift. rewrite Z.max_l by lia.
  unfold rne. simpl. lia.
Qed.

Lemma rnd_large (N : Z) :
  0 < N -> 53 < Zdigits2 N ->
  let k := Zdigits2 N - 53 in
  rnd N = rne N k * 2 ^ k /\ 2 ^ 52 <= rne N k <= 2 ^ 53 /\
  N / 2 ^ k <= rne N k <= N / 2 ^ k + 1.
Proof.
  intros HN Hd k. unfold rnd, rnd_shift. rewrite Z.max_r by lia. fold k.
  split; [reflexivity|].
  destruct (Zdigits2_bounds N HN) as [Hb _].
  pose proof (div_pow2_bounds N (Zdigits2 N) k ltac:(lia) Hb) as Hq.
  replace (Zdigits2 N - 1 - k) with 52 in Hq by lia.
  replace (Zdigits2 N - k) with 53 in Hq by lia.
  pose proof (rne_bounds N k ltac:(lia)) as Hr. rewrite Z.max_r in Hr by lia.
  lia.
Qed.

Lemma rnd_bounds (N : Z) :
  0 < N -> 2 ^ (Zdigits2 N - 1) <= rnd N <= 2 ^ Zdigits2 N.
Proof.
  intros HN. destruct (Zdigits2_bounds N HN) as [Hb Hd1].
  destruct (Z_le_gt_dec (Zdigits2 N) 53) as [Hd|Hd].
  - rewrite rnd_small by assumption. lia.
  - destruct (rnd_large N HN ltac:(lia)) as (-> & Hq & _).
    remember (Zdigits2 N - 53) as k eqn:Ek.
    assert (Ed : Zdigits2 N = 53 + k) by lia. rewrite Ed.
    pose proof (pow2_pos k ltac:(lia)).
    replace (53 + k - 1) with (52 + k) by lia.
    rewrite !Z.pow_add_r by lia.
    split; apply Z.mul_le_mono_nonneg_r; lia.
Qed.

Lemma Zdigits2_mono (a b : Z) : 0 < a <= b -> Zdigits2 a <= Zdigits2 b.
Proof.
  intros H. rewrite !Zdigits2_log2 by lia.
  pose proof (Z.log2_le_mono a b). lia.
Qed.

Lemma rne_mono (N1 N2 k : Z) :
  0 < k -> 0 <= N1 <= N2 -> rne N1 k <= rne N2 k.
Proof.
  intros Hk H. unfold rne. destruct (k <=? 0) eqn:E; [lia|].
  pose proof (pow2_pos k ltac:(lia)) as Hp.
  pose proof (Z.div_mod N1 (2 ^ k) ltac:(lia)) as D1.
  pose proof (Z.div_mod N2 (2 ^ k) ltac:(lia)) as D2.
  pose proof (Z.mod_pos_bound N1 (2 ^ k) Hp) as B1.
  pose proof (Z.mod_pos_bound N2 (2 ^ k) Hp) as B2.
  assert (Hq : N1 / 2 ^ k <= N2 / 2 ^ k) by (apply Z.div_le_mono; lia).
  set (q1 := N1 / 2 ^ k) in *. set (q2 := N2 / 2 ^ k) in *.
  set (r1 := N1 mod 2 ^ k) in *. set (r2 := N2 mod 2 ^ k) in *.
  clearbody q1 q2 r1 r2.
  destruct (Z.eq_dec q1 q2) as [Eq|Nq].
  - assert (r1 <= r2) by nia. rewrite <- Eq.
    destruct (Z.ltb_spec (2 ^ k) (2 * r1)); destruct (Z.ltb_spec (2 ^ k) (2 * r2));
      destruct (Z.eqb_spec (2 * r1) (2 ^ k)); destruct (Z.eqb_spec (2 * r2) (2 ^ k));
      destruct (Z.odd q1); cbn [orb andb]; lia.
  - destruct ((2 ^ k <? 2 * r1) || _); destruct ((2 ^ k <? 2 * r2) || _); lia.
Qed.

Lemma rnd_mono (N1 N2 : Z) : 0 < N1 <= N2 -> rnd N1 <= rnd N2.
Proof.
  intros H.
  pose proof (Zdigits2_mono N1 N2 H) as Hd.
  destruct (Z.eq_dec (Zdigits2 N1) (Zdigits2 N2)) as [E|NE].
  - unfold rnd, rnd_shift. rewrite E.
    destruct (Z_le_gt_dec (Zdigits2 N2) 53).
    + rewrite Z.max_l by lia. unfold rne; simpl. lia.
    + rewrite Z.max_r by lia.
      pose proof (pow2_pos (Zdigits2 N2 - 53) ltac:(lia)).
      pose proof (rne_mono N1 N2 (Zdigits2 N2 - 53) ltac:(lia) ltac:(lia)). nia.
  - pose proof (rnd_bounds N1 ltac:(lia)). pose proof (rnd_bounds N2 ltac:(lia)).
    destruct (Zdigits2_bounds N1 ltac:(lia)) as [_ ?].
    assert (2 ^ Zdigits2 N1 <= 2 ^ (Zdigits2 N2 - 1)) by (apply pow2_le; lia).
    lia.
Qed.

Lemma rne_mul_pow2 (a k : Z) : 0 <= a -> 0 <= k -> rne (a * 2 ^ k) k = a.
Proof.
  intros Ha Hk. pose proof (pow2_pos k Hk).
  rewrite rne_exact; rewrite ?Z.max_r by lia.
  - apply Z.div_mul. lia.
  - nia.
  - apply Z.mod_mul. lia.
Qed.

Lemma rnd_multiple (a j : Z) :
  0 < a < 2 ^ 53 -> 0 <= j -> rnd (a * 2 ^ j) = a * 2 ^ j.
Proof.
  intros Ha Hj. pose proof (pow2_pos j Hj).
  assert (Hd : Zdigits2 (a * 2 ^ j) <= 53 + j).
  { apply Zdigits2_le; [lia|]. rewrite Z.pow_add_r by lia. nia. }
  unfold rnd, rnd_shift. set (k := Z.max 0 _).
  assert (Hk : 0 <= k <= j) by lia. clearbody k.
  rewrite (pow2_split k j) by lia.
  rewrite (Z.mul_comm (2 ^ k)), Z.mul_assoc.
  pose proof (pow2_pos (j - k) ltac:(lia)).
  rewrite rne_mul_pow2; nia.
Qed.

Lemma rnd_pow2 (j : Z) : 0 <= j -> rnd (2 ^ j) = 2 ^ j.
Proof.
  intros Hj. rewrite <- (Z.mul_1_l (2 ^ j)). apply rnd_multiple; lia.
Qed.

Lemma rnd_grid (m : positive) (e : Z) :
  valid (S754_finite false m e) = true -> rnd (grid m e) = grid m e.
Proof.
  intros H. apply valid_finite in H. destruct H as (He & Hm & Hn & _).
  apply rnd_multiple; lia.
Qed.

Lemma Zdigits2_mul_pow2 (M j : Z) :
  0 < M -> 0 <= j -> Zdigits2 (M * 2 ^ j) = Zdigits2 M + j.
Proof.
  intros HM Hj. pose proof (pow2_pos j Hj).
  rewrite !Zdigits2_log2 by nia. rewrite Z.log2_mul_pow2 by lia. lia.
Qed.

Lemma rne_max (M k : Z) : rne M k = rne M (Z.max 0 k).
Proof.
  unfold rne. destruct (Z.leb_spec k 0).
  - rewrite Z.max_l by lia. reflexivity.
  - rewrite Z.max_r by lia. destruct (Z.leb_spec k 0); [lia|reflexivity].
Qed.

Lemma rne_0 (M : Z) : rne M 0 = M.
Proof. reflexivity. Qed.

Lemma rne_scale (M j k : Z) :
  0 <= M -> 0 <= j -> 0 <= k -> rne (M * 2 ^ j) (k + j) = rne M k.
Proof.
  intros HM Hj Hk. destruct (Z.eq_dec k 0) as [->|Hk0].
  - rewrite rne_0. apply rne_mul_pow2; lia.
  - unfold rne. destruct (Z.leb_spec (k + j) 0); [lia|].
    destruct (Z.leb_spec k 0); [lia|].
    pose proof (pow2_pos j Hj). pose proof (pow2_pos k Hk).
    rewrite Z.pow_add_r by lia.
    rewrite Z.div_mul_cancel_r by lia.
    rewrite Z.mul_mod_distr_r by lia.
    set (q := M / 2 ^ k). set (r := M mod 2 ^ k). set (A := 2 ^ k) in *.
    set (J := 2 ^ j) in *. clearbody q r A J.
    replace (A * J <? 2 * (r * J)) with (A <? 2 * r)
      by (destruct (Z.ltb_spec A (2 * r)); destruct (Z.ltb_spec (A * J) (2 * (r * J))); try reflexivity; nia).
    replace (2 * (r * J) =? A * J) with (2 * r =? A)
      by (destruct (Z.eqb_spec (2 * r) A); destruct (Z.eqb_spec (2 * (r * J)) (A * J)); try reflexivity; nia).
    reflexivity.
Qed.

Lemma rne_le (M k B : Z) :
  0 <= M -> 0 <= k -> M <= B * 2 ^ k -> rne M k <= B.
Proof.
  intros HM Hk H. destruct (Z.eq_dec k 0) as [->|Hk0].
  - rewrite rne_0. change (2 ^ 0) with 1 in H. lia.
  - unfold rne. destruct (Z.leb_spec k 0); [lia|].
    pose proof (pow2_pos k Hk) as Hp.
    pose proof (Z.div_mod M (2 ^ k) ltac:(lia)) as D.
    pose proof (Z.mod_pos_bound M (2 ^ k) Hp) as Bd.
    set (q := M / 2 ^ k) in *. set (r := M mod 2 ^ k) in *. set (A := 2 ^ k) in *.
    clearbody q r A.
    assert (q <= B) by nia.
    destruct (Z.eq_dec q B) as [->|].
    + assert (r = 0) by nia. subst r.
      destruct (Z.ltb_spec A (2 * 0)); [lia|].
      destruct (Z.eqb_spec (2 * 0) A); [lia|]. cbn [orb andb]. lia.
    + destruct ((A <? 2 * r) || _); lia.
Qed.

(** *** The result of [finish] *)

Lemma finish_canon (s : bool) (q : positive) (e : Z) :
  fexp prec emax (Zdigits2 (Z.pos q) + e) <= e ->
  finish s (Z.pos q) e =
  if e <=? 971 then S754_finite s q e else S754_infinity s.
Proof.
  intros H. unfold finish. rewrite Z.max_l by lia.
  change (2 ^ 0) with 1. rewrite Z.div_1_r, Z.add_0_r. reflexivity.
Qed.

Lemma finish_carry (s : bool) (e : Z) :
  -1074 <= e ->
  finish s (2 ^ 53) e =
  if e + 1 <=? 971 then S754_finite s 4503599627370496 (e + 1)
  else S754_infinity s.
Proof.
  intros H. unfold finish.
  change (Zdigits2 (2 ^ 53)) with 54. rewrite fexp_eq.
  rewrite (Z.max_l (54 + e - 53)) by lia.
  replace (Z.max 0 (54 + e - 53 - e)) with 1 by lia. reflexivity.
Qed.

Lemma finish_rounded (s : bool) (N : Z) :
  0 < N ->
  rounded s N (finish s (rne N (rnd_shift N)) (rnd_shift N - 1074)).
Proof.
  intros HN. destruct (Zdigits2_bounds N HN) as [Hb Hd1].
  destruct (Z_le_gt_dec (Zdigits2 N) 53) as [Hd|Hd].
  - assert (Hk : rnd_shift N = 0) by (unfold rnd_shift; lia).
    pose proof (rnd_small N HN Hd) as Hr.
    rewrite Hk, rne_0. destruct N as [|p|p]; try lia.
    rewrite finish_canon by (rewrite fexp_eq; lia).
    right. exists p, (-1074). split; [reflexivity|].
    rewrite Hr. unfold grid. change (2 ^ (-1074 + 1074)) with 1.
    split; [lia|].
    assert (2 ^ Zdigits2 (Z.pos p) <= 2 ^ 53) by (apply pow2_le; lia).
    assert (2 ^ 53 < 2 ^ 2098) by (apply pow2_lt; lia). lia.
  - destruct (rnd_large N HN ltac:(lia)) as (Hr & Hq & _).
    assert (Hk : rnd_shift N = Zdigits2 N - 53) by (unfold rnd_shift; lia).
    rewrite <- Hk in Hr, Hq. unfold rounded. rewrite Hr.
    set (k := rnd_shift N) in *. assert (0 < k) by lia. clearbody k.
    set (q := rne N k) in *. clearbody q.
    pose proof (pow2_pos k ltac:(lia)) as Hp.
    destruct (Z.eq_dec q (2 ^ 53)) as [->|Hne].
    + rewrite finish_carry by lia.
      destruct (Z.leb_spec (k - 1074 + 1) 971).
      * right. do 2 eexists. split; [reflexivity|]. unfold grid.
        replace (k - 1074 + 1 + 1074) with (1 + k) by lia.
        rewrite Z.pow_add_r by lia. split; [change (2 ^ 1) with 2; lia|].
        rewrite <- Z.pow_add_r by lia. apply pow2_lt; lia.
      * left. split; [reflexivity|]. rewrite <- Z.pow_add_r by lia.
        apply pow2_le; lia.
    + assert (Hdq : Zdigits2 q = 53) by (apply Zdigits2_unique; simpl; lia).
      destruct q as [|p|p]; try lia.
      rewrite finish_canon by (rewrite Hdq, fexp_eq; lia).
      destruct (Z.leb_spec (k - 1074) 971).
      * right. do 2 eexists. split; [reflexivity|]. unfold grid.
        replace (k - 1074 + 1074) with k by lia. split; [reflexivity|].
        apply Z.lt_le_trans with (2 ^ 53 * 2 ^ k).
        { apply Z.mul_lt_mono_pos_r; lia. }
        rewrite <- Z.pow_add_r by lia. apply pow2_le; lia.
      * left. split; [reflexivity|].
        apply Z.le_trans with (2 ^ 52 * 2 ^ k).
        { rewrite <- Z.pow_add_r by lia. apply pow2_le; lia. }
        apply Z.mul_le_mono_nonneg_r; lia.
Qed.

(** *** [binary_round] *)

Lemma iter_xO (m d : positive) :
  Z.pos (Pos.iter xO m d) = Z.pos m * 2 ^ Z.pos d.
Proof.
  induction d as [|d IH] using Pos.peano_ind.
  - change (Pos.iter xO m 1) with (m~0)%positive. change (2 ^ 1) with 2. lia.
  - rewrite Pos.iter_succ, Pos2Z.inj_succ, Z.pow_succ_r by lia.
    rewrite Pos2Z.inj_xO, IH. lia.
Qed.

Lemma shl_align_spec (m : positive) (e e' : Z) :
  snd (shl_align m e e') = Z.min e e' /\
  Z.pos (fst (shl_align m e e')) = Z.pos m * 2 ^ (e - Z.min e e').
Proof.
  unfold shl_align. destruct (e' - e) as [|p|p] eqn:E; cbn [fst snd].
  - rewrite Z.min_l by lia. rewrite Z.sub_diag. split; lia.
  - rewrite Z.min_l by lia. rewrite Z.sub_diag. split; lia.
  - rewrite Z.min_r by lia. split; [reflexivity|].
    rewrite iter_xO. f_equal. f_equal. lia.
Qed.

Lemma binary_round_rounded (s : bool) (m : positive) (e : Z) :
  -1074 <= e -> rounded s (grid m e) (binary_round prec emax s m e).
Proof.
  intros He. unfold binary_round.
  set (ec := fexp prec emax (Z.pos (digits2_pos m) + e)).
  destruct (shl_align_spec m e ec) as [Hez Hmz].
  destruct (shl_align m e ec) as [mz ez]. cbn [fst snd] in Hez, Hmz.
  change (Z.pos (digits2_pos m)) with (Zdigits2 (Z.pos m)) in ec.
  assert (Hec : ec = Z.max (Zdigits2 (Z.pos m) + e - 53) (-1074))
    by (unfold ec; apply fexp_eq).
  rewrite binary_round_aux_exact by lia.
  assert (Hd : Zdigits2 (Z.pos mz) + ez = Zdigits2 (Z.pos m) + e).
  { rewrite Hmz, Zdigits2_mul_pow2 by lia. lia. }
  rewrite Hd. fold ec.
  assert (HN : grid m e = Z.pos mz * 2 ^ (ez + 1074)).
  { unfold grid. rewrite Hmz, <- Z.mul_assoc, <- Z.pow_add_r by lia.
    f_equal. f_equal. lia. }
  assert (Hk : rnd_shift (grid m e) = ec + 1074).
  { unfold rnd_shift. rewrite HN, Zdigits2_mul_pow2 by lia. lia. }
  pose proof (finish_rounded s (grid m e) (grid_pos m e He)) as HR.
  rewrite Hk in HR.
  replace (ec + 1074 - 1074) with ec in HR by lia.
  replace (ez + Z.max 0 (ec - ez)) with ec by lia.
  replace (rne (grid m e) (ec + 1074)) with (rne (Z.pos mz) (ec - ez)) in HR.
  - exact HR.
  - rewrite HN. replace (ec + 1074) with ((ec - ez) + (ez + 1074)) by lia.
    symmetry. apply rne_scale; lia.
Qed.

Lemma grid_lt_max (m : positive) (e : Z) :
  valid (S754_finite false m e) = true -> grid m e < 2 ^ 2098.
Proof.
  intros H. apply valid_finite in H. destruct H as (He & Hm & _).
  unfold grid. pose proof (pow2_pos (e + 1074) ltac:(lia)).
  apply Z.lt_le_trans with (2 ^ 53 * 2 ^ (e + 1074)).
  - apply Z.mul_lt_mono_pos_r; lia.
  - rewrite <- Z.pow_add_r by lia. apply pow2_le; lia.
Qed.

Lemma rounded_valid (s : bool) (m : positive) (e : Z) :
  valid (S754_finite false m e) = true ->
  rounded s (grid m e) (S754_finite s m e).
Proof.
  intros H. right. exists m, e. rewrite (rnd_grid m e H).
  split; [reflexivity|]. split; [reflexivity|]. now apply grid_lt_max.
Qed.

(** *** Subtraction *)

Lemma SFsub_finite (sx sy : bool) (mx my : positive) (ex ey : Z) :
  -1074 <= ex -> -1074 <= ey ->
  let D := gval (S754_finite sx mx ex) - gval (S754_finite sy my ey) in
  (D = 0 ->
   SFsub prec emax (S754_finite sx mx ex) (S754_finite sy my ey) =
   S754_zero false) /\
  (D <> 0 ->
   rounded (D <? 0) (Z.abs D)
     (SFsub prec emax (S754_finite sx mx ex) (S754_finite sy my ey))).
Proof.
  intros Hex Hey D. cbn [SFsub].
  set (ez := Z.min ex ey).
  destruct (shl_align_spec mx ex ez) as [_ Hx].
  destruct (shl_align_spec my ey ez) as [_ Hy].
  rewrite (Z.min_r ex ez) in Hx by lia. rewrite (Z.min_r ey ez) in Hy by lia.
  set (X := Z.pos (fst (shl_align mx ex ez))) in *.
  set (Y := Z.pos (fst (shl_align my ey ez))) in *.
  set (d := cond_Zopp sx X - cond_Zopp sy Y).
  assert (Hd : D = d * 2 ^ (ez + 1074)).
  { unfold D, d, gval, grid.
    assert (Ex : Z.pos mx * 2 ^ (ex + 1074) = X * 2 ^ (ez + 1074)).
    { rewrite Hx, <- Z.mul_assoc, <- Z.pow_add_r by lia. f_equal. f_equal. lia. }
    assert (Ey : Z.pos my * 2 ^ (ey + 1074) = Y * 2 ^ (ez + 1074)).
    { rewrite Hy, <- Z.mul_assoc, <- Z.pow_add_r by lia. f_equal. f_equal. lia. }
    rewrite Ex, Ey. destruct sx, sy; cbn [cond_Zopp]; lia. }
  pose proof (pow2_pos (ez + 1074) ltac:(lia)) as Hp.
  clearbody d. unfold binary_normalize.
  destruct d as [|p|p].
  - split.
    + reflexivity.
    + intros HD. lia.
  - assert (0 < D) by lia. split.
    + intros HD. lia.
    + intros _. destruct (Z.ltb_spec D 0); [lia|].
      rewrite Z.abs_eq by lia. rewrite Hd.
      apply (binary_round_rounded false p ez). lia.
  - assert (D < 0) by lia. split.
    + intros HD. lia.
    + intros _. destruct (Z.ltb_spec D 0); [|lia].
      rewrite Z.abs_neq by lia. rewrite Hd.
      replace (- (Z.neg p * 2 ^ (ez + 1074))) with (grid p ez) by (unfold grid; lia).
      apply (binary_round_rounded true p ez). lia.
Qed.

Lemma SFsub_rounded (x y : spec_float) :
  valid x = true -> valid y = true -> is_fin x = true -> is_fin y = true ->
  gval x <> gval y ->
  rounded (gval x - gval y <? 0) (Z.abs (gval x - gval y)) (SFsub prec emax x y).
Proof.
  intros Hx Hy Fx Fy Hne.
  destruct x as [sx|sx| |sx mx ex], y as [sy|sy| |sy my ey]; try discriminate.
  - now elim Hne.
  - pose proof (grid_pos my ey ltac:(apply valid_finite in Hy; lia)).
    cbn [SFsub gval]. rewrite (valid_sign sy false) in Hy.
    destruct sy; cbn [cond_Zopp negb].
    + destruct (Z.ltb_spec (0 - - grid my ey) 0); [lia|].
      replace (Z.abs (0 - - grid my ey)) with (grid my ey) by lia.
      now apply rounded_valid.
    + destruct (Z.ltb_spec (0 - grid my ey) 0); [|lia].
      replace (Z.abs (0 - grid my ey)) with (grid my ey) by lia.
      now apply rounded_valid.
  - pose proof (grid_pos mx ex ltac:(apply valid_finite in Hx; lia)).
    cbn [SFsub gval]. rewrite (valid_sign sx false) in Hx.
    destruct sx; cbn [cond_Zopp].
    + destruct (Z.ltb_spec (- grid mx ex - 0) 0); [|lia].
      replace (Z.abs (- grid mx ex - 0)) with (grid mx ex) by lia.
      now apply rounded_valid.
    + destruct (Z.ltb_spec (grid mx ex - 0) 0); [lia|].
      replace (Z.abs (grid mx ex - 0)) with (grid mx ex) by lia.
      now apply rounded_valid.
  - apply SFsub_finite.
    + apply valid_finite in Hx; lia.
    + apply valid_finite in Hy; lia.
    + lia.
Qed.

Lemma SFsub_same (x y : spec_float) :
  valid x = true -> valid y = true -> is_fin x = true -> is_fin y = true ->
  gval x = gval y -> exists s, SFsub prec emax x y = S754_zero s.
Proof.
  intros Hx Hy Fx Fy E.
  destruct x as [sx|sx| |sx mx ex], y as [sy|sy| |sy my ey]; try discriminate.
  - cbn [SFsub]. destruct sx, sy; eexists; reflexivity.
  - pose proof (grid_pos my ey ltac:(apply valid_finite in Hy; lia)).
    exfalso. cbn [gval] in E. destruct sy; cbn [cond_Zopp] in E; lia.
  - pose proof (grid_pos mx ex ltac:(apply valid_finite in Hx; lia)).
    exfalso. cbn [gval] in E. destruct sx; cbn [cond_Zopp] in E; lia.
  - destruct (SFsub_finite sx sy mx my ex ey) as [H _].
    + apply valid_finite in Hx; lia.
    + apply valid_finite in Hy; lia.
    + exists false. apply H. lia.
Qed.

(** *** Upper bounds on rounded results *)

Lemma digits_below (q e C : Z) :
  0 <= q -> e <= 0 -> 0 < C < 2 ^ 53 -> q <= C * 2 ^ (- e) ->
  fexp prec emax (Zdigits2 q + e) <= 0.
Proof.
  intros Hq He HC H. rewrite fexp_eq.
  pose proof (pow2_pos (- e) ltac:(lia)).
  assert (Zdigits2 q <= 53 + - e).
  { apply Zdigits2_le; [lia|]. rewrite Z.pow_add_r by lia. nia. }
  lia.
Qed.

Lemma finish_le (s : bool) (q e C : Z) :
  0 <= q -> e <= 0 -> 0 < C < 2 ^ 53 -> q <= C * 2 ^ (- e) ->
  at_most s C (finish s q e).
Proof.
  intros Hq He HC H.
  pose proof (digits_below q e C Hq He HC H) as Hf.
  unfold finish. set (K2 := Z.max 0 (fexp prec emax (Zdigits2 q + e) - e)).
  assert (HK : 0 <= K2 /\ e + K2 <= 0) by lia. clearbody K2.
  pose proof (pow2_pos K2 ltac:(lia)) as Hp.
  assert (Hdiv : 0 <= q / 2 ^ K2 <= C * 2 ^ (- (e + K2))).
  { split; [apply Z.div_pos; lia|].
    apply Z.div_le_upper_bound; [lia|].
    rewrite (Z.mul_comm (2 ^ K2)), <- Z.mul_assoc, <- Z.pow_add_r by lia.
    replace (- (e + K2) + K2) with (- e) by lia. exact H. }
  destruct (q / 2 ^ K2) as [|m|m]; [now left| |lia].
  destruct (Z.leb_spec (e + K2) 971); [|lia].
  right. exists m, (e + K2). repeat split; lia.
Qed.

Lemma binary_round_aux_le (s : bool) (M E C : Z) :
  0 <= M -> E <= 0 -> 0 < C < 2 ^ 53 -> M <= C * 2 ^ (- E) ->
  at_most s C (binary_round_aux prec emax s M E loc_Exact).
Proof.
  intros HM HE HC H. rewrite binary_round_aux_exact by exact HM.
  pose proof (digits_below M E C HM HE HC H) as Hf.
  set (k := fexp prec emax (Zdigits2 M + E) - E) in *.
  assert (HK : 0 <= Z.max 0 k /\ E + Z.max 0 k <= 0) by lia.
  rewrite rne_max. set (K := Z.max 0 k) in *. clearbody K.
  apply finish_le; try lia.
  - apply rne_nonneg; lia.
  - apply rne_le; try lia.
    rewrite <- Z.mul_assoc, <- Z.pow_add_r by lia.
    replace (- (E + K) + K) with (- E) by lia. exact H.
Qed.

Lemma binary_round_aux_lt (s : bool) (M E C : Z) (l : location) :
  0 <= M -> E <= 0 -> 0 < C < 2 ^ 53 -> M < C * 2 ^ (- E) ->
  at_most s C (binary_round_aux prec emax s M E l).
Proof.
  intros HM HE HC H.
  destruct (binary_round_aux_any s M E l HM) as (q & Hq & ->).
  pose proof (digits_below M E C HM HE HC ltac:(lia)) as Hf.
  set (K := Z.max 0 (fexp prec emax (Zdigits2 M + E) - E)) in *.
  assert (HK : 0 <= K /\ E + K <= 0) by lia. clearbody K.
  pose proof (pow2_pos K ltac:(lia)) as Hp.
  assert (0 <= M / 2 ^ K) by (apply Z.div_pos; lia).
  apply finish_le; try lia.
  assert (M / 2 ^ K < C * 2 ^ (- (E + K))); [|lia].
  apply Z.div_lt_upper_bound; [lia|].
  rewrite (Z.mul_comm (2 ^ K)), <- Z.mul_assoc, <- Z.pow_add_r by lia.
  replace (- (E + K) + K) with (- E) by lia. exact H.
Qed.

Lemma at_most_int (s : bool) (C : Z) (m : positive) (e : Z) :
  e <= 0 -> Z.pos m <= C * 2 ^ (- e) -> 0 <= Z.shiftl (Z.pos m) e <= C.
Proof.
  intros He H. rewrite Z.shiftl_div_pow2 by lia.
  pose proof (pow2_pos (- e) ltac:(lia)).
  split; [apply Z.div_pos; lia|].
  apply Z.div_le_upper_bound; lia.
Qed.

(** *** Multiplication by 255.0 *)

Lemma SFmul_255 (m : positive) (e : Z) :
  e <= 0 -> Z.pos m <= 2 ^ (- e) ->
  at_most false 255 (SFmul prec emax SF255 (S754_finite false m e)).
Proof.
  intros He H. cbn [SFmul SF255 xorb].
  apply binary_round_aux_le; try lia.
  replace (- (-45 + e)) with (45 + - e) by lia. rewrite Z.pow_add_r by lia.
  rewrite Pos2Z.inj_mul. change (Z.pos 8972014882652160) with (255 * 2 ^ 45).
  pose proof (pow2_pos (- e) ltac:(lia)). nia.
Qed.

Lemma below_one (m : positive) (e : Z) :
  -1074 <= e -> grid m e <= 2 ^ 1074 -> e <= 0 /\ Z.pos m <= 2 ^ (- e).
Proof.
  intros He H. unfold grid in H.
  assert (He0 : e <= 0).
  { destruct (Z_le_gt_dec e 0) as [|Hgt]; [assumption|exfalso].
    assert (2 ^ 1074 < 2 ^ (e + 1074)) by (apply pow2_lt; lia).
    pose proof (pow2_pos 1074 ltac:(lia)). nia. }
  split; [exact He0|].
  rewrite (pow2_split (e + 1074) 1074) in H by lia.
  replace (1074 - (e + 1074)) with (- e) in H by lia.
  pose proof (pow2_pos (e + 1074) ltac:(lia)).
  pose proof (pow2_pos (- e) ltac:(lia)). nia.
Qed.

(** *** Division *)

Lemma SFdiv_same (s : bool) (m : positive) (e : Z) :
  SFdiv prec emax (S754_finite s m e) (S754_finite s m e) = SF1.
Proof.
  cbn [SFdiv]. unfold SFdiv_core_binary. rewrite !Z.sub_diag.
  change (Z.min (fexp prec emax 0) 0) with (-53). change (0 - -53) with 53.
  cbv beta iota zeta.
  assert (E : Z.div_eucl (Z.shiftl (Z.pos m) 53) (Z.pos m) = (2 ^ 53, 0)).
  { rewrite Z.shiftl_mul_pow2 by lia.
    generalize (Z_div_mod (Z.pos m * 2 ^ 53) (Z.pos m) ltac:(lia)).
    destruct (Z.div_eucl (Z.pos m * 2 ^ 53) (Z.pos m)) as [q r].
    intros [H1 H2]. assert (q = 2 ^ 53) by nia. subst q. f_equal. lia. }
  rewrite E.
  replace (new_location (Z.pos m) 0) with loc_Exact
    by (unfold new_location, new_location_even, new_location_odd;
        destruct (Z.even (Z.pos m)); reflexivity).
  destruct s; vm_compute; reflexivity.
Qed.

Lemma SFdiv_lt (sa sb : bool) (ma mb : positive) (ea eb : Z) :
  -1074 <= ea -> -1074 <= eb -> grid ma ea < grid mb eb ->
  at_most (xorb sa sb) 1
    (SFdiv prec emax (S754_finite sa ma ea) (S754_finite sb mb eb)).
Proof.
  intros Hea Heb Hlt. cbn [SFdiv]. unfold SFdiv_core_binary.
  set (e' := Z.min (fexp prec emax (Zdigits2 (Z.pos ma) + ea - (Zdigits2 (Z.pos mb) + eb)))
               (ea - eb)).
  assert (Hdig : Zdigits2 (Z.pos ma) + ea <= Zdigits2 (Z.pos mb) + eb).
  { pose proof (Zdigits2_mono (grid ma ea) (grid mb eb)
      ltac:(pose proof (grid_pos ma ea Hea); lia)) as Hm.
    unfold grid in Hm. rewrite !Zdigits2_mul_pow2 in Hm by lia. lia. }
  assert (He' : e' <= -53 /\ e' <= ea - eb).
  { unfold e'. rewrite fexp_eq. lia. }
  clearbody e'.
  set (sh := ea - eb - e'). assert (Hsh : 0 <= sh) by (unfold sh; lia).
  set (m' := match sh with Z.pos _ => Z.shiftl (Z.pos ma) sh | 0 => Z.pos ma | Z.neg _ => 0 end).
  assert (Hm' : m' = Z.pos ma * 2 ^ sh).
  { unfold m'. destruct sh as [|p|p] eqn:E; try lia.
    rewrite Z.shiftl_mul_pow2 by lia. reflexivity. }
  clearbody m'.
  generalize (Z_div_mod m' (Z.pos mb) ltac:(lia)).
  destruct (Z.div_eucl m' (Z.pos mb)) as [q r]. intros [H1 H2].
  pose proof (pow2_pos sh Hsh) as Hps.
  assert (Hq : 0 <= q) by nia.
  apply binary_round_aux_lt; try lia.
  rewrite Z.mul_1_l.
  destruct (Z_lt_le_dec q (2 ^ (- e'))) as [|Hge]; [assumption|exfalso].
  pose proof (pow2_pos (- e') ltac:(lia)) as Hpe.
  pose proof (pow2_pos (eb + 1074) ltac:(lia)) as Hpb.
  assert (A : 2 ^ (- e') * Z.pos mb <= Z.pos ma * 2 ^ sh) by nia.
  assert (B : 2 ^ (- e') * grid mb eb <= 2 ^ (- e') * grid ma ea).
  { unfold grid.
    replace (2 ^ (- e') * (Z.pos ma * 2 ^ (ea + 1074)))
      with (Z.pos ma * 2 ^ sh * 2 ^ (eb + 1074)).
    - rewrite Z.mul_assoc. apply Z.mul_le_mono_nonneg_r; lia.
    - rewrite <- Z.mul_assoc, <- Z.pow_add_r by lia.
      rewrite (Z.mul_comm (2 ^ (- e'))), <- Z.mul_assoc, <- Z.pow_add_r by lia.
      f_equal. f_equal. unfold sh. lia. }
  apply Z.mul_le_mono_pos_l in B; lia.
Qed.

(** *** The order of binary64 values *)

Lemma top_pos : 0 < top.
Proof. apply pow2_pos. lia. Qed.

Lemma gval_bound (x : spec_float) :
  valid x = true -> - top < gval x < top.
Proof.
  intros H. pose proof top_pos.
  destruct x as [s|s| |s m e]; cbn [gval]; try lia.
  rewrite (valid_sign s false) in H.
  pose proof (grid_lt_max m e H). fold top in *.
  pose proof (grid_pos m e ltac:(apply valid_finite in H; lia)).
  destruct s; cbn [cond_Zopp]; lia.
Qed.

Lemma rank_fin (x : spec_float) :
  valid x = true -> nan_free x = true ->
  (is_fin x = true <-> - top < rank x < top).
Proof.
  intros H N. pose proof top_pos. pose proof (gval_bound x H).
  destruct x as [s|[|]| |s m e]; cbn [rank is_fin]; try discriminate;
    split; intros; try discriminate; try reflexivity; try assumption; lia.
Qed.

Lemma rank_bound (x : spec_float) : valid x = true -> - top <= rank x <= top.
Proof.
  intros H. pose proof top_pos. pose proof (gval_bound x H).
  destruct x as [?|[|]| |? ? ?]; cbn [rank] in *; lia.
Qed.

Lemma SFcompare_rank (x y : spec_float) :
  valid x = true -> valid y = true -> nan_free x = true -> nan_free y = true ->
  SFcompare x y = Some (rank x ?= rank y).
Proof.
  intros Hx Hy Nx Ny. pose proof top_pos.
  pose proof (gval_bound x Hx). pose proof (gval_bound y Hy).
  destruct (is_fin x) eqn:Fx; destruct (is_fin y) eqn:Fy.
  - rewrite SFcompare_gval by assumption.
    destruct x as [?|?| |? ? ?], y as [?|?| |? ? ?]; try discriminate; reflexivity.
  - destruct y as [sy|sy| |sy my ey]; try discriminate.
    destruct x as [sx|sx| |sx mx ex]; try discriminate;
      destruct sy; cbn [SFcompare rank gval] in *;
      match goal with |- _ = Some (?a ?= ?b) => destruct (Z.compare_spec a b) end;
      try reflexivity; exfalso; lia.
  - destruct x as [sx|sx| |sx mx ex]; try discriminate.
    destruct y as [sy|sy| |sy my ey]; try discriminate;
      destruct sx; cbn [SFcompare rank gval] in *;
      match goal with |- _ = Some (?a ?= ?b) => destruct (Z.compare_spec a b) end;
      try reflexivity; exfalso; lia.
  - destruct x as [sx|sx| |sx mx ex]; try discriminate.
    destruct y as [sy|sy| |sy my ey]; try discriminate.
    destruct sx, sy; cbn [SFcompare rank gval] in *;
      match goal with |- _ = Some (?a ?= ?b) => destruct (Z.compare_spec a b) end;
      try reflexivity; exfalso; lia.
Qed.

Lemma SFcompare_nan (x y : spec_float) :
  nan_free x && nan_free y = false -> SFcompare x y = None.
Proof.
  destruct x as [?|?| |? ? ?], y as [?|?| |? ? ?]; try discriminate; reflexivity.
Qed.

Section Order.

Variables x y : spec_float.
Hypothesis Hx : valid x = true.
Hypothesis Hy : valid y = true.

Lemma SFltb_true :
  SFltb x y = true ->
  nan_free x = true /\ nan_free y = true /\ rank x < rank y.
Proof.
  unfold SFltb. destruct (nan_free x) eqn:Nx; destruct (nan_free y) eqn:Ny;
    try (rewrite SFcompare_nan by (rewrite Nx, Ny; reflexivity); discriminate).
  rewrite SFcompare_rank by assumption.
  destruct (Z.compare_spec (rank x) (rank y)); try discriminate. auto.
Qed.

Lemma SFltb_false :
  SFltb x y = false -> nan_free x = true -> nan_free y = true ->
  rank y <= rank x.
Proof.
  unfold SFltb. intros H Nx Ny. rewrite SFcompare_rank in H by assumption.
  destruct (Z.compare_spec (rank x) (rank y)); try discriminate; lia.
Qed.

Lemma SFltb_lt :
  nan_free x = true -> nan_free y = true -> rank x < rank y ->
  SFltb x y = true.
Proof.
  intros Nx Ny H. unfold SFltb. rewrite SFcompare_rank by assumption.
  destruct (Z.compare_spec (rank x) (rank y)); try reflexivity; lia.
Qed.

Lemma SFltb_ge :
  rank y <= rank x -> SFltb x y = false.
Proof.
  intros H. unfold SFltb.
  destruct (nan_free x) eqn:Nx; destruct (nan_free y) eqn:Ny;
    try (rewrite SFcompare_nan by (rewrite Nx, Ny; reflexivity); reflexivity).
  rewrite SFcompare_rank by assumption.
  destruct (Z.compare_spec (rank x) (rank y)); try reflexivity; lia.
Qed.

Lemma SFltb_nan : nan_free x && nan_free y = false -> SFltb x y = false.
Proof. intros H. unfold SFltb. now rewrite SFcompare_nan. Qed.

Lemma SFeqb_true :
  SFeqb x y = true ->
  nan_free x = true /\ nan_free y = true /\ rank x = rank y.
Proof.
  unfold SFeqb. destruct (nan_free x) eqn:Nx; destruct (nan_free y) eqn:Ny;
    try (rewrite SFcompare_nan by (rewrite Nx, Ny; reflexivity); discriminate).
  rewrite SFcompare_rank by assumption.
  destruct (Z.compare_spec (rank x) (rank y)); try discriminate. auto.
Qed.

Lemma SFeqb_false :
  SFeqb x y = false -> nan_free x = true -> nan_free y = true ->
  rank x <> rank y.
Proof.
  unfold SFeqb. intros H Nx Ny. rewrite SFcompare_rank in H by assumption.
  destruct (Z.compare_spec (rank x) (rank y)); try discriminate; lia.
Qed.

Lemma SFleb_le :
  nan_free x = true -> nan_free y = true -> rank x <= rank y ->
  SFleb x y = true.
Proof.
  intros Nx Ny H. unfold SFleb. rewrite SFcompare_rank by assumption.
  destruct (Z.compare_spec (rank x) (rank y)); try reflexivity; lia.
Qed.

Lemma SFleb_true :
  SFleb x y = true ->
  nan_free x = true /\ nan_free y = true /\ rank x <= rank y.
Proof.
  unfold SFleb. destruct (nan_free x) eqn:Nx; destruct (nan_free y) eqn:Ny;
    try (rewrite SFcompare_nan by (rewrite Nx, Ny; reflexivity); discriminate).
  rewrite SFcompare_rank by assumption.
  destruct (Z.compare_spec (rank x) (rank y)); try discriminate;
    repeat split; lia.
Qed.

End Order.

Lemma SFltb_irrefl (x : spec_float) : valid x = true -> SFltb x x = false.
Proof. intros H. apply SFltb_ge; try assumption. lia. Qed.

Lemma SFltb_asym (x y : spec_float) :
  valid x = true -> valid y = true -> SFltb x y = true -> SFltb y x = false.
Proof.
  intros Hx Hy H. apply SFltb_true in H; try assumption.
  apply SFltb_ge; try assumption. lia.
Qed.

Lemma rank_gval (x : spec_float) : is_fin x = true -> rank x = gval x.
Proof. destruct x as [?|?| |? ? ?]; try discriminate; reflexivity. Qed.

(** *** The divisor is never zero *)

Lemma rounded_not_zero (s : bool) (N : Z) (r : spec_float) :
  rounded s N r -> is_zero_sf r = false.
Proof. intros [[-> _]|(m & e & -> & _)]; reflexivity. Qed.

Lemma SFsub_nonzero (x y : spec_float) :
  valid x = true -> valid y = true -> SFeqb y x = false ->
  is_zero_sf (SFsub prec emax x y) = false.
Proof.
  intros Hx Hy H.
  destruct (nan_free x) eqn:Nx; [|destruct x; try discriminate; destruct y as [?|?| |? ? ?]; reflexivity].
  destruct (nan_free y) eqn:Ny; [|destruct y; try discriminate; destruct x as [?|?| |? ? ?]; reflexivity].
  pose proof (SFeqb_false y x Hy Hx H Ny Nx) as Hne.
  destruct (is_fin x) eqn:Fx; destruct (is_fin y) eqn:Fy.
  - rewrite !rank_gval in Hne by assumption.
    eapply rounded_not_zero. apply SFsub_rounded; try assumption. congruence.
  - destruct y as [?|[|]| |? ? ?]; try discriminate;
      destruct x as [?|?| |? ? ?]; try discriminate; reflexivity.
  - destruct x as [?|[|]| |? ? ?]; try discriminate;
      destruct y as [?|?| |? ? ?]; try discriminate; reflexivity.
  - destruct x as [?|[|]| |? ? ?]; try discriminate;
      destruct y as [?|[|]| |? ? ?]; try discriminate;
      try reflexivity; now elim Hne.
Qed.

Lemma SFeqb_zero (r : spec_float) :
  SFeqb r (S754_zero false) = is_zero_sf r.
Proof. destruct r as [?|[|]| |[|] ? ?]; reflexivity. Qed.

(** *** The ratio at the two ends of the range *)

Lemma ratio_at_origin (O E : spec_float) :
  valid O = true -> valid E = true -> SFeqb O E = false ->
  let R := SFdiv prec emax (SFsub prec emax O O) (SFsub prec emax E O) in
  (R = S754_nan \/ is_zero_sf R = true) /\
  (is_fin O = true -> nan_free E = true -> is_zero_sf R = true).
Proof.
  intros HO HE Hne R.
  pose proof (SFsub_nonzero E O HE HO Hne) as Hd.
  assert (Hn : is_fin O = true -> is_zero_sf (SFsub prec emax O O) = true).
  { intros F. destruct (SFsub_same O O HO HO F F eq_refl) as [s ->]. reflexivity. }
  assert (Hn' : is_fin O = false -> SFsub prec emax O O = S754_nan).
  { destruct O as [?|[|]| |? ? ?]; try discriminate; reflexivity. }
  unfold R. split.
  - destruct (is_fin O) eqn:F.
    + specialize (Hn eq_refl).
      destruct (SFsub prec emax O O); try discriminate.
      destruct (SFsub prec emax E O); try discriminate; auto.
    + rewrite Hn' by reflexivity. left. reflexivity.
  - intros F NE. specialize (Hn F).
    assert (nan_free (SFsub prec emax E O) = true).
    { destruct (is_fin E) eqn:FE.
      - destruct (Z.eq_dec (gval E) (gval O)) as [Eq|Nq].
        + destruct (SFsub_same _ _ HE HO FE F Eq) as [z ->]. reflexivity.
        + destruct (SFsub_rounded _ _ HE HO FE F Nq) as [[-> _]|(m' & e' & -> & _)];
            reflexivity.
      - destruct E as [?|?| |? ? ?]; try discriminate.
        destruct O as [?|?| |? ? ?]; try discriminate; reflexivity. }
    destruct (SFsub prec emax O O); try discriminate.
    destruct (SFsub prec emax E O); try discriminate; reflexivity.
Qed.

Lemma ratio_at_end (O E : spec_float) :
  valid O = true -> valid E = true -> SFeqb O E = false ->
  let d := SFsub prec emax E O in
  SFdiv prec emax d d = if is_fin d then SF1 else S754_nan.
Proof.
  intros HO HE Hne d.
  pose proof (SFsub_nonzero E O HE HO Hne) as Hd. fold d in Hd.
  destruct d as [?|?| |s m e]; try discriminate; try reflexivity.
  apply SFdiv_same.
Qed.

(** *** The ratio inside the range *)

Lemma at_most_one_SF1 : at_most false 1 SF1.
Proof.
  right. exists 4503599627370496%positive, (-52).
  split; [reflexivity|]. split; [lia|]. simpl. lia.
Qed.

Lemma div_rounded (s : bool) (A B : Z) (n d : spec_float) :
  0 < A <= B -> rounded s A n -> rounded s B d ->
  valid n = true -> valid d = true ->
  SFdiv prec emax n d = S754_nan \/ at_most false 1 (SFdiv prec emax n d).
Proof.
  intros HAB Hn Hd Vn Vd. pose proof (rnd_mono A B HAB) as Hm.
  destruct Hd as [[-> HB]|(mb & eb & -> & Gb & HB)];
    destruct Hn as [[-> HA]|(ma & ea & -> & Ga & HA)].
  - left. reflexivity.
  - right. left. cbn [SFdiv]. now destruct s.
  - exfalso. lia.
  - right.
    assert (Hea : -1074 <= ea) by (apply valid_finite in Vn; lia).
    assert (Heb : -1074 <= eb) by (apply valid_finite in Vd; lia).
    destruct (Z.eq_dec (grid ma ea) (grid mb eb)) as [Eq|Nq].
    + pose proof (gval_inj (S754_finite s ma ea) (S754_finite s mb eb) Vn Vd) as Hi.
      cbn [gval] in Hi. rewrite Eq in Hi. specialize (Hi eq_refl).
      rewrite Hi, SFdiv_same. apply at_most_one_SF1.
    + replace false with (xorb s s) by (destruct s; reflexivity).
      apply SFdiv_lt; lia.
Qed.

Lemma ratio_between (V O E : spec_float) :
  valid V = true -> valid O = true -> valid E = true ->
  valid (SFsub prec emax V O) = true -> valid (SFsub prec emax E O) = true ->
  nan_free V = true -> nan_free O = true -> nan_free E = true ->
  rank O < rank V < rank E \/ rank E < rank V < rank O ->
  let R := SFdiv prec emax (SFsub prec emax V O) (SFsub prec emax E O) in
  R = S754_nan \/ at_most false 1 R.
Proof.
  intros HV HO HE Vn Vd NV NO NE Hb R. unfold R. clear R.
  pose proof top_pos as Ht.
  assert (FV : is_fin V = true).
  { apply rank_fin; try assumption.
    pose proof (rank_bound O HO). pose proof (rank_bound E HE). lia. }
  pose proof (rank_gval V FV) as RV.
  destruct (is_fin O) eqn:FO.
  - pose proof (rank_gval O FO) as RO.
    assert (Hne : gval V <> gval O) by lia.
    pose proof (SFsub_rounded V O HV HO FV FO Hne) as Hn.
    destruct (is_fin E) eqn:FE.
    + pose proof (rank_gval E FE) as RE.
      assert (Hne' : gval E <> gval O) by lia.
      pose proof (SFsub_rounded E O HE HO FE FO Hne') as Hd.
      assert (Hs : (gval V - gval O <? 0) = (gval E - gval O <? 0)).
      { destruct (Z.ltb_spec (gval V - gval O) 0);
          destruct (Z.ltb_spec (gval E - gval O) 0); try reflexivity; lia. }
      rewrite <- Hs in Hd.
      eapply div_rounded; try eassumption. lia.
    + assert (exists s, E = S754_infinity s) as [sE ->]
        by (destruct E as [?|?| |? ? ?]; try discriminate; eauto).
      assert (Hd : SFsub prec emax (S754_infinity sE) O = S754_infinity sE)
        by (destruct O as [?|?| |? ? ?]; try discriminate; reflexivity).
      rewrite Hd.
      assert (HsE : sE = (gval V - gval O <? 0)).
      { pose proof (gval_bound V HV). pose proof (gval_bound O HO).
        destruct sE; cbn [rank] in Hb;
          destruct (Z.ltb_spec (gval V - gval O) 0); try reflexivity; lia. }
      rewrite <- HsE in Hn.
      destruct Hn as [[-> _]|(m & e & -> & _)].
      * left. reflexivity.
      * right. left. cbn [SFdiv]. now destruct sE.
  - left.
    assert (exists s, O = S754_infinity s) as [sO ->]
      by (destruct O as [?|?| |? ? ?]; try discriminate; eauto).
    assert (Hn : SFsub prec emax V (S754_infinity sO) = S754_infinity (negb sO))
      by (destruct V as [?|?| |? ? ?]; try discriminate; reflexivity).
    rewrite Hn.
    assert (Hd : SFsub prec emax E (S754_infinity sO) = S754_infinity (negb sO)).
    { pose proof (gval_bound V HV).
      destruct E as [?|sE| |? ? ?]; try discriminate; try reflexivity.
      destruct sE, sO; cbn [rank] in Hb; try reflexivity; lia. }
    rewrite Hd. reflexivity.
Qed.

Lemma SF_zero : Prim2SF 0 = S754_zero false.
Proof. reflexivity. Qed.

Lemma SF_one : Prim2SF 1 = SF1.
Proof. reflexivity. Qed.

Lemma SF_255 : Prim2SF 255 = SF255.
Proof. reflexivity. Qed.

Lemma float_of_int_255 : PyNum.float_of_int 255 = inr 255%float.
Proof. vm_compute. reflexivity. Qed.

Lemma rank_SF1 : rank SF1 = 2 ^ 1074.
Proof. vm_compute. reflexivity. Qed.

Lemma valid_SF1 : valid SF1 = true.
Proof. reflexivity. Qed.

Lemma clamp_float (r : float) :
  Binary64.clamp (PyNum.Float r) (PyNum.Float 0) (PyNum.Float 1) =
  PyNum.Float (clampf r).
Proof.
  unfold Binary64.clamp, PyNum.max, PyNum.min, PyNum.gt, PyNum.lt, clampf.
  destruct (1 <? r)%float; cbv zeta.
  - destruct (0 <? 1)%float; reflexivity.
  - destruct (0 <? r)%float; reflexivity.
Qed.

Lemma mul_255 (c : float) :
  PyNum.mul (PyNum.Int 255) (PyNum.Float c) = inr (PyNum.Float (255 * c)).
Proof.
  unfold PyNum.mul, PyNum.float_. rewrite float_of_int_255. reflexivity.
Qed.

Lemma float_channel_eq (c : float) :
  float_channel c = PyNum.int (PyNum.Float (255 * c)).
Proof. unfold float_channel. rewrite mul_255. reflexivity. Qed.

Lemma interpolation_eq (value origin end_ : float) :
  PyNum.bind (PyNum.sub (PyNum.Float value) (PyNum.Float origin)) (fun n =>
  PyNum.bind (PyNum.sub (PyNum.Float end_) (PyNum.Float origin)) (fun d =>
  PyNum.bind (PyNum.float_ d) (fun fd =>
  PyNum.bind (PyNum.truediv n fd) (fun ratio =>
  let ratio := Binary64.clamp (PyNum.Float ratio) (PyNum.Float 0) (PyNum.Float 1) in
  PyNum.bind (PyNum.mul (PyNum.Int 255) ratio) (fun pr =>
  PyNum.bind (PyNum.int pr) (fun r =>
  PyNum.bind (PyNum.sub (PyNum.Float 1) ratio) (fun c =>
  PyNum.bind (PyNum.mul (PyNum.Int 255) c) (fun pg =>
  PyNum.bind (PyNum.int pg) (fun g =>
  let b := 0%Z in
  inr (r, g, b)))))))))) = inside value origin end_.
Proof.
  unfold inside. cbn [PyNum.sub PyNum.float_ PyNum.bind PyNum.truediv].
  destruct (end_ - origin =? 0)%float; [reflexivity|].
  cbn [PyNum.bind]. cbv zeta. rewrite clamp_float.
  fold (float_ratio value origin end_).
  set (c := clampf _). unfold channels, float_channel.
  rewrite !mul_255. cbn [PyNum.sub PyNum.float_ PyNum.bind].
  rewrite mul_255. reflexivity.
Qed.

Lemma color_for_gain_floats (value origin end_ : float) :
  Binary64.color_for_gain (PyNum.Float value) (PyNum.Float origin) (PyNum.Float end_) =
  if (origin =? end_)%float then inr RED
  else if (origin <? end_)%float then
    if (value <? origin)%float then inr BLUE
    else if (end_ <? value)%float then inr RED
    else inside value origin end_
  else
    if (value <? end_)%float then inr RED
    else if (origin <? value)%float then inr BLUE
    else inside value origin end_.
Proof.
  unfold Binary64.color_for_gain. rewrite interpolation_eq. reflexivity.
Qed.

Lemma is_nan_spec (x : float) : is_nan x = negb (nan_free (Prim2SF x)).
Proof.
  unfold is_nan. rewrite eqb_spec. pose proof (Prim2SF_valid x) as V.
  destruct (nan_free (Prim2SF x)) eqn:N.
  - unfold SFeqb. rewrite SFcompare_rank by assumption.
    now rewrite Z.compare_refl.
  - unfold SFeqb. rewrite SFcompare_nan by (rewrite N; reflexivity). reflexivity.
Qed.

Lemma is_finite_spec (x : float) : is_finite x = is_fin (Prim2SF x).
Proof.
  unfold is_finite, is_infinity. rewrite is_nan_spec, eqb_spec, abs_spec.
  destruct (Prim2SF x) as [?|?| |? ? ?]; reflexivity.
Qed.

Lemma float_eq (x y : float) : Prim2SF x = Prim2SF y -> x = y.
Proof. apply Prim2SF_inj. Qed.

(** *** The clamp *)

Lemma at_most_one_grid (m : positive) (e : Z) :
  -1074 <= e -> grid m e <= 2 ^ 1074 -> at_most false 1 (S754_finite false m e).
Proof.
  intros He H. right. exists m, e. split; [reflexivity|].
  rewrite Z.mul_1_l. now apply below_one.
Qed.

Lemma clampf_low (r : float) :
  nan_free (Prim2SF r) = false \/ is_zero_sf (Prim2SF r) = true ->
  clampf r = 0%float.
Proof.
  intros H. unfold clampf. cbv zeta. rewrite (ltb_spec 1 r).
  assert (H1 : SFltb (Prim2SF 1) (Prim2SF r) = false).
  { destruct H as [H|H].
    - apply SFltb_nan. rewrite H. apply andb_false_r.
    - destruct (Prim2SF r) as [[|]|?| |? ? ?]; try discriminate; reflexivity. }
  rewrite H1. rewrite ltb_spec.
  assert (H0 : SFltb (Prim2SF 0) (Prim2SF r) = false).
  { destruct H as [H|H].
    - apply SFltb_nan. rewrite H. apply andb_false_r.
    - destruct (Prim2SF r) as [[|]|?| |? ? ?]; try discriminate; reflexivity. }
  now rewrite H0.
Qed.

Lemma at_most_one_rank (r : spec_float) :
  valid r = true -> at_most false 1 r ->
  nan_free r = true /\ 0 <= rank r <= 2 ^ 1074 /\ (rank r = 0 -> r = S754_zero false).
Proof.
  intros V [->|(m & e & -> & He & Hm)].
  - cbn. split; [reflexivity|]. split; [|reflexivity].
    pose proof (pow2_pos 1074). lia.
  - apply valid_finite in V. destruct V as (Hv & _).
    cbn [nan_free rank gval cond_Zopp]. unfold grid.
    pose proof (pow2_pos (e + 1074) ltac:(lia)) as Hp.
    split; [reflexivity|]. split; [split; [lia|]|intros; lia].
    rewrite (pow2_split (e + 1074) 1074) by lia.
    replace (1074 - (e + 1074)) with (- e) by lia.
    rewrite (Z.mul_comm (2 ^ (e + 1074))).
    apply Z.mul_le_mono_nonneg_r; lia.
Qed.

Lemma clampf_unit (r : float) :
  at_most false 1 (Prim2SF r) -> clampf r = r.
Proof.
  intros H. pose proof (Prim2SF_valid r) as V.
  destruct (at_most_one_rank _ V H) as (N & Hr & Hz).
  unfold clampf. cbv zeta. rewrite (ltb_spec 1 r).
  rewrite (SFltb_ge (Prim2SF 1) (Prim2SF r))
    by (try apply Prim2SF_valid; rewrite SF_one, rank_SF1; lia).
  rewrite ltb_spec.
  destruct (Z.eq_dec (rank (Prim2SF r)) 0) as [E|NE].
  - rewrite (SFltb_ge (Prim2SF 0) (Prim2SF r))
      by (try apply Prim2SF_valid; rewrite SF_zero; cbn [rank gval]; lia).
    apply float_eq. rewrite SF_zero. symmetry. now apply Hz.
  - rewrite (SFltb_lt (Prim2SF 0) (Prim2SF r));
      try apply Prim2SF_valid; try reflexivity; try assumption.
    rewrite SF_zero. cbn [rank gval]. lia.
Qed.

Lemma clampf_at_most (r : float) : at_most false 1 (Prim2SF (clampf r)).
Proof.
  unfold clampf. cbv zeta. pose proof (Prim2SF_valid r) as V.
  destruct (1 <? r)%float eqn:H1.
  - change (0 <? 1)%float with true. cbv iota. rewrite SF_one. apply at_most_one_SF1.
  - destruct (0 <? r)%float eqn:H0.
    + rewrite ltb_spec in H0, H1.
      apply SFltb_true in H0; try apply Prim2SF_valid.
      destruct H0 as (_ & N & H0). rewrite SF_zero in H0. cbn [rank gval] in H0.
      apply SFltb_false in H1; try apply Prim2SF_valid; try assumption; try reflexivity.
      rewrite SF_one, rank_SF1 in H1.
      assert (F : is_fin (Prim2SF r) = true).
      { apply rank_fin; try assumption. unfold top.
        assert (2 ^ 1074 < 2 ^ 2098) by (apply pow2_lt; lia). lia. }
      destruct (Prim2SF r) as [s|s| |s m e]; try discriminate.
      pose proof (grid_pos m e ltac:(apply valid_finite in V; lia)).
      destruct s; cbn [rank gval cond_Zopp] in H0, H1; [lia|].
      apply at_most_one_grid; [apply valid_finite in V|]; lia.
    + left. apply SF_zero.
Qed.

(** *** The two channels *)

Lemma int_at_most (x : float) :
  at_most false 255 (Prim2SF x) ->
  exists c, PyNum.int (PyNum.Float x) = inr c /\ 0 <= c <= 255.
Proof.
  intros [H|(m & e & H & He & Hm)]; cbn [PyNum.int]; rewrite H.
  - exists 0. split; [reflexivity|lia].
  - exists (Z.shiftl (Z.pos m) e). split; [reflexivity|].
    now apply (at_most_int false).
Qed.

Lemma mul_255_at_most (c : float) :
  at_most false 1 (Prim2SF c) -> at_most false 255 (Prim2SF (255 * c)).
Proof.
  intros H. rewrite mul_spec, SF_255.
  destruct H as [->|(m & e & -> & He & Hm)].
  - left. reflexivity.
  - apply SFmul_255; lia.
Qed.

Lemma one_minus_at_most (c : float) :
  at_most false 1 (Prim2SF c) -> at_most false 1 (Prim2SF (1 - c)).
Proof.
  intros H. pose proof (Prim2SF_valid c) as V.
  pose proof (Prim2SF_valid (1 - c)) as V1.
  destruct (at_most_one_rank _ V H) as (_ & Hr & _).
  rewrite sub_spec, SF_one in *. unfold SF64sub in *.
  destruct H as [Hc|(m & e & Hc & _)]; rewrite Hc in *.
  - apply at_most_one_SF1.
  - cbn [rank] in Hr.
    assert (He : -1074 <= e) by (apply valid_finite in V; lia).
    destruct (SFsub_finite false false 4503599627370496 m (-52) e ltac:(lia) He)
      as [Hz Hn].
    fold SF1 in Hz, Hn.
    assert (G1 : gval SF1 = 2 ^ 1074) by (vm_compute; reflexivity).
    destruct (Z.eq_dec (gval SF1 - gval (S754_finite false m e)) 0) as [E|NE].
    + left. now apply Hz.
    + specialize (Hn NE).
      destruct (Z.ltb_spec (gval SF1 - gval (S754_finite false m e)) 0) as [|_]; [lia|].
      rewrite Z.abs_eq in Hn by lia.
      assert (Hm : rnd (gval SF1 - gval (S754_finite false m e)) <= 2 ^ 1074).
      { rewrite <- (rnd_pow2 1074) by lia. apply rnd_mono. lia. }
      destruct Hn as [[_ R]|(m' & e' & Hs & G & _)].
      * exfalso. assert (2 ^ 1074 < 2 ^ 2098) by (apply pow2_lt; lia). lia.
      * fold SF1 in V1. rewrite Hs in *.
        apply at_most_one_grid; [apply valid_finite in V1|]; lia.
Qed.

Lemma channels_at_most (c : float) :
  at_most false 1 (Prim2SF c) ->
  exists r g,
    float_channel c = inr r /\ float_channel (1 - c) = inr g /\
    channels c = inr (r, g, 0) /\ 0 <= r <= 255 /\ 0 <= g <= 255.
Proof.
  intros H.
  destruct (int_at_most _ (mul_255_at_most c H)) as (r & Hr & Br).
  destruct (int_at_most _ (mul_255_at_most _ (one_minus_at_most c H))) as (g & Hg & Bg).
  exists r, g. unfold channels. rewrite !float_channel_eq, Hr, Hg.
  repeat split; try reflexivity; lia.
Qed.

Lemma channels_zero : channels 0 = inr GREEN.
Proof. vm_compute. reflexivity. Qed.


(** *** The divisor *)

Lemma divisor_nonzero (origin end_ : float) :
  (origin =? end_)%float = false -> (end_ - origin =? 0)%float = false.
Proof.
  intros H. rewrite eqb_spec in *. rewrite sub_spec, SF_zero, SFeqb_zero.
  apply SFsub_nonzero; try apply Prim2SF_valid. exact H.
Qed.

Lemma inside_eq (value origin end_ : float) :
  (origin =? end_)%float = false ->
  inside value origin end_ = channels (clampf (float_ratio value origin end_)).
Proof. intros H. unfold inside. now rewrite divisor_nonzero. Qed.

Lemma inside_ok (value origin end_ : float) :
  (origin =? end_)%float = false ->
  exists c, inside value origin end_ = inr c /\ color_ok c.
Proof.
  intros H. rewrite inside_eq by exact H.
  destruct (channels_at_most _ (clampf_at_most (float_ratio value origin end_)))
    as (r & g & _ & _ & -> & Hr & Hg).
  exists (r, g, 0). split; [reflexivity|]. unfold color_ok, channel_ok. lia.
Qed.

Lemma ltb_true_rank (x y : float) :
  (x <? y)%float = true ->
  nan_free (Prim2SF x) = true /\ nan_free (Prim2SF y) = true /\
  rank (Prim2SF x) < rank (Prim2SF y).
Proof. rewrite ltb_spec. apply SFltb_true; apply Prim2SF_valid. Qed.

Lemma ltb_rank_lt (x y : float) :
  nan_free (Prim2SF x) = true -> nan_free (Prim2SF y) = true ->
  rank (Prim2SF x) < rank (Prim2SF y) -> (x <? y)%float = true.
Proof. rewrite ltb_spec. apply SFltb_lt; apply Prim2SF_valid. Qed.

Lemma ltb_rank_ge (x y : float) :
  rank (Prim2SF y) <= rank (Prim2SF x) -> (x <? y)%float = false.
Proof. rewrite ltb_spec. apply SFltb_ge; apply Prim2SF_valid. Qed.


Lemma ltb_asym (x y : float) : (x <? y)%float = true -> (y <? x)%float = false.
Proof. intros H. apply ltb_true_rank in H. apply ltb_rank_ge. lia. Qed.

Lemma eqb_rank_ne (x y : float) :
  rank (Prim2SF x) <> rank (Prim2SF y) -> (x =? y)%float = false.
Proof.
  intros H. rewrite eqb_spec. unfold SFeqb.
  destruct (nan_free (Prim2SF x) && nan_free (Prim2SF y)) eqn:N.
  - apply andb_true_iff in N. destruct N.
    rewrite SFcompare_rank by (try apply Prim2SF_valid; assumption).
    destruct (Z.compare_spec (rank (Prim2SF x)) (rank (Prim2SF y))); try reflexivity.
    contradiction.
  - now rewrite SFcompare_nan.
Qed.

Lemma leb_rank_le (x y : float) :
  nan_free (Prim2SF x) = true -> nan_free (Prim2SF y) = true ->
  rank (Prim2SF x) <= rank (Prim2SF y) -> (x <=? y)%float = true.
Proof. rewrite leb_spec. apply SFleb_le; apply Prim2SF_valid. Qed.

Lemma color_ok_RED : color_ok RED.
Proof. unfold color_ok, channel_ok, RED. lia. Qed.

Lemma color_ok_BLUE : color_ok BLUE.
Proof. unfold color_ok, channel_ok, BLUE. lia. Qed.



Lemma between_inside (value origin end_ : float) :
  strictly_between value origin end_ = true ->
  (origin =? end_)%float = false /\
  Binary64.color_for_gain (PyNum.Float value) (PyNum.Float origin) (PyNum.Float end_) =
  inside value origin end_.
Proof.
  unfold strictly_between. intros H.
  apply orb_true_iff in H. destruct H as [H|H];
    apply andb_true_iff in H; destruct H as [H1 H2];
    pose proof (ltb_true_rank _ _ H1) as (? & ? & ?);
    pose proof (ltb_true_rank _ _ H2) as (? & ? & ?);
    assert (E : (origin =? end_)%float = false) by (apply eqb_rank_ne; lia);
    (split; [exact E|]); rewrite color_for_gain_floats, E.
  - rewrite (ltb_rank_lt origin end_) by (try assumption; lia).
    rewrite (ltb_rank_ge value origin) by lia.
    rewrite (ltb_rank_ge end_ value) by lia. reflexivity.
  - rewrite (ltb_rank_ge origin end_) by lia.
    rewrite (ltb_rank_ge value end_) by lia.
    rewrite (ltb_rank_ge origin value) by lia. reflexivity.
Qed.

Lemma float_ratio_spec (value origin end_ : float) :
  Prim2SF (float_ratio value origin end_) =
  SFdiv prec emax (SFsub prec emax (Prim2SF value) (Prim2SF origin))
    (SFsub prec emax (Prim2SF end_) (Prim2SF origin)).
Proof. unfold float_ratio. rewrite div_spec, !sub_spec. reflexivity. Qed.

Lemma ratio_between_floats (value origin end_ : float) :
  strictly_between value origin end_ = true ->
  nan_free (Prim2SF (float_ratio value origin end_)) = false \/
  at_most false 1 (Prim2SF (float_ratio value origin end_)).
Proof.
  unfold strictly_between. intros H. rewrite float_ratio_spec.
  assert (Vn : valid (SFsub prec emax (Prim2SF value) (Prim2SF origin)) = true)
    by (change (SFsub prec emax) with SF64sub; rewrite <- sub_spec; apply Prim2SF_valid).
  assert (Vd : valid (SFsub prec emax (Prim2SF end_) (Prim2SF origin)) = true)
    by (change (SFsub prec emax) with SF64sub; rewrite <- sub_spec; apply Prim2SF_valid).
  assert (Hb : nan_free (Prim2SF value) = true /\ nan_free (Prim2SF origin) = true /\
               nan_free (Prim2SF end_) = true /\
               (rank (Prim2SF origin) < rank (Prim2SF value) < rank (Prim2SF end_) \/
                rank (Prim2SF end_) < rank (Prim2SF value) < rank (Prim2SF origin))).
  { apply orb_true_iff in H. destruct H as [H|H];
      apply andb_true_iff in H; destruct H as [H1 H2];
      pose proof (ltb_true_rank _ _ H1) as (? & ? & ?);
      pose proof (ltb_true_rank _ _ H2) as (? & ? & ?); repeat split; try assumption.
    - left. lia.
    - right. lia. }
  destruct Hb as (NV & NO & NE & Hb).
  destruct (ratio_between _ _ _ (Prim2SF_valid value) (Prim2SF_valid origin)
              (Prim2SF_valid end_) Vn Vd NV NO NE Hb) as [->|R].
  - left. reflexivity.
  - right. exact R.
Qed.

(** C7.  On every triple of floats, NaN and the infinities included,
    [color_for_gain] returns: it raises nothing.  Every channel of the
    result is an integer between 0 and 255.  When [origin == end] the
    result is the end colour, red, and nothing is divided; otherwise the
    divisor [float(end - origin)] is not zero. *)
Theorem color_for_gain_total_on_floats (value origin end_ : float) :
  exists c : color,
    Binary64.color_for_gain (PyNum.Float value) (PyNum.Float origin)
      (PyNum.Float end_) = inr c /\
    color_ok c /\
    ((origin =? end_)%float = true -> c = RED) /\
    ((origin =? end_)%float = false -> (end_ - origin =? 0)%float = false).
Proof.
  rewrite color_for_gain_floats.
  destruct (origin =? end_)%float eqn:E.
  - exists RED. repeat split; try apply color_ok_RED; auto. discriminate.
  - assert (Hin : exists c, inside value origin end_ = inr c /\ color_ok c)
      by (now apply inside_ok).
    assert (forall r : PyNum.result color,
              (exists c, r = inr c /\ color_ok c) ->
              exists c, r = inr c /\ color_ok c /\
                (false = true -> c = RED) /\
                (false = false -> (end_ - origin =? 0)%float = false)) as K.
    { intros r (c & -> & Hc). exists c. repeat split; try assumption.
      - discriminate.
      - intros _. now apply divisor_nonzero. }
    apply K.
    destruct (origin <? end_)%float.
    + destruct (value <? origin)%float; [exists BLUE; split; [reflexivity|apply color_ok_BLUE]|].
      destruct (end_ <? value)%float; [exists RED; split; [reflexivity|apply color_ok_RED]|].
      exact Hin.
    + destruct (value <? end_)%float; [exists RED; split; [reflexivity|apply color_ok_RED]|].
      destruct (origin <? value)%float; [exists BLUE; split; [reflexivity|apply color_ok_BLUE]|].
      exact Hin.
Qed.


(** C4.  For floats [origin != end] and [ratio] the quotient
    [(value - origin) / (end - origin)] as binary64 computes it: the
    ratio is zero at [origin] when [origin] is finite and [end] is not
    NaN, and exactly 1.0 at [end] when [end - origin] is finite.  For a
    value strictly between the two, in either order, a ratio that is
    not NaN lies between 0.0 and 1.0, the clamp leaves it as it is and
    the result is [(int(255*ratio), int(255*(1.0-ratio)), 0)], each
    product rounded before it is truncated; a ratio that is NaN gives
    green.  The blue channel is 0. *)
Theorem color_for_gain_interpolates_on_floats (value origin end_ : float) :
  (origin =? end_)%float = false ->
  (is_finite origin = true -> is_nan end_ = false ->
   (float_ratio origin origin end_ =? 0)%float = true) /\
  (is_finite (end_ - origin) = true -> float_ratio end_ origin end_ = 1%float) /\
  (strictly_between value origin end_ = true ->
   let ratio := float_ratio value origin end_ in
   (is_nan ratio = false ->
    (0 <=? ratio)%float = true /\ (ratio <=? 1)%float = true /\
    exists r g : Z,
      float_channel ratio = inr r /\
      float_channel (1 - ratio) = inr g /\
      Binary64.color_for_gain (PyNum.Float value) (PyNum.Float origin)
        (PyNum.Float end_) = inr (r, g, 0)) /\
   (is_nan ratio = true ->
    Binary64.color_for_gain (PyNum.Float value) (PyNum.Float origin)
      (PyNum.Float end_) = inr GREEN)).
Proof.
  intros H. pose proof H as H'. rewrite eqb_spec in H'.
  split; [|split].
  - intros Fo Ne. rewrite is_finite_spec in Fo. rewrite is_nan_spec in Ne.
    apply negb_false_iff in Ne.
    rewrite eqb_spec, SF_zero, SFeqb_zero, float_ratio_spec.
    now apply (ratio_at_origin (Prim2SF origin) (Prim2SF end_)
                 (Prim2SF_valid origin) (Prim2SF_valid end_) H').
  - intros Fd. rewrite is_finite_spec, sub_spec in Fd. unfold SF64sub in Fd.
    apply float_eq. rewrite float_ratio_spec, SF_one.
    rewrite (ratio_at_end (Prim2SF origin) (Prim2SF end_)
               (Prim2SF_valid origin) (Prim2SF_valid end_) H').
    now rewrite Fd.
  - intros Hb ratio.
    destruct (between_inside _ _ _ Hb) as [_ ->].
    rewrite inside_eq by exact H. fold ratio.
    pose proof (ratio_between_floats _ _ _ Hb) as R. fold ratio in R.
    rewrite is_nan_spec. split.
    + intros N. apply negb_false_iff in N.
      destruct R as [R|R]; [congruence|].
      destruct (at_most_one_rank _ (Prim2SF_valid ratio) R) as (_ & Hr & _).
      split; [|split].
      * apply leb_rank_le; try assumption; try reflexivity.
        rewrite SF_zero. cbn [rank gval]. lia.
      * apply leb_rank_le; try assumption; try reflexivity.
        rewrite SF_one, rank_SF1. lia.
      * rewrite clampf_unit by exact R.
        destruct (channels_at_most ratio R) as (r & g & Hr' & Hg & Hc & _).
        exists r, g. auto.
    + intros N. apply negb_true_iff in N.
      rewrite clampf_low by (left; exact N). apply channels_zero.
Qed.

(** X4.  On floats [color_for_gain] returns blue exactly when
    [origin != end] and the value is beyond [origin]; every other result
    has blue channel 0. *)
Theorem blue_only_beyond_origin (value origin end_ : float) :
  (Binary64.color_for_gain (PyNum.Float value) (PyNum.Float origin)
     (PyNum.Float end_) = inr BLUE <->
   (origin =? end_)%float = false /\ beyond_origin64 value origin end_ = true) /\
  (forall r g b : Z,
     Binary64.color_for_gain (PyNum.Float value) (PyNum.Float origin)
       (PyNum.Float end_) = inr (r, g, b) ->
     (r, g, b) = BLUE \/ b = 0).
Proof.
  rewrite color_for_gain_floats. unfold beyond_origin64.
  destruct (origin =? end_)%float eqn:E.
  - split.
    + split; [discriminate|]. intros [? _]. discriminate.
    + intros r g b H. injection H as <- <- <-. now right.
  - pose proof (inside_eq value origin end_ E) as Hi.
    destruct (channels_at_most _ (clampf_at_most (float_ratio value origin end_)))
      as (r0 & g0 & _ & _ & Hc & _).
    rewrite Hc in Hi.
    destruct (origin <? end_)%float.
    + destruct (value <? origin)%float.
      * split; [tauto|]. intros r g b H. left. now injection H as <- <- <-.
      * destruct (end_ <? value)%float.
        -- split; [split; [discriminate|intros [_ ?]; discriminate]|].
           intros r g b H. injection H as <- <- <-. now right.
        -- rewrite Hi. split; [split; [discriminate|intros [_ ?]; discriminate]|].
           intros r g b H. injection H as <- <- <-. now right.
    + destruct (value <? end_)%float; cbn [negb andb].
      * split; [split; [discriminate|intros [_ ?]; discriminate]|].
        intros r g b H. injection H as <- <- <-. now right.
      * destruct (origin <? value)%float.
        -- split; [tauto|]. intros r g b H. left. now injection H as <- <- <-.
        -- rewrite Hi. split; [split; [discriminate|intros [_ ?]; discriminate]|].
           intros r g b H. injection H as <- <- <-. now right.
Qed.

Lemma leb_true_rank (x y : float) :
  (x <=? y)%float = true ->
  nan_free (Prim2SF x) = true /\ nan_free (Prim2SF y) = true /\
  rank (Prim2SF x) <= rank (Prim2SF y).
Proof. rewrite leb_spec. apply SFleb_true; apply Prim2SF_valid. Qed.

Lemma eqb_rank_eq (x y : float) :
  nan_free (Prim2SF x) = true -> nan_free (Prim2SF y) = true ->
  rank (Prim2SF x) = rank (Prim2SF y) -> (x =? y)%float = true.
Proof.
  intros Nx Ny H. rewrite eqb_spec. unfold SFeqb.
  rewrite SFcompare_rank by (try apply Prim2SF_valid; assumption).
  now rewrite H, Z.compare_refl.
Qed.

(** X16.  On floats [clamp(x, 0.0, 1.0)] is a float between 0.0 and
    1.0: 0.0 for NaN and below 0.0, 1.0 above 1.0, and equal to [x]
    inside the interval. *)
Theorem clamp_unit_interval_on_floats (x : float) :
  exists c : float,
    Binary64.clamp (PyNum.Float x) (PyNum.Float 0) (PyNum.Float 1) = PyNum.Float c /\
    (0 <=? c)%float = true /\ (c <=? 1)%float = true /\
    (is_nan x = true -> c = 0%float) /\
    ((0 <=? x)%float = true -> (x <=? 1)%float = true -> (c =? x)%float = true) /\
    ((x <? 0)%float = true -> c = 0%float) /\
    ((1 <? x)%float = true -> c = 1%float).
Proof.
  exists (clampf x). split; [apply clamp_float|].
  pose proof (clampf_at_most x) as A.
  destruct (at_most_one_rank _ (Prim2SF_valid _) A) as (N & Hr & _).
  split; [|split; [|split; [|split; [|split]]]].
  - apply leb_rank_le; try assumption; try reflexivity.
    rewrite SF_zero. cbn [rank gval]. lia.
  - apply leb_rank_le; try assumption; try reflexivity.
    rewrite SF_one, rank_SF1. lia.
  - intros Hn. rewrite is_nan_spec in Hn. apply negb_true_iff in Hn.
    apply clampf_low. now left.
  - intros H0 H1. apply leb_true_rank in H0, H1.
    destruct H0 as (_ & Nx & H0), H1 as (_ & _ & H1).
    rewrite SF_zero in H0. cbn [rank gval] in H0. rewrite SF_one, rank_SF1 in H1.
    unfold clampf. cbv zeta.
    rewrite (ltb_rank_ge 1 x) by (rewrite SF_one, rank_SF1; lia).
    destruct (0 <? x)%float eqn:L.
    + apply eqb_rank_eq; auto.
    + apply eqb_rank_eq; try assumption; try reflexivity.
      rewrite ltb_spec in L.
      apply SFltb_false in L; try apply Prim2SF_valid; try assumption; try reflexivity.
      rewrite SF_zero in *. cbn [rank gval] in *. lia.
  - intros L. apply ltb_true_rank in L. destruct L as (Nx & _ & L).
    rewrite SF_zero in L. cbn [rank gval] in L.
    unfold clampf. cbv zeta.
    rewrite (ltb_rank_ge 1 x) by (rewrite SF_one, rank_SF1; pose proof (pow2_pos 1074); lia).
    rewrite (ltb_rank_ge 0 x) by (rewrite SF_zero; cbn [rank gval]; lia).
    reflexivity.
  - intros L. unfold clampf. cbv zeta. rewrite L. reflexivity.
Qed.

(** X17.  On floats, a value beyond [end] (above it when
    [origin < end], below it when [origin > end]) gives red; and the
    examples of the specification for the range from 0.0 to -30.0 come
    out on binary64 as stated: -40.0 red, 5.0 blue, -15.0 the half-way
    colour (127, 127, 0), 0.0 green and -30.0 red. *)
Theorem color_for_gain_outside_on_floats (value origin end_ : float) :
  ((origin <? end_)%float = true -> (end_ <? value)%float = true ->
   Binary64.color_for_gain (PyNum.Float value) (PyNum.Float origin)
     (PyNum.Float end_) = inr RED) /\
  ((end_ <? origin)%float = true -> (value <? end_)%float = true ->
   Binary64.color_for_gain (PyNum.Float value) (PyNum.Float origin)
     (PyNum.Float end_) = inr RED) /\
  Binary64.color_for_gain (PyNum.Float (-40)) (PyNum.Float 0)
    (PyNum.Float (-30)) = inr RED /\
  Binary64.color_for_gain (PyNum.Float 5) (PyNum.Float 0)
    (PyNum.Float (-30)) = inr BLUE /\
  Binary64.color_for_gain (PyNum.Float (-15)) (PyNum.Float 0)
    (PyNum.Float (-30)) = inr (127, 127, 0) /\
  Binary64.color_for_gain (PyNum.Float 0) (PyNum.Float 0)
    (PyNum.Float (-30)) = inr GREEN /\
  Binary64.color_for_gain (PyNum.Float (-30)) (PyNum.Float 0)
    (PyNum.Float (-30)) = inr RED.
Proof.
  split; [|split; [|repeat split; vm_compute; reflexivity]].
  - intros H1 H2. rewrite color_for_gain_floats.
    pose proof (ltb_true_rank _ _ H1) as (? & ? & ?).
    pose proof (ltb_true_rank _ _ H2) as (? & ? & ?).
    rewrite (eqb_rank_ne origin end_) by lia.
    rewrite H1, H2. rewrite (ltb_rank_ge value origin) by lia. reflexivity.
  - intros H1 H2. rewrite color_for_gain_floats.
    pose proof (ltb_true_rank _ _ H1) as (? & ? & ?).
    rewrite (eqb_rank_ne origin end_) by lia.
    rewrite (ltb_asym _ _ H1), H2. reflexivity.
Qed.

End Binary64Facts.

(** The int counterexamples to C7: [float(10**400)] overflows; and
    [2.0**53 - (2**53 + 1)] is [0.0], because the int is rounded to
    [2.0**53] although [2**53 + 1 != 2.0**53]. *)
Lemma color_for_gain_raises_on_ints :
  Binary64.color_for_gain (PyNum.Int 5) (PyNum.Int 0)
    (PyNum.Int (10 ^ 400)) = inl PyNum.OverflowError
  /\ PyNum.eq (PyNum.Int (2 ^ 53 + 1)) (PyNum.Float 0x1p+53) = false
  /\ Binary64.color_for_gain (PyNum.Float 0x1p+53) (PyNum.Int (2 ^ 53 + 1))
       (PyNum.Float 0x1p+53) = inl PyNum.ZeroDivisionError.
Proof. repeat split; vm_compute; reflexivity. Qed.



Lemma color_for_gain_outside_on_floats_witness :
  Binary64.color_for_gain (PyNum.Float 1) (PyNum.Float 0)
    (PyNum.Float 0x1.999999999999ap-2) = inr RED.
Proof.
  exact (proj1 (color_for_gain_outside_on_floats 1 0 0x1.999999999999ap-2)
           ltac:(vm_compute; reflexivity) ltac:(vm_compute; reflexivity)).
Defined.

(** The counterexamples to C4.  At (-24.0, 0.0, -30.0) the code returns
    green 50 where the formula over the reals gives 51: the ratio 0.8 is
    rounded up, [1.0 - ratio] falls below 0.2 and the product below 51.
    And just below [fmax] in the range from [-fmax] to [fmax] both
    differences overflow, the ratio is NaN and the code returns green. *)
Lemma interpolation_rounds_and_overflows :
  Binary64.color_for_gain (PyNum.Float (-24)) (PyNum.Float 0)
    (PyNum.Float (-30)) = inr (204, 50, 0)%Z
  /\ (Py.int (255 * gain_ratio (-24) 0 (-30)),
      Py.int (255 * (1 - gain_ratio (-24) 0 (-30))), 0%Z) = (204, 51, 0)%Z
  /\ strictly_between fmax_pred (- fmax) fmax = true
  /\ is_nan (float_ratio fmax_pred (- fmax) fmax) = true
  /\ Binary64.color_for_gain (PyNum.Float fmax_pred) (PyNum.Float (- fmax))
       (PyNum.Float fmax) = inr GREEN.
Proof. repeat split; vm_compute; reflexivity. Qed.

Lemma color_for_gain_interpolates_on_floats_witness :
  exists r g : Z,
    float_channel (float_ratio (-24) 0 (-30)) = inr r
    /\ float_channel (1 - float_ratio (-24) 0 (-30)) = inr g
    /\ Binary64.color_for_gain (PyNum.Float (-24)) (PyNum.Float 0)
         (PyNum.Float (-30)) = inr (r, g, 0%Z).
Proof.
  exact (proj2 (proj2
           (proj1 (proj2 (proj2
              (color_for_gain_interpolates_on_floats (-24) 0 (-30)
                 ltac:(vm_compute; reflexivity)))
              ltac:(vm_compute; reflexivity))
              ltac:(vm_compute; reflexivity)))).
Defined.

(** ** Dictionaries: facts *)

Module DictFacts.

Section Facts.

Context {V : Type}.
Implicit Types (d : Dict.t V) (k : Z) (v : V).

Lemma get_In d k v : Dict.get k d = Some v -> In (k, v) d.
Proof.
  induction d as [|[k' v'] d IH]; simpl; [discriminate|].
  destruct (Z.eqb_spec k k') as [->|Hk].
  - intros [= ->]. now left.
  - intros H. right. now apply IH.
Qed.

Lemma In_get d k v : Dict.wf d -> In (k, v) d -> Dict.get k d = Some v.
Proof.
  unfold Dict.wf, Dict.keys.
  induction d as [|[k' v'] d IH]; simpl; [contradiction|].
  intros Hnd [[= -> ->] | Hin].
  - now rewrite Z.eqb_refl.
  - inversion Hnd as [|? ? Hk' Hnd']; subst.
    destruct (Z.eqb_spec k k') as [->|Hk].
    + exfalso. apply Hk'. apply (in_map fst) in Hin. exact Hin.
    + now apply IH.
Qed.

Lemma mem_true d k : Dict.mem k d = true <-> In k (Dict.keys d).
Proof.
  unfold Dict.mem, Dict.keys.
  induction d as [|[k' v'] d IH]; simpl.
  - split; [discriminate | contradiction].
  - destruct (Z.eqb_spec k k') as [->|Hk].
    + split; auto.
    + rewrite IH. split; [auto | intros [E|H]; [congruence | exact H]].
Qed.

Lemma mem_false d k : Dict.mem k d = false <-> ~ In k (Dict.keys d).
Proof.
  rewrite <- mem_true. destruct (Dict.mem k d); split; congruence.
Qed.

Lemma mem_get d k : Dict.mem k d = true -> exists v, Dict.get k d = Some v.
Proof.
  unfold Dict.mem. destruct (Dict.get k d) as [v|]; [eauto | discriminate].
Qed.

Lemma get_set_same d k v v0 :
  Dict.get k d = Some v0 -> Dict.get k (Dict.set k v d) = Some v.
Proof.
  induction d as [|[k' v'] d IH]; simpl; [discriminate|].
  destruct (Z.eqb_spec k k') as [->|Hk]; simpl.
  - now rewrite Z.eqb_refl.
  - intros H. destruct (Z.eqb_spec k k'); [contradiction | auto].
Qed.

Lemma get_set_other d k k' v :
  k' <> k -> Dict.get k' (Dict.set k v d) = Dict.get k' d.
Proof.
  intros Hne. induction d as [|[k0 v0] d IH]; simpl.
  - destruct (Z.eqb_spec k' k); [contradiction | reflexivity].
  - destruct (Z.eqb_spec k k0) as [->|Hk]; simpl.
    + destruct (Z.eqb_spec k' k0); [contradiction | reflexivity].
    + destruct (Z.eqb_spec k' k0); [reflexivity | exact IH].
Qed.

(** Assigning to a key that is present keeps whatever of the entries
    the new value shares with the old one. *)
Lemma set_map_same {B : Type} (f : V -> B) d k v v0 :
  Dict.get k d = Some v0 -> f v = f v0 ->
  map (fun kv => (fst kv, f (snd kv))) (Dict.set k v d) =
  map (fun kv => (fst kv, f (snd kv))) d.
Proof.
  intros Hget Hf. induction d as [|[k' v'] d IH]; simpl in *;
    [discriminate|].
  destruct (Z.eqb_spec k k') as [->|Hk]; simpl.
  - injection Hget as ->. now rewrite Hf.
  - f_equal. now apply IH.
Qed.

Lemma set_keys d k v v0 :
  Dict.get k d = Some v0 -> Dict.keys (Dict.set k v d) = Dict.keys d.
Proof.
  intros Hget. unfold Dict.keys.
  pose proof (@set_map_same unit (fun _ => tt) d k v v0 Hget eq_refl) as H.
  apply (f_equal (map fst)) in H. rewrite !map_map in H. exact H.
Qed.

Lemma set_length d k v v0 :
  Dict.get k d = Some v0 ->
  List.length (Dict.set k v d) = List.length d.
Proof.
  intros Hget. apply (@set_keys d k v v0) in Hget.
  apply (f_equal (@List.length Z)) in Hget.
  unfold Dict.keys in Hget. now rewrite !length_map in Hget.
Qed.

Lemma set_wf d k v : Dict.wf d -> Dict.wf (Dict.set k v d).
Proof.
  unfold Dict.wf, Dict.keys.
  induction d as [|[k' v'] d IH]; simpl; intros Hnd.
  - constructor; [intros [] | constructor].
  - inversion Hnd as [|? ? Hk' Hnd']; subst.
    destruct (Z.eqb_spec k k') as [->|Hk]; simpl.
    + now constructor.
    + constructor; [|now apply IH].
      intros Hin. apply Hk'.
      clear - Hin Hk. induction d as [|[k0 v0] d IH]; simpl in *.
      * destruct Hin as [E|[]]. congruence.
      * destruct (Z.eqb_spec k k0) as [->|Hk0]; simpl in *.
        -- destruct Hin as [E|H]; [congruence | now right].
        -- destruct Hin as [E|H]; [now left | right; auto].
Qed.

(** Where the entries of [Dict.set k v d] come from. *)
Lemma In_set d k v k' v' :
  Dict.wf d -> In (k', v') (Dict.set k v d) ->
  (k' = k /\ v' = v) \/ (k' <> k /\ In (k', v') d).
Proof.
  unfold Dict.wf, Dict.keys.
  induction d as [|[k0 v0] d IH]; simpl; intros Hnd.
  - intros [[= <- <-]|[]]. now left.
  - inversion Hnd as [|? ? Hk0 Hnd']; subst.
    destruct (Z.eqb_spec k k0) as [->|Hk]; simpl.
    + intros [[= <- <-]|Hin]; [now left|].
      right. split; [|now right].
      intros ->. apply Hk0. apply (in_map fst) in Hin. exact Hin.
    + intros [[= <- <-]|Hin].
      * right. split; [congruence | now left].
      * destruct (IH Hnd' Hin) as [H|[H1 H2]]; [now left|].
        right. split; [exact H1 | now right].
Qed.

Lemma nth_error_get d i k v :
  Dict.wf d -> nth_error d i = Some (k, v) -> Dict.get k d = Some v.
Proof.
  intros Hwf H. apply In_get; [exact Hwf|].
  eapply nth_error_In. exact H.
Qed.

(** Assigning to the key found at position [i] changes position [i]
    and nothing else. *)
Lemma nth_error_set d i k v v0 j :
  Dict.wf d -> nth_error d i = Some (k, v0) ->
  nth_error (Dict.set k v d) j =
    if Nat.eqb j i then Some (k, v) else nth_error d j.
Proof.
  unfold Dict.wf, Dict.keys. revert i j.
  induction d as [|[k0 w0] d IH]; intros i j Hnd Hi.
  - destruct i; discriminate.
  - inversion Hnd as [|? ? Hk0 Hnd']; subst. simpl.
    destruct i as [|i]; simpl in Hi.
    + injection Hi as -> ->. rewrite Z.eqb_refl.
      destruct j; reflexivity.
    + destruct (Z.eqb_spec k k0) as [->|Hk].
      * exfalso. apply Hk0. apply nth_error_In in Hi.
        apply (in_map fst) in Hi. exact Hi.
      * destruct j as [|j]; simpl; [reflexivity|].
        apply IH; assumption.
Qed.

(** Assigning to a key that is absent appends. *)
Lemma set_fresh d k v :
  ~ In k (Dict.keys d) -> Dict.set k v d = d ++ [(k, v)].
Proof.
  unfold Dict.keys. induction d as [|[k' v'] d IH]; simpl; intros Hk.
  - reflexivity.
  - destruct (Z.eqb_spec k k') as [->|Hne]; [tauto|].
    f_equal. apply IH. tauto.
Qed.

End Facts.

End DictFacts.


(** ** Lists: prefixes and suffixes by position *)

Lemma skipn_agree {A : Type} (l l' : list A) i :
  (forall j, (i <= j)%nat -> nth_error l j = nth_error l' j) ->
  skipn i l = skipn i l'.
Proof.
  intros H. apply nth_error_ext. intros n.
  rewrite !nth_error_skipn. apply H. lia.
Qed.

Lemma skipn_prefix {A : Type} (l1 l2 : list A) :
  skipn (List.length l1) (l1 ++ l2) = l2.
Proof. induction l1 as [|x l1 IH]; simpl; auto. Qed.

Lemma In_firstn_nth {A : Type} (l : list A) i x :
  In x (firstn i l) -> exists j, (j < i)%nat /\ nth_error l j = Some x.
Proof.
  intros Hin. destruct (In_nth_error _ _ Hin) as [j Hj].
  rewrite nth_error_firstn in Hj.
  destruct (Nat.ltb_spec j i); [|discriminate]. eauto.
Qed.

Lemma nth_error_middle {A : Type} (l1 l2 : list A) x :
  nth_error (l1 ++ x :: l2) (List.length l1) = Some x.
Proof. induction l1 as [|y l1 IH]; simpl; auto. Qed.

(** ** Bindings: facts *)

Ltac distinct_literals :=
  repeat (constructor;
          [simpl; intros H;
           repeat (destruct H as [H|H]; [discriminate H|]); exact H|]);
  constructor.

(** The configuration in the source is well formed: its keys are
    distinct, as in any dictionary, and so are its indicators. *)
Lemma STRIP_CONFIG_wf : config_wf STRIP_CONFIG.
Proof. split; unfold Dict.wf; simpl; distinct_literals. Qed.

Lemma NoDup_map_injective {A B : Type} (f : A -> B) (l : list A) a b :
  NoDup (map f l) -> In a l -> In b l -> f a = f b -> a = b.
Proof.
  induction l as [|x l IH]; simpl; [contradiction|].
  intros Hnd Ha Hb E. inversion Hnd as [|? ? Hx Hnd']; subst.
  destruct Ha as [->|Ha], Hb as [->|Hb]; auto.
  - exfalso. apply Hx. rewrite E. now apply in_map.
  - exfalso. apply Hx. rewrite <- E. now apply in_map.
Qed.

Lemma bindings_keys d : map fst (bindings d) = Dict.keys d.
Proof. unfold bindings, Dict.keys. rewrite map_map. reflexivity. Qed.

Lemma bindings_leds d :
  map (fun b => snd (fst (fst (snd b)))) (bindings d)
  = map led_id (Dict.values d).
Proof.
  unfold bindings, Dict.values. rewrite !map_map. reflexivity.
Qed.

Lemma bindings_wf d d' : bindings d' = bindings d -> Dict.wf d -> Dict.wf d'.
Proof.
  unfold Dict.wf. intros E. rewrite <- !bindings_keys, E. auto.
Qed.

Lemma bindings_leds_distinct d d' :
  bindings d' = bindings d -> leds_distinct d -> leds_distinct d'.
Proof.
  unfold leds_distinct. intros E. rewrite <- !bindings_leds, E. auto.
Qed.

Lemma bindings_length d d' :
  bindings d' = bindings d -> List.length d' = List.length d.
Proof.
  intros E. apply (f_equal (@List.length _)) in E.
  unfold bindings in E. now rewrite !length_map in E.
Qed.

Lemma bindings_set d k p p' :
  Dict.get k d = Some p -> binding_of p' = binding_of p ->
  bindings (Dict.set k p' d) = bindings d.
Proof. intros Hget E. apply (DictFacts.set_map_same binding_of _ _ _ _ Hget E). Qed.

Lemma leds_apart d k p k' p' :
  leds_distinct d -> In (k, p) d -> In (k', p') d -> k' <> k ->
  led_id p' <> led_id p.
Proof.
  unfold leds_distinct, Dict.values. rewrite map_map.
  intros Hnd Hin Hin' Hne E. apply Hne.
  pose proof (NoDup_map_injective (fun x => led_id (snd x)) _ _ _
                Hnd Hin' Hin E) as H.
  congruence.
Qed.

(** ** The engine: facts *)

Lemma since_app {Mixer Sdk : Type} (st st' : state Mixer Sdk) evs :
  trace st' = evs ++ trace st -> since st st' = evs.
Proof.
  intros E. unfold since. rewrite E, length_app.
  replace (List.length evs + List.length (trace st) - List.length (trace st))%nat
    with (List.length evs + 0)%nat by lia.
  rewrite firstn_app_2. simpl. apply app_nil_r.
Qed.

Lemma last_pushed_same led dev r g b a tr :
  last_pushed led (EvSetLedColors dev [LedColor led r g b a] :: tr)
  = Some (r, g, b).
Proof. simpl. now rewrite Z.eqb_refl. Qed.

Lemma last_pushed_other led led' dev r g b a tr :
  led' <> led ->
  last_pushed led' (EvSetLedColors dev [LedColor led r g b a] :: tr)
  = last_pushed led' tr.
Proof.
  intros Hne. simpl.
  destruct (Z.eqb_spec led led'); [congruence | reflexivity].
Qed.

Section EngineFacts.

Context {Mixer Sdk : Type}.
Variable vm_getattr : Mixer -> Z -> string -> Py.result Py.value.
Variable vm_setattr :
  Mixer -> Z -> string -> Py.value -> Py.result unit * Mixer.
Variable sdk_set_led_colors :
  Sdk -> string -> list CorsairLedColor -> Py.result unit * Sdk.

Local Abbreviation state := (state Mixer Sdk).
Local Abbreviation after_push := (after_push sdk_set_led_colors).
Local Abbreviation set_color := (set_color (Mixer := Mixer) sdk_set_led_colors).
Local Abbreviation toggle_strip := (toggle_strip vm_setattr sdk_set_led_colors).
Local Abbreviation check_updates := (check_updates vm_getattr sdk_set_led_colors).
Local Abbreviation initialize_leds :=
  (initialize_leds (Mixer := Mixer) sdk_set_led_colors).
Local Abbreviation ParameterObserver_init :=
  (ParameterObserver_init (Sdk := Sdk) vm_getattr).
Local Abbreviation startup := (startup vm_getattr sdk_set_led_colors).
Local Abbreviation step := (step vm_getattr vm_setattr sdk_set_led_colors).
Local Abbreviation run := (run vm_getattr vm_setattr sdk_set_led_colors).
Local Abbreviation reconciled := (reconciled vm_getattr).
Local Abbreviation readable := (readable vm_getattr).

Implicit Types (st : state) (p : param) (v : Py.value) (c : color).

(** *** Requesting a colour *)

Lemma after_push_vm led c st : vm (after_push led c st) = vm st.
Proof.
  unfold after_push. destruct c as [[r g] b].
  destruct (sdk_set_led_colors _ _ _) as [[e|[]] k]; reflexivity.
Qed.

Lemma after_push_params led c st :
  monitored_params (after_push led c st) = monitored_params st.
Proof.
  unfold after_push. destruct c as [[r g] b].
  destruct (sdk_set_led_colors _ _ _) as [[e|[]] k]; reflexivity.
Qed.

Lemma after_push_trace led r g b st :
  exists tl,
    trace (after_push led (r, g, b) st) =
      tl ++ EvSetLedColors (device_id (lighting_controller st))
              [LedColor led r g b 255] :: trace st
    /\ (tl = []
        \/ exists e,
             fst (sdk_set_led_colors (sdk (lighting_controller st))
                    (device_id (lighting_controller st))
                    [LedColor led r g b 255]) = inl e
             /\ tl = [EvPrint (MsgLedError led e)]).
Proof.
  unfold after_push.
  destruct (sdk_set_led_colors _ _ _) as [[e|[]] k]; simpl.
  - exists [EvPrint (MsgLedError led e)]. split; [reflexivity|].
    right. exists e. split; reflexivity.
  - exists []. split; [reflexivity | now left].
Qed.

Lemma after_push_last_same led c st :
  last_pushed led (trace (after_push led c st)) = Some c.
Proof.
  destruct c as [[r g] b].
  destruct (after_push_trace led r g b st) as (tl & -> & [->|(e & _ & ->)]);
    simpl; now rewrite Z.eqb_refl.
Qed.

Lemma after_push_last_other led led' c st :
  led' <> led ->
  last_pushed led' (trace (after_push led c st)) =
  last_pushed led' (trace st).
Proof.
  intros Hne. destruct c as [[r g] b].
  destruct (after_push_trace led r g b st) as (tl & -> & [->|(e & _ & ->)]);
    simpl; destruct (Z.eqb_spec led led'); congruence.
Qed.

Lemma after_push_no_write led c st :
  exists evs, trace (after_push led c st) = evs ++ trace st
              /\ filter is_setattr evs = [].
Proof.
  destruct c as [[r g] b].
  destruct (after_push_trace led r g b st) as (tl & E & [->|(e & _ & ->)]);
    rewrite E.
  - exists [EvSetLedColors (device_id (lighting_controller st))
              [LedColor led r g b 255]]. split; reflexivity.
  - exists [EvPrint (MsgLedError led e);
            EvSetLedColors (device_id (lighting_controller st))
              [LedColor led r g b 255]]. split; reflexivity.
Qed.

Lemma chosen_color_returns s g gr : exists c, chosen_color s g gr = inr c.
Proof.
  unfold chosen_color.
  destruct g as [g|]; [|eauto].
  destruct gr as [[|o [|e [|? ?]]]|]; eauto.
  destruct (color_for_gain_returns (Py.to_num g) o e) as (c & -> & _).
  eauto.
Qed.

(** [set_color] never raises: a failure of the SDK is caught and
    printed. *)
Lemma set_color_run led s g gr st c :
  chosen_color s g gr = inr c ->
  set_color led s g gr st = (inr tt, after_push led c st).
Proof.
  unfold chosen_color, set_color, bind, after_push, try_except,
    set_led_colors, print, lift, ret.
  intros H.
  destruct g as [g|]; [destruct gr as [[|o [|e [|? ?]]]|]|];
    try rewrite H; try (injection H as <-);
    try (destruct s as [s|]; [destruct (Py.truthy s)|]);
    try destruct c as [[r g'] b]; simpl;
    destruct (sdk_set_led_colors _ _ _) as [[e'|[]] k]; reflexivity.
Qed.


(** *** Loops over the items *)

Lemma for_items_from_rule
    (P : nat -> state -> Prop) (E : nat -> Py.exn -> state -> Prop)
    (body : Z -> param -> M Mixer Sdk unit) :
  (forall i st vk p,
      P i st -> nth_error (monitored_params st) i = Some (vk, p) ->
      match body vk p st with
      | (inr _, st') => P (S i) st'
      | (inl e, st') => E i e st'
      end) ->
  forall rounds i st, P i st ->
    match for_items_from rounds i body st with
    | (inr _, st') =>
        exists j, P j st'
          /\ (j = i + rounds
              \/ (i <= j /\ nth_error (monitored_params st') j = None))%nat
    | (inl e, st') => exists j, (i <= j < i + rounds)%nat /\ E j e st'
    end.
Proof.
  intros Hbody. induction rounds as [|rounds IH]; intros i st HP; simpl.
  - exists i. split; [exact HP | left; lia].
  - unfold Dict.items.
    destruct (nth_error (monitored_params st) i) as [[vk p]|] eqn:Hi.
    + specialize (Hbody i st vk p HP Hi). unfold bind.
      destruct (body vk p st) as [[e|[]] st1].
      * exists i. split; [lia | exact Hbody].
      * specialize (IH (S i) st1 Hbody).
        destruct (for_items_from rounds (S i) body st1) as [[e|[]] st2].
        -- destruct IH as (j & Hj & HE). exists j. split; [lia | exact HE].
        -- destruct IH as (j & HPj & Hj). exists j. split; [exact HPj|].
           destruct Hj as [->|[Hle Hn]]; [left; lia | right; split; [lia | exact Hn]].
    + exists i. split; [exact HP | right; split; [lia | exact Hi]].
Qed.

Lemma for_items_preserves (I : state -> Prop)
    (body : Z -> param -> M Mixer Sdk unit) :
  (forall i st vk p,
      I st -> nth_error (monitored_params st) i = Some (vk, p) ->
      I (snd (body vk p st))) ->
  forall st, I st -> I (snd (for_items body st)).
Proof.
  intros Hbody st HI. unfold for_items.
  pose proof (@for_items_from_rule (fun _ => I) (fun _ _ => I) body) as R.
  specialize (R (fun i st vk p H1 H2 =>
    match body vk p st as x return I (snd x) ->
      match x with (inr _, st') => I st' | (inl _, st') => I st' end
    with (inl _, _) => fun h => h | (inr _, _) => fun h => h end
    (Hbody i st vk p H1 H2))).
  specialize (R (List.length (Dict.items (monitored_params st))) 0%nat st HI).
  destruct (for_items_from _ _ _ _) as [[e|[]] st']; simpl.
  - destruct R as (j & _ & H). exact H.
  - destruct R as (j & H & _). exact H.
Qed.

(** *** One toggle *)

Lemma toggle_strip_unknown vk st :
  Dict.mem vk (monitored_params st) = false ->
  toggle_strip vk st = (inr tt, st).
Proof. intros H. unfold toggle_strip. now rewrite H. Qed.

Lemma ColorMapper_chosen_gain p v origin end_ :
  is_gain p = true -> rng p = Some [origin; end_] ->
  chosen_color None (Some v) (rng p) = ColorMapper (with_cur_val v p).
Proof. intros Hg Hr. unfold ColorMapper. simpl. now rewrite Hg, Hr. Qed.

Lemma ColorMapper_chosen_bool p v :
  is_boolean_binding p ->
  chosen_color (Some v) None None = ColorMapper (with_cur_val v p).
Proof.
  unfold is_boolean_binding, ColorMapper, colorForBoolean. simpl.
  destruct (is_gain p); [|reflexivity].
  destruct (rng p) as [[|o [|e [|? ?]]]|]; try reflexivity. contradiction.
Qed.

Lemma ColorMapper_returns p : exists c, ColorMapper p = inr c.
Proof.
  unfold ColorMapper.
  destruct (is_gain p); [|eauto].
  destruct (rng p) as [[|o [|e [|? ?]]]|]; eauto.
  destruct (color_for_gain_returns (Py.to_num (cur_val p)) o e)
    as (c & -> & _). eauto.
Qed.

Lemma kind_cases p :
  (exists origin end_, is_gain p = true /\ rng p = Some [origin; end_])
  \/ is_boolean_binding p.
Proof.
  unfold is_boolean_binding.
  destruct (is_gain p); [|now right].
  destruct (rng p) as [[|o [|e [|? ?]]]|]; try now right.
  left. eauto.
Qed.

Lemma toggle_strip_raise vk p st e m :
  Dict.get vk (monitored_params st) = Some p ->
  vm_setattr (vm st) (s_idx p) (p_name p) (toggled p) = (inl e, m) ->
  toggle_strip vk st =
    (inl e, with_vm m (record (EvSetattr (s_idx p) (p_name p) (toggled p)) st)).
Proof.
  intros Hget Hset. unfold toggle_strip, Dict.mem, getitem, bind.
  rewrite Hget. simpl. unfold toggled in *.
  destruct (kind_cases p) as [(o & e' & Hg & Hr)|Hb].
  - rewrite Hg, Hr in *. unfold setattr, bind. simpl. now rewrite Hset.
  - unfold is_boolean_binding in Hb.
    destruct (is_gain p); [destruct (rng p) as [[|o [|e' [|? ?]]]|]|];
      try contradiction; unfold setattr, bind; simpl; now rewrite Hset.
Qed.

Lemma toggle_strip_done vk p st m :
  Dict.get vk (monitored_params st) = Some p ->
  vm_setattr (vm st) (s_idx p) (p_name p) (toggled p) = (inr tt, m) ->
  exists c msg,
    ColorMapper (with_cur_val (toggled p) p) = inr c
    /\ toggle_strip vk st =
       (inr tt,
        with_monitored_params
          (Dict.set vk (with_cur_val (toggled p) p) (monitored_params st))
          (record (EvPrint msg)
             (after_push (led_id p) c
                (with_vm m
                   (record (EvSetattr (s_idx p) (p_name p) (toggled p))
                           st))))).
Proof.
  intros Hget Hset.
  destruct (ColorMapper_returns (with_cur_val (toggled p) p)) as [c Hc].
  exists c.
  destruct (kind_cases p) as [(o & e' & Hg & Hr)|Hb].
  - exists (MsgToggleGain vk (p_name p) (toggled p)). split; [exact Hc|].
    rewrite <- (ColorMapper_chosen_gain _ _ _ _ Hg Hr) in Hc.
    unfold toggle_strip, Dict.mem, getitem, bind.
    rewrite Hget. simpl. unfold toggled in *. rewrite Hg, Hr in *.
    unfold setattr at 1. simpl. rewrite Hset.
    erewrite set_color_run by exact Hc. unfold print, ret, setitem. simpl.
    rewrite after_push_params. unfold with_cur_val. simpl.
    rewrite ?Hg, ?Hr. reflexivity.
  - exists (MsgToggleBool vk (p_name p) (toggled p)). split; [exact Hc|].
    rewrite <- (ColorMapper_chosen_bool _ _ Hb) in Hc.
    unfold toggle_strip, Dict.mem, getitem, bind.
    rewrite Hget. simpl. unfold toggled in *.
    unfold is_boolean_binding in Hb.
    destruct (is_gain p) eqn:Hg;
      [destruct (rng p) as [[|o [|e' [|? ?]]]|] eqn:Hr|];
      try contradiction;
      unfold setattr at 1; simpl; rewrite Hset;
      erewrite set_color_run by exact Hc; unfold print, ret, setitem; simpl;
      rewrite after_push_params; unfold with_cur_val; simpl;
      rewrite ?Hg, ?Hr; reflexivity.
Qed.


(** *** One round of a poll *)

Lemma check_updates_body_raise vk p st e :
  vm_getattr (vm st) (s_idx p) (p_name p) = inl e ->
  check_updates_body vm_getattr sdk_set_led_colors vk p st = (inl e, st).
Proof.
  intros H. unfold check_updates_body, bind, getattr. now rewrite H.
Qed.

Lemma check_updates_body_same vk p st cur :
  vm_getattr (vm st) (s_idx p) (p_name p) = inr cur ->
  Py.eq cur (cur_val p) = true ->
  check_updates_body vm_getattr sdk_set_led_colors vk p st = (inr tt, st).
Proof.
  intros H E. unfold check_updates_body, bind, getattr.
  rewrite H, E. reflexivity.
Qed.

Lemma check_updates_body_changed vk p st cur :
  vm_getattr (vm st) (s_idx p) (p_name p) = inr cur ->
  Py.eq cur (cur_val p) = false ->
  exists c msg,
    ColorMapper (with_cur_val cur p) = inr c
    /\ check_updates_body vm_getattr sdk_set_led_colors vk p st =
       (inr tt,
        with_monitored_params
          (Dict.set vk (with_cur_val cur p) (monitored_params st))
          (record (EvPrint msg) (after_push (led_id p) c st))).
Proof.
  intros H E.
  destruct (ColorMapper_returns (with_cur_val cur p)) as [c Hc].
  exists c.
  destruct (kind_cases p) as [(o & e' & Hg & Hr)|Hb].
  - exists (MsgExtGain vk (p_name p) cur). split; [exact Hc|].
    rewrite <- (ColorMapper_chosen_gain _ _ _ _ Hg Hr) in Hc.
    unfold check_updates_body, bind, getattr. rewrite H, E. simpl.
    rewrite Hg, Hr. rewrite Hr in Hc.
    erewrite set_color_run by exact Hc. unfold print, setitem. simpl.
    rewrite after_push_params. unfold with_cur_val. simpl.
    rewrite ?Hg, ?Hr. reflexivity.
  - exists (MsgExtToggle vk (p_name p) cur). split; [exact Hc|].
    rewrite <- (ColorMapper_chosen_bool _ _ Hb) in Hc.
    unfold check_updates_body, bind, getattr. rewrite H, E. simpl.
    unfold is_boolean_binding in Hb.
    destruct (is_gain p) eqn:Hg;
      [destruct (rng p) as [[|o [|e' [|? ?]]]|] eqn:Hr|];
      try contradiction;
      erewrite set_color_run by exact Hc; unfold print, setitem; simpl;
      rewrite after_push_params; unfold with_cur_val; simpl;
      rewrite ?Hg, ?Hr; reflexivity.
Qed.

(** *** One round of [initialize_leds] *)

Lemma initialize_leds_body_run vk p st :
  exists c,
    ColorMapper p = inr c
    /\ initialize_leds_body sdk_set_led_colors vk p st =
       (inr tt,
        record (EvPrint (MsgInit vk (s_idx p) (p_name p) (cur_val p)))
               (after_push (led_id p) c st)).
Proof.
  destruct (ColorMapper_returns p) as [c Hc]. exists c. split; [exact Hc|].
  assert (Ep : with_cur_val (cur_val p) p = p) by (now destruct p).
  destruct (kind_cases p) as [(o & e' & Hg & Hr)|Hb].
  - rewrite <- Ep in Hc at 1.
    rewrite <- (ColorMapper_chosen_gain _ _ _ _ Hg Hr) in Hc.
    unfold initialize_leds_body, bind. rewrite Hg, Hr. rewrite Hr in Hc.
    erewrite set_color_run by exact Hc. reflexivity.
  - rewrite <- Ep in Hc at 1.
    rewrite <- (ColorMapper_chosen_bool _ _ Hb) in Hc.
    unfold initialize_leds_body, bind.
    unfold is_boolean_binding in Hb.
    destruct (is_gain p) eqn:Hg;
      [destruct (rng p) as [[|o [|e' [|? ?]]]|] eqn:Hr|];
      try contradiction;
      erewrite set_color_run by exact Hc; reflexivity.
Qed.


(** *** Keeping the indicators in step *)

Lemma in_sync_same st st1 :
  monitored_params st1 = monitored_params st ->
  (forall led, last_pushed led (trace st1) = last_pushed led (trace st)) ->
  in_sync st -> in_sync st1.
Proof.
  intros Ep Et H vk p Hin. rewrite Ep in Hin.
  destruct (H vk p Hin) as (c & Hc & Hl). exists c. now rewrite Et.
Qed.

Lemma in_sync_update st st1 vk p v c :
  Dict.wf (monitored_params st) -> leds_distinct (monitored_params st) ->
  in_sync st ->
  Dict.get vk (monitored_params st) = Some p ->
  ColorMapper (with_cur_val v p) = inr c ->
  last_pushed (led_id p) (trace st1) = Some c ->
  (forall led, led <> led_id p ->
     last_pushed led (trace st1) = last_pushed led (trace st)) ->
  monitored_params st1 = Dict.set vk (with_cur_val v p) (monitored_params st) ->
  in_sync st1.
Proof.
  intros Hwf Hleds Hsync Hget Hc Hsame Hother Ep k' p' Hin.
  rewrite Ep in Hin.
  destruct (DictFacts.In_set _ _ _ _ _ Hwf Hin) as [[-> ->]|[Hne Hin']].
  - exists c. split; [exact Hc | exact Hsame].
  - destruct (Hsync k' p' Hin') as (c' & Hc' & Hl). exists c'.
    split; [exact Hc'|]. rewrite Hother; [exact Hl|].
    apply (leds_apart _ _ _ _ _ Hleds (DictFacts.get_In _ _ _ Hget) Hin' Hne).
Qed.

(** The state a completed toggle or a round of a poll that saw a change
    leaves: colour pushed, line printed, entry replaced. *)
Lemma in_sync_pushed st0 st vk p v c msg :
  Dict.wf (monitored_params st) -> leds_distinct (monitored_params st) ->
  in_sync st ->
  Dict.get vk (monitored_params st) = Some p ->
  ColorMapper (with_cur_val v p) = inr c ->
  monitored_params st0 = monitored_params st ->
  (forall led, last_pushed led (trace st0) = last_pushed led (trace st)) ->
  in_sync
    (with_monitored_params
       (Dict.set vk (with_cur_val v p) (monitored_params st))
       (record (EvPrint msg) (after_push (led_id p) c st0))).
Proof.
  intros Hwf Hleds Hsync Hget Hc Ep Et.
  apply (in_sync_update st _ vk p v c);
    try assumption; simpl.
  - apply after_push_last_same.
  - intros led Hne. rewrite after_push_last_other by exact Hne. apply Et.
  - reflexivity.
Qed.

Lemma toggle_strip_bindings vk st :
  bindings (monitored_params (snd (toggle_strip vk st)))
  = bindings (monitored_params st).
Proof.
  destruct (Dict.mem vk (monitored_params st)) eqn:Hm.
  - destruct (DictFacts.mem_get _ _ Hm) as [p Hget].
    destruct (vm_setattr (vm st) (s_idx p) (p_name p) (toggled p))
      as [[e|[]] m] eqn:Hset.
    + rewrite (toggle_strip_raise _ _ _ _ _ Hget Hset). reflexivity.
    + destruct (toggle_strip_done _ _ _ _ Hget Hset) as (c & msg & _ & ->).
      simpl. apply (bindings_set _ _ _ _ Hget). reflexivity.
  - rewrite (toggle_strip_unknown _ _ Hm). reflexivity.
Qed.

Lemma toggle_strip_in_sync vk st :
  Dict.wf (monitored_params st) -> leds_distinct (monitored_params st) ->
  in_sync st -> in_sync (snd (toggle_strip vk st)).
Proof.
  intros Hwf Hleds Hsync.
  destruct (Dict.mem vk (monitored_params st)) eqn:Hm.
  - destruct (DictFacts.mem_get _ _ Hm) as [p Hget].
    destruct (vm_setattr (vm st) (s_idx p) (p_name p) (toggled p))
      as [[e|[]] m] eqn:Hset.
    + rewrite (toggle_strip_raise _ _ _ _ _ Hget Hset). simpl.
      apply (in_sync_same st); [reflexivity | reflexivity | exact Hsync].
    + destruct (toggle_strip_done _ _ _ _ Hget Hset) as (c & msg & Hc & ->).
      simpl. apply in_sync_pushed; auto.
  - rewrite (toggle_strip_unknown _ _ Hm). exact Hsync.
Qed.

Lemma check_updates_body_bindings vk p st :
  Dict.get vk (monitored_params st) = Some p ->
  bindings (monitored_params
              (snd (check_updates_body vm_getattr sdk_set_led_colors vk p st)))
  = bindings (monitored_params st).
Proof.
  intros Hget.
  destruct (vm_getattr (vm st) (s_idx p) (p_name p)) as [e|cur] eqn:Hread.
  - now rewrite (check_updates_body_raise vk _ _ _ Hread).
  - destruct (Py.eq cur (cur_val p)) eqn:E.
    + now rewrite (check_updates_body_same vk _ _ _ Hread E).
    + destruct (check_updates_body_changed vk _ _ _ Hread E)
        as (c & msg & _ & ->).
      simpl. apply (bindings_set _ _ _ _ Hget). reflexivity.
Qed.

Lemma check_updates_body_in_sync vk p st :
  Dict.wf (monitored_params st) -> leds_distinct (monitored_params st) ->
  Dict.get vk (monitored_params st) = Some p ->
  in_sync st ->
  in_sync (snd (check_updates_body vm_getattr sdk_set_led_colors vk p st)).
Proof.
  intros Hwf Hleds Hget Hsync.
  destruct (vm_getattr (vm st) (s_idx p) (p_name p)) as [e|cur] eqn:Hread.
  - now rewrite (check_updates_body_raise vk _ _ _ Hread).
  - destruct (Py.eq cur (cur_val p)) eqn:E.
    + now rewrite (check_updates_body_same vk _ _ _ Hread E).
    + destruct (check_updates_body_changed vk _ _ _ Hread E)
        as (c & msg & Hc & ->).
      simpl. apply in_sync_pushed; auto.
Qed.

(** What every poll keeps: the bindings, and with them the shape of the
    dictionary, and the indicators in step. *)
Lemma check_updates_keeps st :
  Dict.wf (monitored_params st) ->
  bindings (monitored_params (snd (check_updates st)))
  = bindings (monitored_params st)
  /\ (leds_distinct (monitored_params st) ->
      in_sync st -> in_sync (snd (check_updates st))).
Proof.
  intros Hwf. unfold check_updates.
  pose (I := fun s : state =>
    bindings (monitored_params s) = bindings (monitored_params st)
    /\ (leds_distinct (monitored_params st) -> in_sync st -> in_sync s)).
  assert (HI : I (snd (for_items
                         (check_updates_body vm_getattr sdk_set_led_colors)
                         st))).
  { apply for_items_preserves; [|split; auto].
    intros i s vk p [Hb Hs] Hi.
    assert (Hwf' : Dict.wf (monitored_params s))
      by (apply (bindings_wf _ _ Hb); exact Hwf).
    pose proof (DictFacts.nth_error_get _ _ _ _ Hwf' Hi) as Hget.
    split.
    - rewrite (check_updates_body_bindings _ _ _ Hget). exact Hb.
    - intros Hleds H0. apply check_updates_body_in_sync; auto.
      apply (bindings_leds_distinct _ _ Hb); exact Hleds. }
  exact HI.
Qed.


(** *** Construction *)

Lemma configured_keys config : map fst (configured config) = Dict.keys config.
Proof. unfold configured, Dict.keys. rewrite map_map. reflexivity. Qed.


Lemma init_loop config :
  forall st,
    (forall vk (c : config_entry), In (vk, c) config ->
       exists v, vm_getattr (vm st) (cfg_s_idx c) (cfg_p_name c) = inr v) ->
    NoDup (Dict.keys (monitored_params st) ++ Dict.keys config) ->
    exists st',
      for_each (Dict.items config) (ParameterObserver_init_body vm_getattr) st
      = (inr tt, st')
      /\ vm st' = vm st
      /\ lighting_controller st' = lighting_controller st
      /\ trace st' = trace st
      /\ bindings (monitored_params st')
         = bindings (monitored_params st) ++ configured config.
Proof.
  induction config as [|[vk c] config IH]; intros st Hread Hnd; simpl.
  - exists st. rewrite app_nil_r. auto.
  - destruct (Hread vk c (or_introl eq_refl)) as [v Hv].
    unfold bind at 1, ParameterObserver_init_body at 1, bind, getattr.
    rewrite Hv. simpl.
    set (p := Param (cfg_s_idx c) (cfg_p_name c) v (cfg_led_id c)
                    (cfg_is_gain c) (cfg_rng c)).
    assert (Hfresh : ~ In vk (Dict.keys (monitored_params st))).
    { intros Hin. simpl in Hnd. apply NoDup_remove_2 in Hnd.
      apply Hnd. apply in_or_app. now left. }
    rewrite (DictFacts.set_fresh _ _ p Hfresh).
    set (st1 := with_monitored_params (monitored_params st ++ [(vk, p)]) st).
    destruct (IH st1) as (st' & Hrun & Hvm & Hlc & Htr & Hb).
    + intros vk' c' Hin. apply (Hread vk' c'). now right.
    + simpl. unfold Dict.keys in *. rewrite map_app. simpl.
      rewrite <- app_assoc. simpl. simpl in Hnd. exact Hnd.
    + exists st'. split; [exact Hrun|]. repeat split; try assumption.
      rewrite Hb. simpl. unfold bindings. rewrite map_app, <- app_assoc.
      reflexivity.
Qed.

Lemma ParameterObserver_init_run config st :
  Dict.wf config ->
  (forall vk (c : config_entry), In (vk, c) config ->
     exists v, vm_getattr (vm st) (cfg_s_idx c) (cfg_p_name c) = inr v) ->
  exists st',
    ParameterObserver_init config st = (inr tt, st')
    /\ vm st' = vm st
    /\ lighting_controller st' = lighting_controller st
    /\ trace st' = trace st
    /\ bindings (monitored_params st') = configured config.
Proof.
  intros Hwf Hread. unfold ParameterObserver_init, bind.
  destruct (init_loop config (with_monitored_params Dict.empty st))
    as (st' & Hrun & H); [exact Hread | exact Hwf |].
  exists st'. split; [exact Hrun | exact H].
Qed.

(** *** Lighting every indicator *)



(** *** Sequences of operations *)

Lemma step_keeps o st :
  Dict.wf (monitored_params st) ->
  bindings (monitored_params (step o st)) = bindings (monitored_params st)
  /\ (leds_distinct (monitored_params st) ->
      in_sync st -> in_sync (step o st)).
Proof.
  intros Hwf. destruct o as [vk| |m k]; simpl.
  - split; [apply toggle_strip_bindings|].
    intros Hleds. now apply toggle_strip_in_sync.
  - now apply check_updates_keeps.
  - split; [reflexivity|]. intros _ H. exact H.
Qed.

Lemma run_keeps ops :
  forall st,
    Dict.wf (monitored_params st) ->
    bindings (monitored_params (run ops st)) = bindings (monitored_params st)
    /\ (leds_distinct (monitored_params st) ->
        in_sync st -> in_sync (run ops st)).
Proof.
  induction ops as [|o ops IH]; intros st Hwf; simpl.
  - split; [reflexivity | auto].
  - destruct (step_keeps o st Hwf) as [Hb Hs].
    destruct (IH (step o st)) as [Hb' Hs'].
    { apply (bindings_wf _ _ Hb); exact Hwf. }
    split; [now rewrite Hb', Hb|].
    intros Hleds H. apply Hs'.
    + apply (bindings_leds_distinct _ _ Hb); exact Hleds.
    + now apply Hs.
Qed.


Lemma configured_wf config d :
  Dict.wf config -> bindings d = configured config -> Dict.wf d.
Proof.
  unfold Dict.wf. intros Hwf E.
  rewrite <- bindings_keys, E, configured_keys. exact Hwf.
Qed.


Lemma initialize_leds_params st :
  monitored_params (snd (initialize_leds st)) = monitored_params st.
Proof.
  unfold initialize_leds.
  apply (for_items_preserves
           (fun s => monitored_params s = monitored_params st));
    [|reflexivity].
  intros i s vk p Hs _.
  destruct (initialize_leds_body_run vk p s) as (c & _ & ->). simpl.
  rewrite after_push_params. exact Hs.
Qed.


(** A toggle whose write the mixer accepts. *)
Lemma toggle_strip_accepted vk p st m :
  Dict.get vk (monitored_params st) = Some p ->
  vm_setattr (vm st) (s_idx p) (p_name p) (toggled p) = (inr tt, m) ->
  exists st1 evs c,
    toggle_strip vk st = (inr tt, st1)
    /\ vm st1 = m
    /\ trace st1 = evs ++ trace st
    /\ filter is_setattr evs = [EvSetattr (s_idx p) (p_name p) (toggled p)]
    /\ Dict.get vk (monitored_params st1)
       = Some (with_cur_val (toggled p) p)
    /\ ColorMapper (with_cur_val (toggled p) p) = inr c
    /\ last_pushed (led_id p) (trace st1) = Some c.
Proof.
  intros Hget Hset.
  destruct (toggle_strip_done vk p st m Hget Hset) as (c & msg & Hc & Hrun).
  set (st0 := with_vm m
                (record (EvSetattr (s_idx p) (p_name p) (toggled p)) st)).
  destruct (after_push_no_write (led_id p) c st0) as (evs & Htr & Hnw).
  exists (with_monitored_params
            (Dict.set vk (with_cur_val (toggled p) p) (monitored_params st))
            (record (EvPrint msg) (after_push (led_id p) c st0))).
  exists (EvPrint msg
            :: evs ++ [EvSetattr (s_idx p) (p_name p) (toggled p)]).
  exists c. split; [exact Hrun|].
  split; [simpl; apply after_push_vm|].
  split.
  { simpl. rewrite Htr. subst st0. simpl.
    now rewrite <- app_assoc. }
  split; [simpl; rewrite filter_app, Hnw; reflexivity|].
  split; [simpl; apply (DictFacts.get_set_same _ _ _ _ Hget)|].
  split; [exact Hc|].
  simpl. apply after_push_last_same.
Qed.

Lemma toggled_gain p origin end_ :
  is_gain p = true -> rng p = Some [origin; end_] ->
  toggled p = if Py.eq (cur_val p) (Py.VFloat end_)
              then Py.VFloat origin else Py.VFloat end_.
Proof. intros Hg Hr. unfold toggled. now rewrite Hg, Hr. Qed.

Lemma toggled_boolean p :
  is_boolean_binding p ->
  toggled p = Py.VBool (negb (Py.truthy (cur_val p))).
Proof.
  unfold is_boolean_binding, toggled.
  destruct (is_gain p); [|reflexivity].
  destruct (rng p) as [[|o [|e [|? ?]]]|]; try reflexivity. contradiction.
Qed.

Lemma is_boolean_with_cur_val v p :
  is_boolean_binding p -> is_boolean_binding (with_cur_val v p).
Proof. unfold is_boolean_binding. simpl. auto. Qed.

Lemma ColorMapper_boolean p :
  is_boolean_binding p -> ColorMapper p = inr (colorForBoolean (cur_val p)).
Proof.
  unfold is_boolean_binding, ColorMapper.
  destruct (is_gain p); [|reflexivity].
  destruct (rng p) as [[|o [|e [|? ?]]]|]; try reflexivity. contradiction.
Qed.

Lemma with_cur_val_twice v w p :
  with_cur_val v (with_cur_val w p) = with_cur_val v p.
Proof. reflexivity. Qed.

Lemma eq_refl_float q : Py.eq (Py.VFloat q) (Py.VFloat q) = true.
Proof. unfold Py.eq. apply Qeq_bool_iff. reflexivity. Qed.

(** *** What a poll gets done *)

Lemma eq_refl_value v : Py.eq v v = true.
Proof. unfold Py.eq. apply Qeq_bool_iff. reflexivity. Qed.

(** A poll reads the bindings in order.  It returns when every read
    returned, and then every stored value agrees with the mixer; it
    raises at the first read that raises, and then the entries from that
    one on are as they were and those before it agree with the mixer. *)
Lemma check_updates_pass st :
  Dict.wf (monitored_params st) ->
  match check_updates st with
  | (inr _, st') =>
      vm st' = vm st
      /\ (forall vk p, In (vk, p) (monitored_params st) ->
            readable (vm st) p)
      /\ (forall vk p, In (vk, p) (monitored_params st') ->
            reconciled (vm st) p)
  | (inl e, st') =>
      vm st' = vm st
      /\ exists i vk p,
           nth_error (monitored_params st) i = Some (vk, p)
           /\ vm_getattr (vm st) (s_idx p) (p_name p) = inl e
           /\ (forall j vk' p', (j < i)%nat ->
                 nth_error (monitored_params st) j = Some (vk', p') ->
                 readable (vm st) p')
           /\ List.length (monitored_params st')
              = List.length (monitored_params st)
           /\ (forall j, (i <= j)%nat ->
                 nth_error (monitored_params st') j
                 = nth_error (monitored_params st) j)
           /\ (forall j vk' p', (j < i)%nat ->
                 nth_error (monitored_params st') j = Some (vk', p') ->
                 reconciled (vm st) p')
  end.
Proof.
  intros Hwf. set (d := monitored_params st).
  pose (P := fun (i : nat) (s : state) =>
    vm s = vm st
    /\ bindings (monitored_params s) = bindings d
    /\ (forall j, (i <= j)%nat ->
          nth_error (monitored_params s) j = nth_error d j)
    /\ (forall j vk p, (j < i)%nat ->
          nth_error (monitored_params s) j = Some (vk, p) ->
          reconciled (vm st) p)
    /\ (forall j vk p, (j < i)%nat -> nth_error d j = Some (vk, p) ->
          readable (vm st) p)).
  pose (E := fun (i : nat) (e : Py.exn) (s : state) =>
    P i s /\ exists vk p,
      nth_error d i = Some (vk, p)
      /\ vm_getattr (vm st) (s_idx p) (p_name p) = inl e).
  assert (Hbody : forall i s vk p,
    P i s -> nth_error (monitored_params s) i = Some (vk, p) ->
    match check_updates_body vm_getattr sdk_set_led_colors vk p s with
    | (inr _, st') => P (S i) st'
    | (inl e, st') => E i e st'
    end).
  { intros i s vk p (Hvm & Hb & Hsuf & Hrec & Hrd) Hi.
    assert (Hdi : nth_error d i = Some (vk, p))
      by (rewrite <- (Hsuf i (Nat.le_refl i)); exact Hi).
    assert (Hwfs : Dict.wf (monitored_params s))
      by (apply (bindings_wf _ _ Hb); exact Hwf).
    destruct (vm_getattr (vm s) (s_idx p) (p_name p)) as [e|cur] eqn:Hread.
    - rewrite (check_updates_body_raise vk p s e Hread).
      rewrite Hvm in Hread.
      split; [unfold P; auto 10|]. exists vk, p. auto.
    - assert (Hreadable : readable (vm st) p)
        by (exists cur; rewrite <- Hvm; exact Hread).
      assert (Hrd' : forall j vk0 p0, (j < S i)%nat ->
                nth_error d j = Some (vk0, p0) -> readable (vm st) p0).
      { intros j vk0 p0 Hj Hn. destruct (Nat.eq_dec j i) as [->|Hne].
        - assert (p0 = p) by congruence. subst p0. exact Hreadable.
        - apply (Hrd j vk0 p0); [lia | exact Hn]. }
      destruct (Py.eq cur (cur_val p)) eqn:Eq.
      + rewrite (check_updates_body_same vk p s cur Hread Eq).
        unfold P. split; [exact Hvm|]. split; [exact Hb|].
        split; [intros j Hj; apply Hsuf; lia|].
        split; [|exact Hrd'].
        intros j vk0 p0 Hj Hn. destruct (Nat.eq_dec j i) as [->|Hne].
        * assert (p0 = p) by congruence. subst p0.
          exists cur. rewrite <- Hvm. auto.
        * apply (Hrec j vk0 p0); [lia | exact Hn].
      + destruct (check_updates_body_changed vk p s cur Hread Eq)
          as (c & msg & _ & ->).
        unfold P. simpl. rewrite after_push_vm.
        split; [exact Hvm|].
        split.
        { rewrite (bindings_set _ vk p (with_cur_val cur p)
                     (DictFacts.nth_error_get _ _ _ _ Hwfs Hi) eq_refl).
          exact Hb. }
        split.
        { intros j Hj.
          rewrite (DictFacts.nth_error_set _ i vk _ p j Hwfs Hi).
          destruct (Nat.eqb_spec j i); [lia|]. apply Hsuf. lia. }
        split; [|exact Hrd'].
        intros j vk0 p0 Hj.
        rewrite (DictFacts.nth_error_set _ i vk _ p j Hwfs Hi).
        destruct (Nat.eqb_spec j i) as [->|Hne].
        * intros [= <- <-]. exists cur. rewrite <- Hvm.
          split; [exact Hread | apply eq_refl_value].
        * intros Hn. apply (Hrec j vk0 p0); [lia | exact Hn]. }
  pose proof (for_items_from_rule P E
                (check_updates_body vm_getattr sdk_set_led_colors) Hbody
                (List.length (Dict.items d)) 0%nat st) as R.
  assert (HP0 : P 0%nat st).
  { unfold P. repeat split; auto; intros; lia. }
  specialize (R HP0). unfold check_updates, for_items. fold d.
  destruct (for_items_from _ _ _ st) as [[e|[]] st'].
  - destruct R as (i & _ & (Hvm & Hb & Hsuf & Hrec & Hrd) & vk & p & Hi & He).
    split; [exact Hvm|]. exists i, vk, p.
    split; [exact Hi|]. split; [exact He|]. split; [exact Hrd|].
    split; [apply (bindings_length _ _ Hb)|]. split; [exact Hsuf | exact Hrec].
  - destruct R as (j & (Hvm & Hb & Hsuf & Hrec & Hrd) & Hj).
    assert (Hlen : (List.length d <= j)%nat).
    { destruct Hj as [->|[_ Hnone]]; [unfold Dict.items; lia|].
      apply nth_error_None in Hnone.
      rewrite (bindings_length _ _ Hb) in Hnone. exact Hnone. }
    split; [exact Hvm|]. split.
    + intros vk p Hin. destruct (In_nth_error _ _ Hin) as [n Hn].
      apply (Hrd n vk p); [|exact Hn].
      assert ((n < List.length d)%nat) by (apply nth_error_Some; congruence).
      lia.
    + intros vk p Hin. destruct (In_nth_error _ _ Hin) as [n Hn].
      apply (Hrec n vk p); [|exact Hn].
      assert ((n < List.length (monitored_params st'))%nat)
        by (apply nth_error_Some; congruence).
      rewrite (bindings_length _ _ Hb) in H. lia.
Qed.

(** *** The engine: what the specification states *)



(** C9.  A toggle for a trigger that is not a key of the registry does
    nothing: it returns without raising and leaves the whole state as it
    was -- the mixer, the keyboard, the stored entries and the trace, so
    no parameter was written and no colour pushed. *)
Theorem toggle_unknown_is_noop vk st :
  ~ In vk (Dict.keys (monitored_params st)) ->
  toggle_strip vk st = (inr tt, st)
  /\ filter is_setattr (since st (snd (toggle_strip vk st))) = []
  /\ filter is_set_led (since st (snd (toggle_strip vk st))) = []
  /\ monitored_params (snd (toggle_strip vk st)) = monitored_params st.
Proof.
  intros Hk. apply DictFacts.mem_false in Hk.
  rewrite (toggle_strip_unknown vk st Hk). simpl.
  rewrite (since_app st st [] eq_refl). auto.
Qed.

(** The bindings of any configuration stay as configured. *)
Lemma bindings_kept config m k dev ops :
  Dict.wf config ->
  (forall vk (c : config_entry), In (vk, c) config ->
     exists v, vm_getattr m (cfg_s_idx c) (cfg_p_name c) = inr v) ->
  let built := ParameterObserver_init config (fresh m k dev config) in
  let lit := snd (initialize_leds (snd built)) in
  let st := run ops lit in
  fst built = inr tt
  /\ bindings (monitored_params (snd built)) = configured config
  /\ bindings (monitored_params lit) = configured config
  /\ bindings (monitored_params st) = configured config.
Proof.
  intros Hwf Hread built lit st.
  destruct (ParameterObserver_init_run config (fresh m k dev config) Hwf Hread)
    as (st0 & Hinit & _ & _ & _ & Hb).
  subst st lit built. rewrite Hinit. simpl.
  assert (Hlit : bindings (monitored_params (snd (initialize_leds st0)))
                 = configured config)
    by (rewrite initialize_leds_params; exact Hb).
  destruct (run_keeps ops (snd (initialize_leds st0))
              (configured_wf config _ Hwf Hlit)) as [Hrun _].
  split; [reflexivity|]. split; [exact Hb|]. split; [exact Hlit|].
  now rewrite Hrun.
Qed.

(** A toggle touches the entry of its own key only. *)
Lemma toggle_strip_other_keys vk k' st :
  k' <> vk ->
  Dict.get k' (monitored_params (snd (toggle_strip vk st)))
  = Dict.get k' (monitored_params st).
Proof.
  intros Hne.
  destruct (Dict.mem vk (monitored_params st)) eqn:Hm.
  - destruct (DictFacts.mem_get _ _ Hm) as [p Hget].
    destruct (vm_setattr (vm st) (s_idx p) (p_name p) (toggled p))
      as [[e|[]] m'] eqn:Hset.
    + rewrite (toggle_strip_raise _ _ _ _ _ Hget Hset). reflexivity.
    + destruct (toggle_strip_done _ _ _ _ Hget Hset) as (c & msg & _ & ->).
      simpl. apply DictFacts.get_set_other. exact Hne.
  - rewrite (toggle_strip_unknown _ _ Hm). reflexivity.
Qed.

(** C10.  The keys and, under each key, the strip index, the parameter
    name, the indicator id, the gain flag and the reference pair are
    those of the configuration from construction on: [initialize_leds],
    toggles, polls and outside changes keep them, in the same order, and
    change at most the stored value of an entry.  A toggle of one trigger
    leaves the entry of every other trigger as it was.  This holds for
    [STRIP_CONFIG] and for any configuration, a dictionary as it is. *)
Theorem bindings_never_change :
  Dict.wf STRIP_CONFIG
  /\ (forall config m k dev ops,
        Dict.wf config ->
        (forall vk (c : config_entry), In (vk, c) config ->
           exists v, vm_getattr m (cfg_s_idx c) (cfg_p_name c) = inr v) ->
        let built := ParameterObserver_init config (fresh m k dev config) in
        let lit := snd (initialize_leds (snd built)) in
        let st := run ops lit in
        fst built = inr tt
        /\ bindings (monitored_params (snd built)) = configured config
        /\ bindings (monitored_params lit) = configured config
        /\ bindings (monitored_params st) = configured config)
  /\ (forall st vk k', k' <> vk ->
        Dict.get k' (monitored_params (snd (toggle_strip vk st)))
        = Dict.get k' (monitored_params st)).
Proof.
  split; [exact (proj1 STRIP_CONFIG_wf)|].
  split; [exact bindings_kept|].
  intros st vk k'. apply toggle_strip_other_keys.
Qed.

(** C3.  On a gain binding with reference pair [(origin, end)] a toggle
    writes and stores [origin] when the stored value equals [end], and
    [end] otherwise.  So from a value that is neither [origin] nor [end]
    the toggle goes to [end]; from [end] it goes to [origin], and the
    next toggle goes back to [end]. *)
Theorem toggle_gain_flips_endpoints vk p st origin end_ m1 :
  Dict.get vk (monitored_params st) = Some p ->
  is_gain p = true -> rng p = Some [origin; end_] ->
  let new_val := if Py.eq (cur_val p) (Py.VFloat end_)
                 then Py.VFloat origin else Py.VFloat end_ in
  let back := if Py.eq (Py.VFloat origin) (Py.VFloat end_)
              then Py.VFloat origin else Py.VFloat end_ in
  vm_setattr (vm st) (s_idx p) (p_name p) new_val = (inr tt, m1) ->
  exists st1,
    toggle_strip vk st = (inr tt, st1)
    /\ vm st1 = m1
    /\ filter is_setattr (since st st1)
       = [EvSetattr (s_idx p) (p_name p) new_val]
    /\ Dict.get vk (monitored_params st1) = Some (with_cur_val new_val p)
    /\ (Py.to_num (cur_val p) == end_ -> new_val = Py.VFloat origin)
    /\ (~ Py.to_num (cur_val p) == end_ -> new_val = Py.VFloat end_)
    /\ (~ Py.to_num (cur_val p) == origin ->
        ~ Py.to_num (cur_val p) == end_ -> new_val = Py.VFloat end_)
    /\ (Py.to_num (cur_val p) == end_ ->
        forall m2,
          vm_setattr m1 (s_idx p) (p_name p) back = (inr tt, m2) ->
          exists st2,
            toggle_strip vk st1 = (inr tt, st2)
            /\ filter is_setattr (since st1 st2)
               = [EvSetattr (s_idx p) (p_name p) back]
            /\ Dict.get vk (monitored_params st2)
               = Some (with_cur_val back p)
            /\ Py.eq back (Py.VFloat end_) = true).
Proof.
  intros Hget Hg Hr new_val back Hset.
  pose proof (toggled_gain p origin end_ Hg Hr) as Ht. fold new_val in Ht.
  rewrite <- Ht in Hset.
  destruct (toggle_strip_accepted vk p st m1 Hget Hset)
    as (st1 & evs & c & Hrun & Hvm & Htr & Hw & Hst & _ & _).
  rewrite Ht in Hw, Hst.
  exists st1. split; [exact Hrun|]. split; [exact Hvm|].
  split; [now rewrite (since_app st st1 evs Htr)|].
  split; [exact Hst|].
  assert (Hend : Py.to_num (cur_val p) == end_ -> new_val = Py.VFloat origin).
  { intros E. subst new_val. unfold Py.eq. simpl.
    apply Qeq_bool_iff in E. now rewrite E. }
  assert (Hnot : ~ Py.to_num (cur_val p) == end_ -> new_val = Py.VFloat end_).
  { intros E. subst new_val. unfold Py.eq. simpl.
    apply Qeq_bool_false_iff in E. now rewrite E. }
  split; [exact Hend|]. split; [exact Hnot|]. split; [auto|].
  intros E m2 Hset2. rewrite (Hend E) in Hst.
  set (p1 := with_cur_val (Py.VFloat origin) p) in *.
  assert (Ht1 : toggled p1 = back)
    by (apply (toggled_gain p1 origin end_); [exact Hg | exact Hr]).
  rewrite <- Hvm in Hset2.
  change (s_idx p) with (s_idx p1) in Hset2.
  change (p_name p) with (p_name p1) in Hset2.
  rewrite <- Ht1 in Hset2.
  destruct (toggle_strip_accepted vk p1 st1 m2 Hst Hset2)
    as (st2 & evs2 & c2 & Hrun2 & _ & Htr2 & Hw2 & Hst2 & _ & _).
  rewrite Ht1 in Hw2, Hst2.
  exists st2. split; [exact Hrun2|].
  split; [now rewrite (since_app st1 st2 evs2 Htr2)|].
  split; [exact Hst2|].
  subst back. destruct (Py.eq (Py.VFloat origin) (Py.VFloat end_)) eqn:Eoe.
  - exact Eoe.
  - apply eq_refl_float.
Qed.

(** C8.  Two toggles in a row on a Boolean binding, with nothing changed
    from outside in between: the second write is the negation of the
    negation of the value first stored, which is that value as a
    Boolean; the entry holds it again; and the colour pushed last is the
    colour that was shown for it to begin with. *)
Theorem toggle_twice_boolean vk p st m1 m2 :
  Dict.get vk (monitored_params st) = Some p ->
  is_boolean_binding p ->
  let b := Py.truthy (cur_val p) in
  vm_setattr (vm st) (s_idx p) (p_name p) (Py.VBool (negb b))
    = (inr tt, m1) ->
  vm_setattr m1 (s_idx p) (p_name p) (Py.VBool (negb (negb b)))
    = (inr tt, m2) ->
  exists st1 st2,
    toggle_strip vk st = (inr tt, st1)
    /\ toggle_strip vk st1 = (inr tt, st2)
    /\ vm st2 = m2
    /\ filter is_setattr (since st st2)
       = [EvSetattr (s_idx p) (p_name p) (Py.VBool (negb (negb b)));
          EvSetattr (s_idx p) (p_name p) (Py.VBool (negb b))]
    /\ negb (negb b) = b
    /\ Dict.get vk (monitored_params st2)
       = Some (with_cur_val (Py.VBool b) p)
    /\ last_pushed (led_id p) (trace st2)
       = Some (colorForBoolean (cur_val p))
    /\ ColorMapper p = inr (colorForBoolean (cur_val p))
    /\ (in_sync st ->
        last_pushed (led_id p) (trace st2)
        = last_pushed (led_id p) (trace st)).
Proof.
  intros Hget Hb b Hset1 Hset2.
  pose proof (toggled_boolean p Hb) as Ht. fold b in Ht.
  rewrite <- Ht in Hset1.
  destruct (toggle_strip_accepted vk p st m1 Hget Hset1)
    as (st1 & evs1 & c1 & Hrun1 & Hvm1 & Htr1 & Hw1 & Hst1 & _ & _).
  rewrite Ht in Hw1, Hst1.
  set (p1 := with_cur_val (Py.VBool (negb b)) p) in *.
  pose proof (is_boolean_with_cur_val (Py.VBool (negb b)) p Hb) as Hb1.
  fold p1 in Hb1.
  pose proof (toggled_boolean p1 Hb1) as Ht1. simpl in Ht1.
  rewrite <- Hvm1 in Hset2.
  change (s_idx p) with (s_idx p1) in Hset2.
  change (p_name p) with (p_name p1) in Hset2.
  rewrite <- Ht1 in Hset2.
  destruct (toggle_strip_accepted vk p1 st1 m2 Hst1 Hset2)
    as (st2 & evs2 & c2 & Hrun2 & Hvm2 & Htr2 & Hw2 & Hst2 & Hc2 & Hl2).
  rewrite Ht1 in Hw2, Hst2, Hc2.
  change (led_id p1) with (led_id p) in Hl2.
  assert (Hnn : negb (negb b) = b) by apply negb_involutive.
  assert (Hcol : c2 = colorForBoolean (cur_val p)).
  { rewrite ColorMapper_boolean in Hc2
      by (apply is_boolean_with_cur_val; exact Hb1).
    simpl in Hc2. unfold colorForBoolean in *. simpl in Hc2.
    rewrite Hnn in Hc2. fold b. congruence. }
  exists st1, st2. split; [exact Hrun1|]. split; [exact Hrun2|].
  split; [exact Hvm2|].
  split.
  { rewrite (since_app st st2 (evs2 ++ evs1))
      by (rewrite Htr2, Htr1; apply app_assoc).
    rewrite filter_app, Hw1, Hw2. reflexivity. }
  split; [exact Hnn|].
  split; [rewrite Hst2, Hnn; reflexivity|].
  split; [rewrite Hl2, Hcol; reflexivity|].
  split; [apply ColorMapper_boolean; exact Hb|].
  intros Hsync.
  destruct (Hsync vk p (DictFacts.get_In _ _ _ Hget)) as (c & Hc & Hl).
  rewrite ColorMapper_boolean in Hc by exact Hb.
  rewrite Hl2, Hl, Hcol. congruence.
Qed.


(** C2, amended.  A failure to set an indicator colour is caught and
    printed, and the poll or toggle goes on: [set_color] never raises.
    In a poll in which every read of the mixer returns, every binding
    is reconciled, whatever the lighting SDK does.  A read of the mixer
    that raises is not caught: the poll raises the same exception at the
    first binding whose read raises, the bindings before it have been
    reconciled, and that binding and all after it are left as they
    were.  A write of the mixer that raises is not caught either: the
    toggle raises it, having stored nothing, pushed no colour and printed
    nothing. *)
Theorem lighting_failures_isolated_mixer_failures_raised st :
  Dict.wf (monitored_params st) ->
  (forall led s g gr,
     fst (set_color led s g gr st) = inr tt
     /\ forall r g' b e,
          chosen_color s g gr = inr (r, g', b) ->
          fst (sdk_set_led_colors
                 (sdk (lighting_controller st))
                 (device_id (lighting_controller st))
                 [LedColor led r g' b 255]) = inl e ->
          hd_error (trace (snd (set_color led s g gr st)))
          = Some (EvPrint (MsgLedError led e)))
  /\ ((forall vk p, In (vk, p) (monitored_params st) ->
         readable (vm st) p) ->
      fst (check_updates st) = inr tt
      /\ forall vk p,
           In (vk, p) (monitored_params (snd (check_updates st))) ->
           reconciled (vm st) p)
  /\ (forall d1 vk p d2 e,
        monitored_params st = d1 ++ (vk, p) :: d2 ->
        (forall vk' p', In (vk', p') d1 -> readable (vm st) p') ->
        vm_getattr (vm st) (s_idx p) (p_name p) = inl e ->
        fst (check_updates st) = inl e
        /\ exists d1',
             monitored_params (snd (check_updates st))
             = d1' ++ (vk, p) :: d2
             /\ List.length d1' = List.length d1
             /\ forall vk' p', In (vk', p') d1' -> reconciled (vm st) p')
  /\ (forall vk p e,
        Dict.get vk (monitored_params st) = Some p ->
        fst (vm_setattr (vm st) (s_idx p) (p_name p) (toggled p)) = inl e ->
        fst (toggle_strip vk st) = inl e
        /\ monitored_params (snd (toggle_strip vk st)) = monitored_params st
        /\ since st (snd (toggle_strip vk st))
           = [EvSetattr (s_idx p) (p_name p) (toggled p)]).
Proof.
  intros Hwf. split; [|split; [|split]].
  - intros led s g gr.
    destruct (chosen_color_returns s g gr) as [c Hc].
    rewrite (set_color_run led s g gr st c Hc). split; [reflexivity|].
    intros r g' b e Hc' Hfail. simpl.
    assert (c = (r, g', b)) by congruence. subst c.
    unfold after_push.
    destruct (sdk_set_led_colors _ _ _) as [[e'|[]] k']; simpl in *.
    + congruence.
    + discriminate.
  - intros Hall. pose proof (check_updates_pass st Hwf) as H.
    destruct (check_updates st) as [[e|[]] st']; simpl.
    + exfalso. destruct H as (_ & i & vk & p & Hi & He & _).
      destruct (Hall vk p (nth_error_In _ _ Hi)) as [v Hv]. congruence.
    + destruct H as (_ & _ & Hrec). split; [reflexivity | exact Hrec].
  - intros d1 vk p d2 e Hd Hpre Hread.
    pose proof (check_updates_pass st Hwf) as H.
    assert (Hmid : nth_error (monitored_params st) (List.length d1)
                   = Some (vk, p))
      by (rewrite Hd; apply nth_error_middle).
    destruct (check_updates st) as [[e'|[]] st']; simpl.
    + destruct H as (_ & i & vk' & p' & Hi & He & Hrd & Hlen & Hsuf & Hrec).
      assert (Ei : i = List.length d1).
      { destruct (Nat.lt_trichotomy i (List.length d1)) as [Hlt|[E|Hgt]].
        - exfalso. rewrite Hd, nth_error_app1 in Hi by exact Hlt.
          destruct (Hpre vk' p' (nth_error_In _ _ Hi)) as [v Hv]. congruence.
        - exact E.
        - exfalso.
          destruct (Hrd (List.length d1) vk p Hgt Hmid) as [v Hv].
          congruence. }
      subst i. assert (E : (vk', p') = (vk, p)) by congruence.
      injection E as -> ->. split; [congruence|].
      exists (firstn (List.length d1) (monitored_params st')).
      split.
      { rewrite <- (firstn_skipn (List.length d1) (monitored_params st'))
          at 1.
        f_equal. rewrite (skipn_agree _ _ _ Hsuf), Hd.
        apply skipn_prefix. }
      split.
      { apply firstn_length_le. rewrite Hlen, Hd, length_app. lia. }
      intros vk0 p0 Hin. destruct (In_firstn_nth _ _ _ Hin) as (j & Hj & Hn).
      apply (Hrec j vk0 p0 Hj Hn).
    + exfalso. destruct H as (_ & Hall & _).
      destruct (Hall vk p (nth_error_In _ _ Hmid)) as [v Hv]. congruence.
  - intros vk p e Hget Hfail.
    destruct (vm_setattr (vm st) (s_idx p) (p_name p) (toggled p))
      as [r m'] eqn:Hset.
    simpl in Hfail. subst r.
    rewrite (toggle_strip_raise vk p st e m' Hget Hset). simpl.
    split; [reflexivity|]. split; [reflexivity|].
    apply since_app. reflexivity.
Qed.

End EngineFacts.

(** ** The engine on the bench: runs *)

Ltac every_binding H :=
  simpl in H;
  repeat (destruct H as [H|H];
          [injection H as <- <-; eexists; reflexivity|]);
  destruct H.

Example bench_started_run :
  startup Bench.getattr Bench.set_led_colors STRIP_CONFIG bench_fresh
  = (inr tt, bench_started).
Proof. vm_compute. reflexivity. Qed.

Example bench_started_gain :
  Dict.get 104 (monitored_params bench_started)
  = Some (Param 5 "gain" (Py.VFloat 0) 110 true (Some [0; -30])).
Proof. vm_compute. reflexivity. Qed.

Example bench_at_end_gain :
  Dict.get 104 (monitored_params bench_at_end)
  = Some (Param 5 "gain" (Py.VFloat (-30)) 110 true (Some [0; -30])).
Proof. vm_compute. reflexivity. Qed.


Lemma toggle_unknown_is_noop_witness :
  toggle_strip Bench.setattr Bench.set_led_colors 1 bench_started
  = (inr tt, bench_started).
Proof.
  refine (proj1 (toggle_unknown_is_noop
                   Bench.setattr Bench.set_led_colors 1 bench_started _)).
  vm_compute. intros H.
  repeat (destruct H as [H|H]; [discriminate H|]). exact H.
Defined.

Lemma bindings_never_change_witness :
  let built := ParameterObserver_init Bench.getattr STRIP_CONFIG bench_fresh in
  let lit := snd (initialize_leds Bench.set_led_colors (snd built)) in
  let st := run Bench.getattr Bench.setattr Bench.set_led_colors
              bench_ops lit in
  (fst built = inr tt
   /\ bindings (monitored_params (snd built)) = configured STRIP_CONFIG
   /\ bindings (monitored_params lit) = configured STRIP_CONFIG
   /\ bindings (monitored_params st) = configured STRIP_CONFIG)
  /\ Dict.get 98 (monitored_params
                    (snd (toggle_strip Bench.setattr Bench.set_led_colors
                            97 st)))
     = Dict.get 98 (monitored_params st).
Proof.
  split.
  - exact (proj1 (proj2 (bindings_never_change
                           Bench.getattr Bench.setattr Bench.set_led_colors))
             STRIP_CONFIG Bench.mixer0 Bench.keyboard0 "K70"%string bench_ops
             ltac:(unfold Dict.wf; simpl; distinct_literals)
             ltac:(intros vk c H; every_binding H)).
  - refine (proj2 (proj2 (bindings_never_change
                            Bench.getattr Bench.setattr Bench.set_led_colors))
              _ 97%Z 98%Z _).
    discriminate.
Defined.

Lemma toggle_gain_flips_endpoints_witness :
  exists st1 st2,
    toggle_strip Bench.setattr Bench.set_led_colors 104 bench_at_end
    = (inr tt, st1)
    /\ Dict.get 104 (monitored_params st1)
       = Some (Param 5 "gain" (Py.VFloat 0) 110 true (Some [0; -30]))
    /\ toggle_strip Bench.setattr Bench.set_led_colors 104 st1
       = (inr tt, st2)
    /\ Dict.get 104 (monitored_params st2)
       = Some (Param 5 "gain" (Py.VFloat (-30)) 110 true (Some [0; -30])).
Proof.
  pose (p := Param 5 "gain" (Py.VFloat (-30)) 110 true (Some [0; -30])).
  pose (m1 := snd (Bench.setattr (vm bench_at_end) 5 "gain" (Py.VFloat 0))).
  pose (m2 := snd (Bench.setattr m1 5 "gain" (Py.VFloat (-30)))).
  destruct (toggle_gain_flips_endpoints
              Bench.setattr Bench.set_led_colors 104 p bench_at_end
              0 (-30) m1
              ltac:(vm_compute; reflexivity)
              ltac:(reflexivity)
              ltac:(reflexivity)
              ltac:(vm_compute; reflexivity))
    as (st1 & Hrun1 & _ & _ & Hst1 & _ & _ & _ & Hback).
  destruct (Hback ltac:(reflexivity) m2 ltac:(vm_compute; reflexivity))
    as (st2 & Hrun2 & _ & Hst2 & _).
  exists st1, st2.
  split; [exact Hrun1|]. split; [exact Hst1|].
  split; [exact Hrun2 | exact Hst2].
Defined.

Lemma toggle_twice_boolean_witness :
  exists st1 st2,
    toggle_strip Bench.setattr Bench.set_led_colors 97 bench_started
    = (inr tt, st1)
    /\ toggle_strip Bench.setattr Bench.set_led_colors 97 st1
       = (inr tt, st2)
    /\ Dict.get 97 (monitored_params st2)
       = Some (Param 0 "B1" (Py.VBool false) 116 false None)
    /\ last_pushed 116 (trace st2) = Some LED_OFF_COLOR.
Proof.
  pose (p := Param 0 "B1" (Py.VBool false) 116 false None).
  pose (m1 := snd (Bench.setattr (vm bench_started) 0 "B1" (Py.VBool true))).
  pose (m2 := snd (Bench.setattr m1 0 "B1" (Py.VBool false))).
  destruct (toggle_twice_boolean
              Bench.setattr Bench.set_led_colors 97 p bench_started m1 m2
              ltac:(vm_compute; reflexivity)
              I
              ltac:(vm_compute; reflexivity)
              ltac:(vm_compute; reflexivity))
    as (st1 & st2 & Hrun1 & Hrun2 & _ & _ & _ & Hst & Hled & _).
  exists st1, st2.
  split; [exact Hrun1|]. split; [exact Hrun2|].
  split; [exact Hst | exact Hled].
Defined.

Lemma lighting_failures_isolated_mixer_failures_raised_witness :
  fst (check_updates Bench.getattr Bench.set_led_colors bench_started)
  = inr tt
  /\ fst (check_updates Bench.getattr Bench.set_led_colors bench_without_B1)
     = inl (Py.ExternalError "no such parameter").
Proof.
  split.
  - refine (proj1 (proj1 (proj2
      (lighting_failures_isolated_mixer_failures_raised
         Bench.getattr Bench.setattr Bench.set_led_colors bench_started _))
      _)).
    + vm_compute. distinct_literals.
    + intros vk p H. vm_compute in H.
      repeat (destruct H as [H|H];
              [injection H as <- <-; eexists; vm_compute; reflexivity|]).
      destruct H.
  - refine (proj1 (proj1 (proj2 (proj2
      (lighting_failures_isolated_mixer_failures_raised
         Bench.getattr Bench.setattr Bench.set_led_colors
         bench_without_B1 _)))
      [] 97%Z (Param 0 "B1" (Py.VBool false) 116 false None)
      (skipn 1 (monitored_params bench_without_B1))
      (Py.ExternalError "no such parameter") _ _ _)).
    + vm_compute. distinct_literals.
    + vm_compute. reflexivity.
    + intros vk p [].
    + vm_compute. reflexivity.
Defined.

(** C2 as stated fails.  Strip 0's send B1 can no longer be read and
    its send B2 has been switched on from outside.  The poll raises at
    B1: nothing is caught, nothing is printed, and B2, next in line, is
    not looked at -- its stored value stays [False] and its key keeps
    the colour it had.  A toggle of B1 raises on the write in the same
    way. *)
Lemma poll_stops_at_failed_read :
  Bench.getattr (vm bench_without_B1) 0 "B1"
  = inl (Py.ExternalError "no such parameter")
  /\ Bench.getattr (vm bench_without_B1) 0 "B2" = inr (Py.VBool true)
  /\ Dict.get 98 (monitored_params bench_without_B1)
     = Some (Param 0 "B2" (Py.VBool false) 117 false None)
  /\ check_updates Bench.getattr Bench.set_led_colors bench_without_B1
     = (inl (Py.ExternalError "no such parameter"), bench_without_B1)
  /\ toggle_strip Bench.setattr Bench.set_led_colors 97 bench_without_B1
     = (inl (Py.ExternalError "no such parameter"),
        record (EvSetattr 0 "B1" (Py.VBool true)) bench_without_B1).
Proof. vm_compute. repeat split; reflexivity. Qed.

(** ** The colour mapper: further properties *)

(** X1.  With [min_val <= max_val], [clamp] returns a value between the
    two: the value itself (up to equality of numbers) when it lies
    between them, [min_val] when it is below, [max_val] when it is above.
    With the bounds crossed, [max_val < min_val], it returns [min_val]
    whatever the value. *)
Theorem clamp_saturates (value lo hi : Q) :
  (lo <= hi ->
     lo <= clamp value lo hi <= hi
     /\ (lo <= value <= hi -> clamp value lo hi == value)
     /\ (value < lo -> clamp value lo hi = lo)
     /\ (hi < value -> clamp value lo hi == hi))
  /\ (hi < lo -> clamp value lo hi = lo).
Proof.
  unfold clamp, Py.max, Py.min, Py.gt.
  split.
  - intros Hlh.
    destruct (Py.lt hi value) eqn:E1.
    + apply lt_iff in E1.
      destruct (Py.lt lo hi) eqn:E2.
      * apply lt_iff in E2. repeat split; try lra; try reflexivity.
      * apply lt_false_iff in E2. repeat split; try lra; try reflexivity.
    + apply lt_false_iff in E1.
      destruct (Py.lt lo value) eqn:E2.
      * apply lt_iff in E2. repeat split; try lra; try reflexivity.
      * apply lt_false_iff in E2. repeat split; try lra; try reflexivity.
  - intros Hhl.
    destruct (Py.lt hi value) eqn:E1.
    + destruct (Py.lt lo hi) eqn:E2; [|reflexivity].
      apply lt_iff in E2. lra.
    + apply lt_false_iff in E1.
      destruct (Py.lt lo value) eqn:E2; [|reflexivity].
      apply lt_iff in E2. lra.
Qed.






(** ** The engine: further properties *)


Lemma get_set_eq {V : Type} (d : Dict.t V) k v :
  Dict.get k (Dict.set k v d) = Some v.
Proof.
  induction d as [|[k' v'] d IH]; simpl.
  - now rewrite Z.eqb_refl.
  - destruct (Z.eqb_spec k k') as [->|Hne]; simpl.
    + now rewrite Z.eqb_refl.
    + destruct (Z.eqb_spec k k'); [contradiction | exact IH].
Qed.

Lemma In_set_any {V : Type} (d : Dict.t V) k v k' v' :
  In (k', v') (Dict.set k v d) -> (k', v') = (k, v) \/ In (k', v') d.
Proof.
  induction d as [|[k0 v0] d IH]; simpl.
  - intros [E|[]]. left. now symmetry.
  - destruct (Z.eqb_spec k k0) as [->|Hne]; simpl.
    + intros [E|H]; [left; now symmetry | right; now right].
    + intros [E|H]; [right; now left|].
      destruct (IH H) as [E|H']; [now left | right; now right].
Qed.

Lemma led_states_fold (led_ids : list Z) :
  forall (d : Dict.t bool) lid,
    Dict.get lid (fold_left (fun d lid => Dict.set lid false d) led_ids d)
    = if existsb (Z.eqb lid) led_ids then Some false else Dict.get lid d.
Proof.
  induction led_ids as [|x l IH]; intros d lid; simpl; [reflexivity|].
  rewrite IH. destruct (existsb (Z.eqb lid) l).
  - now rewrite orb_true_r.
  - rewrite orb_false_r. destruct (Z.eqb_spec lid x) as [->|Hne].
    + apply get_set_eq.
    + now apply DictFacts.get_set_other.
Qed.

Lemma pushed_leds_app (evs1 evs2 : list event) :
  pushed_leds (evs1 ++ evs2) = pushed_leds evs1 ++ pushed_leds evs2.
Proof. unfold pushed_leds. apply flat_map_app. Qed.

Lemma firstn_succ_nth {A : Type} (l : list A) i x :
  nth_error l i = Some x -> firstn (S i) l = firstn i l ++ [x].
Proof.
  revert i. induction l as [|y l IH]; intros [|i] H; simpl in *;
    try discriminate.
  - now injection H as ->.
  - f_equal. now apply IH.
Qed.

Section EngineMore.

Context {Mixer Sdk : Type}.
Variable vm_getattr : Mixer -> Z -> string -> Py.result Py.value.
Variable vm_setattr :
  Mixer -> Z -> string -> Py.value -> Py.result unit * Mixer.
Variable sdk_set_led_colors :
  Sdk -> string -> list CorsairLedColor -> Py.result unit * Sdk.

Local Abbreviation state := (state Mixer Sdk).
Local Abbreviation after_push := (after_push sdk_set_led_colors).
Local Abbreviation set_color := (set_color (Mixer := Mixer) sdk_set_led_colors).
Local Abbreviation toggle_strip := (toggle_strip vm_setattr sdk_set_led_colors).
Local Abbreviation check_updates := (check_updates vm_getattr sdk_set_led_colors).
Local Abbreviation check_updates_body :=
  (check_updates_body vm_getattr sdk_set_led_colors).
Local Abbreviation initialize_leds :=
  (initialize_leds (Mixer := Mixer) sdk_set_led_colors).
Local Abbreviation initialize_leds_body :=
  (initialize_leds_body (Mixer := Mixer) sdk_set_led_colors).
Local Abbreviation ParameterObserver_init :=
  (ParameterObserver_init (Sdk := Sdk) vm_getattr).
Local Abbreviation startup := (startup vm_getattr sdk_set_led_colors).
Local Abbreviation step := (step vm_getattr vm_setattr sdk_set_led_colors).
Local Abbreviation run := (run vm_getattr vm_setattr sdk_set_led_colors).
Local Abbreviation reconciled := (reconciled vm_getattr).
Local Abbreviation readable := (readable vm_getattr).
Local Abbreviation changed := (changed vm_getattr).
Local Abbreviation refreshed := (refreshed vm_getattr).
Local Abbreviation as_read := (as_read vm_getattr).

Implicit Types (st : state) (p : param) (v : Py.value) (c : color).

(** *** What one colour request leaves behind *)

Lemma after_push_events led c st :
  exists evs,
    trace (after_push led c st) = evs ++ trace st
    /\ filter is_setattr evs = []
    /\ filter is_set_led evs
       = [EvSetLedColors (device_id (lighting_controller st))
            [LedColor led (fst (fst c)) (snd (fst c)) (snd c) 255]]
    /\ pushed_leds evs = [led].
Proof.
  destruct c as [[r g] b].
  destruct (after_push_trace sdk_set_led_colors led r g b st)
    as (tl & E & [->|(e & _ & ->)]); rewrite E.
  - exists [EvSetLedColors (device_id (lighting_controller st))
              [LedColor led r g b 255]]. repeat split; reflexivity.
  - exists [EvPrint (MsgLedError led e);
            EvSetLedColors (device_id (lighting_controller st))
              [LedColor led r g b 255]]. repeat split; reflexivity.
Qed.

Lemma after_push_lighting led c st :
  device_id (lighting_controller (after_push led c st))
  = device_id (lighting_controller st)
  /\ led_states (lighting_controller (after_push led c st))
     = led_states (lighting_controller st).
Proof.
  unfold after_push. destruct c as [[r g] b].
  destruct (sdk_set_led_colors _ _ _) as [[e|[]] k]; split; reflexivity.
Qed.


(** *** The controller's table of LED states *)

Lemma same_lighting_refl st : same_lighting st st.
Proof. split; reflexivity. Qed.

Lemma same_lighting_trans st st1 st2 :
  same_lighting st st1 -> same_lighting st1 st2 -> same_lighting st st2.
Proof. intros [A B] [C D]. split; congruence. Qed.

Lemma toggle_strip_lighting vk st :
  same_lighting st (snd (toggle_strip vk st)).
Proof.
  destruct (Dict.mem vk (monitored_params st)) eqn:Hm.
  - destruct (DictFacts.mem_get _ _ Hm) as [p Hget].
    destruct (vm_setattr (vm st) (s_idx p) (p_name p) (toggled p))
      as [[e|[]] m] eqn:Hset.
    + rewrite (toggle_strip_raise _ _ _ _ _ _ _ Hget Hset).
      split; reflexivity.
    + destruct (toggle_strip_done _ sdk_set_led_colors _ _ _ _ Hget Hset)
        as (c & msg & _ & ->).
      unfold same_lighting. simpl.
      destruct (after_push_lighting (led_id p) c
                  (with_vm m (record (EvSetattr (s_idx p) (p_name p)
                                        (toggled p)) st))) as [A B].
      split; [exact A | exact B].
  - rewrite (toggle_strip_unknown _ _ _ _ Hm). apply same_lighting_refl.
Qed.

Lemma check_updates_lighting st :
  same_lighting st (snd (check_updates st)).
Proof.
  unfold check_updates.
  apply (for_items_preserves (same_lighting st)); [|apply same_lighting_refl].
  intros i s vk p Hs _.
  apply (same_lighting_trans st s); [exact Hs|].
  destruct (vm_getattr (vm s) (s_idx p) (p_name p)) as [e|cur] eqn:Hread.
  - rewrite (check_updates_body_raise _ sdk_set_led_colors vk _ _ _ Hread).
    apply same_lighting_refl.
  - destruct (Py.eq cur (cur_val p)) eqn:E.
    + rewrite (check_updates_body_same _ sdk_set_led_colors vk _ _ _ Hread E).
      apply same_lighting_refl.
    + destruct (check_updates_body_changed _ sdk_set_led_colors vk _ _ _ Hread E)
        as (c & msg & _ & ->).
      unfold same_lighting. simpl. apply after_push_lighting.
Qed.

Lemma initialize_leds_lighting st :
  same_lighting st (snd (initialize_leds st)).
Proof.
  unfold initialize_leds.
  apply (for_items_preserves (same_lighting st)); [|apply same_lighting_refl].
  intros i s vk p Hs _.
  apply (same_lighting_trans st s); [exact Hs|].
  destruct (initialize_leds_body_run sdk_set_led_colors vk p s)
    as (c & _ & ->).
  unfold same_lighting. simpl. apply after_push_lighting.
Qed.

Lemma run_lighting ops : forall st, same_lighting st (run ops st).
Proof.
  induction ops as [|o ops IH]; intros st; simpl.
  - apply same_lighting_refl.
  - apply (same_lighting_trans st (step o st)); [|apply IH].
    destruct o as [vk| |m k]; simpl.
    + apply toggle_strip_lighting.
    + apply check_updates_lighting.
    + split; reflexivity.
Qed.

(** X7.  The controller records every LED of the configuration as [False]
    when it is built, and no operation ever updates the record or the
    device id: colours are pushed to the SDK only. *)
Theorem led_states_never_updated :
  (forall (k : Sdk) dev led_ids lid,
     Dict.get lid (led_states (KeyLightingController_init k dev led_ids))
     = if existsb (Z.eqb lid) led_ids then Some false else None)
  /\ (forall ops st,
        let st' := run ops (snd (initialize_leds st)) in
        led_states (lighting_controller st')
        = led_states (lighting_controller st)
        /\ device_id (lighting_controller st')
           = device_id (lighting_controller st)).
Proof.
  split.
  - intros k dev led_ids lid. simpl. apply led_states_fold.
  - intros ops st st'.
    destruct (same_lighting_trans st _ _ (initialize_leds_lighting st)
                (run_lighting ops (snd (initialize_leds st)))) as [A B].
    split; [exact B | exact A].
Qed.

(** *** Building the observer *)

Lemma for_each_app {A : Type} (l1 l2 : list A)
    (body : A -> M Mixer Sdk unit) st :
  for_each (l1 ++ l2) body st
  = match for_each l1 body st with
    | (inl e, s) => (inl e, s)
    | (inr _, s) => for_each l2 body s
    end.
Proof.
  revert st. induction l1 as [|x l1 IH]; intros st; simpl.
  - reflexivity.
  - unfold bind. destruct (body x st) as [[e|[]] s]; [reflexivity|].
    apply IH.
Qed.

Lemma init_loop_quiet (config : Dict.t config_entry) :
  forall st,
    as_read (vm st) (monitored_params st) ->
    let out := for_each (Dict.items config)
                 (ParameterObserver_init_body (Sdk := Sdk) vm_getattr) st in
    vm (snd out) = vm st
    /\ trace (snd out) = trace st
    /\ lighting_controller (snd out) = lighting_controller st
    /\ as_read (vm st) (monitored_params (snd out)).
Proof.
  induction config as [|[vk ce] config IH]; intros st Hq; simpl.
  - auto.
  - unfold bind at 1, ParameterObserver_init_body at 1, bind, getattr.
    destruct (vm_getattr (vm st) (cfg_s_idx ce) (cfg_p_name ce))
      as [e|cur] eqn:Hread; simpl; [auto|].
    set (st1 := with_monitored_params _ st).
    destruct (IH st1) as (A & B & C & D).
    + intros k' p' Hin. simpl in Hin.
      destruct (In_set_any _ _ _ _ _ Hin) as [E|Hin'].
      * injection E as -> ->. simpl. exact Hread.
      * apply (Hq k' p' Hin').
    + repeat split; assumption.
Qed.

(** X8.  [__init__] only reads: it prints nothing, pushes no colour and
    writes no parameter, and every entry it stores holds the value just
    read for it.  With every parameter readable it returns with the
    bindings of the configuration, in order.  At the first parameter
    whose read raises it raises the same exception, and what it has
    stored are the bindings before that one. *)
Theorem ParameterObserver_init_outcome
    (config : Dict.t config_entry) st :
  let out := ParameterObserver_init config st in
  (vm (snd out) = vm st
   /\ trace (snd out) = trace st
   /\ lighting_controller (snd out) = lighting_controller st
   /\ forall vk p, In (vk, p) (monitored_params (snd out)) ->
        vm_getattr (vm st) (s_idx p) (p_name p) = inr (cur_val p))
  /\ (Dict.wf config ->
      (forall vk (ce : config_entry), In (vk, ce) config ->
         exists v, vm_getattr (vm st) (cfg_s_idx ce) (cfg_p_name ce) = inr v) ->
      fst out = inr tt
      /\ bindings (monitored_params (snd out)) = configured config)
  /\ (forall (before : Dict.t config_entry) vk (ce : config_entry)
          (rest : Dict.t config_entry) e,
        Dict.wf config ->
        config = before ++ (vk, ce) :: rest ->
        (forall vk' (ce' : config_entry), In (vk', ce') before ->
           exists v,
             vm_getattr (vm st) (cfg_s_idx ce') (cfg_p_name ce') = inr v) ->
        vm_getattr (vm st) (cfg_s_idx ce) (cfg_p_name ce) = inl e ->
        fst out = inl e
        /\ bindings (monitored_params (snd out)) = configured before).
Proof.
  intros out. split; [|split].
  - subst out. unfold ParameterObserver_init, bind.
    apply (init_loop_quiet config (with_monitored_params Dict.empty st)).
    intros vk p [].
  - intros Hwf Hread.
    destruct (ParameterObserver_init_run vm_getattr config st Hwf Hread)
      as (st' & Hrun & _ & _ & _ & Hb).
    subst out. rewrite Hrun. split; [reflexivity | exact Hb].
  - intros c1 vk ce c2 e Hwf -> Hpre Hfail.
    subst out. unfold ParameterObserver_init, bind.
    unfold Dict.items. rewrite for_each_app.
    destruct (init_loop vm_getattr c1 (with_monitored_params Dict.empty st))
      as (st1 & Hrun & Hvm & _ & _ & Hb).
    + exact Hpre.
    + simpl. unfold Dict.wf, Dict.keys in Hwf. rewrite map_app in Hwf.
      apply NoDup_app_remove_r in Hwf. exact Hwf.
    + unfold Dict.items in Hrun. rewrite Hrun. simpl.
      unfold bind at 1, ParameterObserver_init_body at 1, bind, getattr.
      rewrite Hvm. simpl. rewrite Hfail. simpl.
      split; [reflexivity | exact Hb].
Qed.

(** *** Lighting the keys at startup *)

(** X9.  [initialize_leds] cannot raise.  It requests one colour per binding,
    in the order of the dictionary, and leaves the mixer and the entries
    as they were. *)
Theorem initialize_leds_one_push_each st :
  exists st',
    initialize_leds st = (inr tt, st')
    /\ vm st' = vm st
    /\ monitored_params st' = monitored_params st
    /\ filter is_setattr (since st st') = []
    /\ rev (pushed_leds (since st st'))
       = map led_id (Dict.values (monitored_params st)).
Proof.
  unfold initialize_leds, for_items. set (d := monitored_params st).
  pose (P := fun (i : nat) (s : state) =>
    monitored_params s = d /\ vm s = vm st
    /\ exists evs, trace s = evs ++ trace st
         /\ filter is_setattr evs = []
         /\ rev (pushed_leds evs) = map led_id (map snd (firstn i d))).
  assert (Hbody : forall i s vk p,
    P i s -> nth_error (monitored_params s) i = Some (vk, p) ->
    match initialize_leds_body vk p s with
    | (inr _, st') => P (S i) st'
    | (inl e, st') => False
    end).
  { intros i s vk p (Hd & Hvm & evs & Htr & Hw & Hl) Hi.
    destruct (initialize_leds_body_run sdk_set_led_colors vk p s)
      as (c & _ & ->).
    destruct (after_push_events (led_id p) c s) as (ev1 & Htr1 & Hw1 & _ & Hl1).
    rewrite Hd in Hi. unfold P.
    cbn [monitored_params vm trace record].
    rewrite after_push_params, after_push_vm.
    split; [exact Hd|]. split; [exact Hvm|].
    exists (EvPrint (MsgInit vk (s_idx p) (p_name p) (cur_val p))
              :: ev1 ++ evs).
    split; [rewrite Htr1, Htr; simpl; now rewrite app_assoc|].
    split; [simpl; rewrite filter_app, Hw1, Hw; reflexivity|].
    rewrite (firstn_succ_nth d i (vk, p) Hi), !map_app, <- Hl.
    change (pushed_leds (EvPrint (MsgInit vk (s_idx p) (p_name p) (cur_val p))
                           :: ev1 ++ evs))
      with (pushed_leds (ev1 ++ evs)).
    rewrite pushed_leds_app, Hl1. reflexivity. }
  pose proof (for_items_from_rule P (fun _ _ _ => False)
                initialize_leds_body Hbody
                (List.length (Dict.items d)) 0%nat st) as R.
  assert (HP0 : P 0%nat st).
  { unfold P. split; [reflexivity|]. split; [reflexivity|].
    exists []. repeat split; reflexivity. }
  specialize (R HP0).
  destruct (for_items_from _ _ _ st) as [[e|[]] st'].
  - destruct R as (j & _ & []).
  - destruct R as (j & (Hd & Hvm & evs & Htr & Hw & Hl) & Hj).
    exists st'. split; [reflexivity|]. split; [exact Hvm|].
    split; [exact Hd|]. rewrite (since_app st st' evs Htr).
    split; [exact Hw|].
    rewrite Hl. unfold Dict.values. f_equal. f_equal.
    apply firstn_all2.
    destruct Hj as [->|[_ Hnone]]; [unfold Dict.items; lia|].
    rewrite Hd in Hnone. now apply nth_error_None in Hnone.
Qed.

(** *** Polls *)

(** X10.  A poll never writes a parameter, whether it returns or
    raises. *)
Theorem check_updates_never_writes st :
  vm (snd (check_updates st)) = vm st
  /\ filter is_setattr (since st (snd (check_updates st))) = [].
Proof.
  pose (I := fun s : state =>
    vm s = vm st
    /\ exists evs, trace s = evs ++ trace st /\ filter is_setattr evs = []).
  assert (HI : I (snd (check_updates st))).
  { unfold check_updates. apply for_items_preserves.
    - intros i s vk p (Hvm & evs & Htr & Hw) _.
      destruct (vm_getattr (vm s) (s_idx p) (p_name p)) as [e|cur] eqn:Hread.
      + rewrite (check_updates_body_raise _ sdk_set_led_colors vk _ _ _ Hread).
        unfold I. eauto.
      + destruct (Py.eq cur (cur_val p)) eqn:E.
        * rewrite (check_updates_body_same _ sdk_set_led_colors vk _ _ _ Hread E).
          unfold I. eauto.
        * destruct (check_updates_body_changed _ sdk_set_led_colors vk _ _ _
                      Hread E) as (c & msg & _ & ->).
          destruct (after_push_events (led_id p) c s)
            as (ev1 & Htr1 & Hw1 & _ & _).
          unfold I. simpl. rewrite after_push_vm. split; [exact Hvm|].
          exists (EvPrint msg :: ev1 ++ evs).
          split; [rewrite Htr1, Htr; simpl; now rewrite app_assoc|].
          simpl. rewrite filter_app, Hw1, Hw. reflexivity.
    - unfold I. split; [reflexivity|]. exists []. split; reflexivity. }
  destruct HI as (Hvm & evs & Htr & Hw).
  split; [exact Hvm|]. now rewrite (since_app st _ evs Htr).
Qed.

(** X11.  A poll that finds every stored value equal to the value the
    mixer returns does nothing at all: no colour is requested, nothing is
    printed, no entry changes. *)
Theorem poll_of_reconciled_is_noop st :
  (forall vk p, In (vk, p) (monitored_params st) ->
     reconciled (vm st) p) ->
  check_updates st = (inr tt, st).
Proof.
  intros Hall. unfold check_updates, for_items.
  pose proof (for_items_from_rule (fun _ s' => s' = st) (fun _ _ _ => False)
                check_updates_body) as R.
  assert (Hbody : forall i s' vk p,
    s' = st -> nth_error (monitored_params s') i = Some (vk, p) ->
    match check_updates_body vk p s' with
    | (inr _, st') => st' = st
    | (inl e, st') => False
    end).
  { intros i s' vk p -> Hi.
    destruct (Hall vk p (nth_error_In _ _ Hi)) as (cur & Hread & E).
    rewrite (check_updates_body_same _ sdk_set_led_colors vk _ _ _ Hread E).
    reflexivity. }
  specialize (R Hbody (List.length (Dict.items (monitored_params st)))
                0%nat st eq_refl).
  destruct (for_items_from _ _ _ st) as [[e|[]] s'].
  - destruct R as (j & _ & []).
  - destruct R as (j & -> & _). reflexivity.
Qed.

Lemma refreshed_binding (m : Mixer) p :
  binding_of (refreshed m p) = binding_of p.
Proof.
  unfold refreshed.
  destruct (vm_getattr m (s_idx p) (p_name p)) as [e|cur]; [reflexivity|].
  destruct (Py.eq cur (cur_val p)); reflexivity.
Qed.

(** X12.  A poll in which every read returns leaves, under each key, the
    entry refreshed from the mixer: untouched where the value read equals
    the stored one, holding the value read where it differs.  It
    requests a colour for exactly the bindings that differed, in the
    order of the dictionary. *)
Theorem poll_refreshes_every_binding st :
  Dict.wf (monitored_params st) ->
  (forall vk p, In (vk, p) (monitored_params st) -> readable (vm st) p) ->
  exists st',
    check_updates st = (inr tt, st')
    /\ monitored_params st'
       = map (fun kp => (fst kp, refreshed (vm st) (snd kp)))
             (monitored_params st)
    /\ rev (pushed_leds (since st st'))
       = map led_id
           (filter (changed (vm st)) (Dict.values (monitored_params st))).
Proof.
  intros Hwf Hall. set (d := monitored_params st). set (m := vm st).
  set (F := fun kp : Z * param => (fst kp, refreshed m (snd kp))).
  pose (P := fun (i : nat) (s : state) =>
    vm s = m
    /\ bindings (monitored_params s) = bindings d
    /\ (forall j, (j < i)%nat ->
          nth_error (monitored_params s) j = option_map F (nth_error d j))
    /\ (forall j, (i <= j)%nat ->
          nth_error (monitored_params s) j = nth_error d j)
    /\ exists evs, trace s = evs ++ trace st
         /\ rev (pushed_leds evs)
            = map led_id (filter (changed m) (map snd (firstn i d)))).
  assert (Hbody : forall i s vk p,
    P i s -> nth_error (monitored_params s) i = Some (vk, p) ->
    match check_updates_body vk p s with
    | (inr _, st') => P (S i) st'
    | (inl e, st') => False
    end).
  { intros i s vk p (Hvm & Hb & Hpre & Hsuf & evs & Htr & Hl) Hi.
    assert (Hdi : nth_error d i = Some (vk, p))
      by (rewrite <- (Hsuf i (Nat.le_refl i)); exact Hi).
    assert (Hwfs : Dict.wf (monitored_params s))
      by (apply (bindings_wf _ _ Hb); exact Hwf).
    destruct (Hall vk p (nth_error_In _ _ Hdi)) as [cur Hread].
    fold m in Hread.
    assert (Hfirst : map snd (firstn (S i) d)
                     = map snd (firstn i d) ++ [p])
      by (rewrite (firstn_succ_nth d i (vk, p) Hdi), map_app; reflexivity).
    destruct (Py.eq cur (cur_val p)) eqn:Eq.
    - rewrite <- Hvm in Hread.
      rewrite (check_updates_body_same _ sdk_set_led_colors vk _ _ _ Hread Eq).
      rewrite Hvm in Hread.
      unfold P. split; [exact Hvm|]. split; [exact Hb|].
      split.
      { intros j Hj. destruct (Nat.eq_dec j i) as [->|Hne].
        - rewrite Hi, Hdi. simpl. unfold F, refreshed. simpl.
          rewrite Hread, Eq. reflexivity.
        - apply Hpre. lia. }
      split; [intros j Hj; apply Hsuf; lia|].
      exists evs. split; [exact Htr|].
      assert (Hch : changed m p = false)
        by (unfold changed; rewrite Hread, Eq; reflexivity).
      rewrite Hfirst, filter_app, map_app, <- Hl.
      cbn [filter]. rewrite Hch. simpl.
      now rewrite app_nil_r.
    - rewrite <- Hvm in Hread.
      destruct (check_updates_body_changed _ sdk_set_led_colors vk _ _ _
                  Hread Eq) as (c & msg & _ & ->).
      rewrite Hvm in Hread.
      destruct (after_push_events (led_id p) c s)
        as (ev1 & Htr1 & _ & _ & Hl1).
      unfold P. cbn [monitored_params vm trace record with_monitored_params].
      rewrite after_push_vm.
      split; [exact Hvm|].
      split.
      { rewrite (bindings_set _ vk p (with_cur_val cur p)
                   (DictFacts.nth_error_get _ _ _ _ Hwfs Hi) eq_refl).
        exact Hb. }
      split.
      { intros j Hj.
        rewrite (DictFacts.nth_error_set _ i vk _ p j Hwfs Hi).
        destruct (Nat.eqb_spec j i) as [->|Hne].
        - rewrite Hdi. simpl. unfold F, refreshed. simpl.
          rewrite Hread, Eq. reflexivity.
        - apply Hpre. lia. }
      split.
      { intros j Hj.
        rewrite (DictFacts.nth_error_set _ i vk _ p j Hwfs Hi).
        destruct (Nat.eqb_spec j i); [lia|]. apply Hsuf. lia. }
      exists (EvPrint msg :: ev1 ++ evs).
      split; [rewrite Htr1, Htr; simpl; now rewrite app_assoc|].
      rewrite Hfirst, filter_app, map_app, <- Hl.
      change (pushed_leds (EvPrint msg :: ev1 ++ evs))
        with (pushed_leds (ev1 ++ evs)).
      assert (Hch : changed m p = true)
        by (unfold changed; rewrite Hread, Eq; reflexivity).
      rewrite pushed_leds_app, Hl1.
      cbn [filter]. rewrite Hch. reflexivity. }
  pose proof (for_items_from_rule P (fun _ _ _ => False)
                check_updates_body Hbody
                (List.length (Dict.items d)) 0%nat st) as R.
  assert (HP0 : P 0%nat st).
  { unfold P. split; [reflexivity|]. split; [reflexivity|].
    split; [intros; lia|]. split; [reflexivity|].
    exists []. split; reflexivity. }
  specialize (R HP0). unfold check_updates, for_items. fold d.
  destruct (for_items_from _ _ _ st) as [[e|[]] st'].
  - destruct R as (j & _ & []).
  - destruct R as (j & (Hvm & Hb & Hpre & Hsuf & evs & Htr & Hl) & Hj).
    assert (Hlen : (List.length d <= j)%nat).
    { destruct Hj as [->|[_ Hnone]]; [unfold Dict.items; lia|].
      apply nth_error_None in Hnone.
      rewrite (bindings_length _ _ Hb) in Hnone. exact Hnone. }
    exists st'. split; [reflexivity|]. split.
    + apply nth_error_ext. intros n. rewrite nth_error_map.
      destruct (Nat.lt_ge_cases n j) as [Hlt|Hge].
      * apply Hpre. exact Hlt.
      * rewrite (Hsuf n Hge).
        assert (Hn : nth_error d n = None) by (apply nth_error_None; lia).
        rewrite Hn. reflexivity.
    + rewrite (since_app st st' evs Htr), Hl.
      unfold Dict.values. now rewrite (firstn_all2 d Hlen).
Qed.

(** *** Toggles *)

(** X13.  An accepted toggle of a Boolean binding returns, stores a
    Boolean, on exactly when the stored value was falsy, and leaves the
    key green when it went on and red when it went off. *)
Theorem toggle_shows_green_or_red vk p st m1 :
  Dict.get vk (monitored_params st) = Some p ->
  vm_setattr (vm st) (s_idx p) (p_name p) (toggled p) = (inr tt, m1) ->
  is_boolean_binding p ->
  let st1 := snd (toggle_strip vk st) in
  fst (toggle_strip vk st) = inr tt
  /\ Dict.get vk (monitored_params st1)
     = Some (with_cur_val (Py.VBool (negb (Py.truthy (cur_val p)))) p)
  /\ last_pushed (led_id p) (trace st1)
     = Some (if Py.truthy (cur_val p) then LED_OFF_COLOR
             else LED_ON_COLOR).
Proof.
  intros Hget Hset Hb st1.
  destruct (toggle_strip_accepted vm_setattr sdk_set_led_colors vk p st m1
              Hget Hset)
    as (st' & evs & c & Hrun & _ & _ & _ & Hst & Hc & Hl).
  subst st1. rewrite Hrun. cbn [fst snd].
  split; [reflexivity|].
  rewrite (toggled_boolean p Hb) in Hst, Hc.
  split; [exact Hst|].
  rewrite ColorMapper_boolean in Hc
    by (apply is_boolean_with_cur_val; exact Hb).
  unfold colorForBoolean in Hc. simpl in Hc.
  rewrite Hl. f_equal. injection Hc as <-.
  destruct (Py.truthy (cur_val p)); reflexivity.
Qed.

(** X14.  In an accepted toggle the parameter is written first, then the
    colour is requested (and a warning printed if the SDK raised), then
    the toggle line is printed. *)
Theorem toggle_effect_order vk p st m1 :
  Dict.get vk (monitored_params st) = Some p ->
  vm_setattr (vm st) (s_idx p) (p_name p) (toggled p) = (inr tt, m1) ->
  exists msg warning r g b,
    since st (snd (toggle_strip vk st))
    = EvPrint msg
        :: warning
        ++ [EvSetLedColors (device_id (lighting_controller st))
              [LedColor (led_id p) r g b 255];
            EvSetattr (s_idx p) (p_name p) (toggled p)]
    /\ (warning = []
        \/ exists e, warning = [EvPrint (MsgLedError (led_id p) e)]).
Proof.
  intros Hget Hset.
  destruct (toggle_strip_done vm_setattr sdk_set_led_colors vk p st m1
              Hget Hset) as ([[r g] b] & msg & _ & ->).
  set (st0 := with_vm m1
                (record (EvSetattr (s_idx p) (p_name p) (toggled p)) st)).
  destruct (after_push_trace sdk_set_led_colors (led_id p) r g b st0)
    as (tl & Htr & Htl).
  exists msg, tl, r, g, b. split.
  - apply since_app. cbn [snd trace with_monitored_params record].
    rewrite Htr. subst st0. simpl. now rewrite <- app_assoc.
  - destruct Htl as [->|(e & _ & ->)]; [now left | right; eauto].
Qed.

(** *** Key releases *)

(** X15.  For an observer built from the configuration, a key release
    toggles exactly when the key carries a code that is a key of the
    configuration, and then the toggle finds its entry; every other
    release changes nothing.  The callback returns [True] unless the
    toggle raises. *)
Theorem on_release_filters (config : Dict.t config_entry) st :
  Dict.keys (monitored_params st) = Dict.keys config ->
  (forall name,
     on_release vm_setattr sdk_set_led_colors config (Key name) st
     = (inr true, st))
  /\ on_release vm_setattr sdk_set_led_colors config (KeyCode None) st
     = (inr true, st)
  /\ (forall vk, ~ In vk (Dict.keys config) ->
        on_release vm_setattr sdk_set_led_colors config (KeyCode (Some vk)) st
        = (inr true, st))
  /\ (forall vk, In vk (Dict.keys config) ->
        Dict.mem vk (monitored_params st) = true
        /\ on_release vm_setattr sdk_set_led_colors config
             (KeyCode (Some vk)) st
           = (match fst (toggle_strip vk st) with
              | inl e => inl e
              | inr _ => inr true
              end, snd (toggle_strip vk st))).
Proof.
  intros Hkeys. split; [reflexivity|]. split; [reflexivity|]. split.
  - intros vk Hno. apply DictFacts.mem_false in Hno.
    unfold on_release. now rewrite Hno.
  - intros vk Hin. split.
    + apply DictFacts.mem_true. now rewrite Hkeys.
    + apply DictFacts.mem_true in Hin. unfold on_release, bind, ret.
      rewrite Hin.
      destruct (toggle_strip vk st) as [[e|[]] s]; reflexivity.
Qed.

End EngineMore.

(** ** Further properties: runs *)

Lemma clamp_saturates_witness :
  clamp 5 0 1 == 1 /\ clamp (-1) 0 1 = 0 /\ clamp (1 # 2) 1 0 = 1.
Proof.
  split; [|split].
  - refine (proj2 (proj2 (proj2 (proj1 (clamp_saturates 5 0 1) _))) _);
      vm_compute; [discriminate | reflexivity].
  - refine (proj1 (proj2 (proj2 (proj1 (clamp_saturates (-1) 0 1) _))) _);
      vm_compute; [discriminate | reflexivity].
  - refine (proj2 (clamp_saturates (1 # 2) 1 0) _). vm_compute. reflexivity.
Defined.




Lemma ParameterObserver_init_outcome_witness :
  fst (ParameterObserver_init Bench.getattr STRIP_CONFIG
         (with_vm mixer_without_B1 bench_fresh))
  = inl (Py.ExternalError "no such parameter").
Proof.
  refine (proj1 (proj2 (proj2
            (ParameterObserver_init_outcome Bench.getattr STRIP_CONFIG
               (with_vm mixer_without_B1 bench_fresh)))
            [] 97%Z (ConfigEntry 0 "B1" 116 false None)
            (skipn 1 STRIP_CONFIG)
            (Py.ExternalError "no such parameter") _ _ _ _)).
  - unfold Dict.wf. simpl. distinct_literals.
  - reflexivity.
  - intros vk ce [].
  - vm_compute. reflexivity.
Defined.

Lemma poll_of_reconciled_is_noop_witness :
  check_updates Bench.getattr Bench.set_led_colors bench_started
  = (inr tt, bench_started).
Proof.
  refine (poll_of_reconciled_is_noop
            Bench.getattr Bench.set_led_colors bench_started _).
  intros vk p H. vm_compute in H.
  repeat (destruct H as [H|H];
          [injection H as <- <-; eexists; vm_compute; split; reflexivity|]).
  destruct H.
Defined.

Lemma poll_refreshes_every_binding_witness :
  let st := with_vm (snd (Bench.setattr Bench.mixer0 0 "B2" (Py.VBool true)))
              bench_started in
  exists st',
    check_updates Bench.getattr Bench.set_led_colors st = (inr tt, st')
    /\ monitored_params st'
       = map (fun kp => (fst kp, refreshed Bench.getattr (vm st) (snd kp)))
             (monitored_params st)
    /\ rev (pushed_leds (since st st'))
       = map led_id
           (filter (changed Bench.getattr (vm st))
                   (Dict.values (monitored_params st))).
Proof.
  refine (poll_refreshes_every_binding Bench.getattr Bench.set_led_colors
            (with_vm (snd (Bench.setattr Bench.mixer0 0 "B2" (Py.VBool true)))
               bench_started) _ _).
  - vm_compute. distinct_literals.
  - intros vk p H. vm_compute in H.
    repeat (destruct H as [H|H];
            [injection H as <- <-; eexists; vm_compute; reflexivity|]).
    destruct H.
Defined.

Lemma toggle_shows_green_or_red_witness :
  last_pushed 116
    (trace (snd (toggle_strip Bench.setattr Bench.set_led_colors 97
                   bench_started)))
  = Some LED_ON_COLOR.
Proof.
  refine (proj2 (proj2
            (toggle_shows_green_or_red Bench.setattr Bench.set_led_colors
               97 (Param 0 "B1" (Py.VBool false) 116 false None)
               bench_started
               (snd (Bench.setattr (vm bench_started) 0 "B1"
                       (Py.VBool true)))
               _ _ _))).
  - vm_compute. reflexivity.
  - vm_compute. reflexivity.
  - vm_compute. auto.
Defined.

Lemma toggle_effect_order_witness :
  exists msg warning r g b,
    since bench_started
      (snd (toggle_strip Bench.setattr Bench.set_led_colors 97 bench_started))
    = EvPrint msg
        :: warning
        ++ [EvSetLedColors "K70" [LedColor 116 r g b 255];
            EvSetattr 0 "B1" (Py.VBool true)]
    /\ (warning = []
        \/ exists e, warning = [EvPrint (MsgLedError 116 e)]).
Proof.
  exact (toggle_effect_order Bench.setattr Bench.set_led_colors
           97 (Param 0 "B1" (Py.VBool false) 116 false None)
           bench_started
           (snd (Bench.setattr (vm bench_started) 0 "B1" (Py.VBool true)))
           ltac:(vm_compute; reflexivity)
           ltac:(vm_compute; reflexivity)).
Defined.

Lemma on_release_filters_witness :
  on_release Bench.setattr Bench.set_led_colors STRIP_CONFIG
    (Key "shift") bench_started
  = (inr true, bench_started)
  /\ on_release Bench.setattr Bench.set_led_colors STRIP_CONFIG
       (KeyCode (Some 65%Z)) bench_started
     = (inr true, bench_started).
Proof.
  split.
  - refine (proj1 (on_release_filters Bench.setattr Bench.set_led_colors
                     STRIP_CONFIG bench_started _) "shift"%string).
    vm_compute. reflexivity.
  - refine (proj1 (proj2 (proj2
              (on_release_filters Bench.setattr Bench.set_led_colors
                 STRIP_CONFIG bench_started _))) 65%Z _).
    + vm_compute. reflexivity.
    + simpl. intros H.
      repeat (destruct H as [H|H]; [discriminate H|]). exact H.
Defined.
